(** * States of Matter: the particle engine, checked against its specification

    A shallow embedding of the parts of the simulation that the specification
    makes promises about:

    - [Monatomic]: [MonatomicVerletAlgorithm.updateInteractionForces] and
      [updateVelocitiesAndRotationRates];
    - [MultipleParticleModel]: [step], [setTemperature] and
      [getTemperatureInKelvin], next to [DualAtomModel.step];
    - [AbstractVerletAlgorithm]: [updatePressure] and the explosion timer;
    - [AndersenThermostat]: [adjustTemperature];
    - [DiatomicPhaseStateChanger]: [setPhase].

    The definitions come first, one module per source class; the properties
    follow, again grouped by class.

    JavaScript numbers are idealised as real numbers: every arithmetic
    operation is exact, and there is neither NaN nor an infinity.  A JavaScript
    array is a list; reading a member of a slot that does not exist raises a
    [TypeError], which the embedding renders as [None].

    Where a promise turns on rounding, the code is embedded a second time in
    [Binary64], over the binary64 numbers that JavaScript computes with, and
    evaluated there. *)

From stdpp Require Import base option list.
From Stdlib Require Import Reals Lra Lia.
From Stdlib Require PrimFloat FloatOps SpecFloat QArith.

Local Open Scope R_scope.

(** ** Deciding comparisons of concrete reals *)

(** The embedded code branches on [Rlt_dec] and its relatives.  On concrete
    numbers [Rdecide_one] settles one such test: it finds a comparison that
    linear arithmetic decides and keeps the branch the code takes.  [Reval]
    alternates this with simplification until neither makes progress;
    [Reval_with] also unfolds the named constants of a module on the way. *)
Ltac Rdecide_with d :=
  first [ destruct d; [exfalso; lra | idtac]
        | destruct d; [idtac | exfalso; lra] ].

Ltac Rdecide_one :=
  match goal with
  | |- context [Rlt_dec ?a ?b] => Rdecide_with (Rlt_dec a b)
  | |- context [Rle_dec ?a ?b] => Rdecide_with (Rle_dec a b)
  | |- context [Rgt_dec ?a ?b] => Rdecide_with (Rgt_dec a b)
  | |- context [Req_dec_T ?a ?b] => Rdecide_with (Req_dec_T a b)
  end.

Ltac Reval_with unfolding :=
  repeat first [ progress simpl | progress unfolding | Rdecide_one ].

Ltac Reval := Reval_with idtac.

(** ** DOT/Vector2, as far as the engine uses it *)

Record Vector2 : Type := mkVector2 { x : R; y : R }.

Definition addXY (v : Vector2) (dx dy : R) : Vector2 :=
  mkVector2 (x v + dx) (y v + dy).

Definition subtractXY (v : Vector2) (dx dy : R) : Vector2 :=
  mkVector2 (x v - dx) (y v - dy).

Definition magnitude (v : Vector2) : R := sqrt (x v * x v + y v * y v).

Definition multiplyScalar (v : Vector2) (s : R) : Vector2 :=
  mkVector2 (x v * s) (y v * s).

(** [setMagnitude m] rescales by [m / this.magnitude]. *)
Definition setMagnitude (v : Vector2) (m : R) : Vector2 :=
  multiplyScalar v (m / magnitude v).

Definition sumX (l : list Vector2) : R := foldr (fun v acc => x v + acc) 0 l.
Definition sumY (l : list Vector2) : R := foldr (fun v acc => y v + acc) 0 l.

(** ** MonatomicVerletAlgorithm *)

Module Monatomic.

(** The fields of [MoleculeForceAndMotionDataSet] that the monatomic
    algorithm reads and writes.  Each slot of an array holds a vector of its
    own. *)
Record DataSet : Type := mkDataSet {
  numberOfAtoms : nat;
  numberOfMolecules : nat;
  moleculeCenterOfMassPositions : list Vector2;
  moleculeVelocities : list Vector2;
  moleculeForces : list Vector2;
  nextMoleculeForces : list Vector2
}.

Definition set_nextMoleculeForces (l : list Vector2) (ds : DataSet) : DataSet :=
  mkDataSet (numberOfAtoms ds) (numberOfMolecules ds)
            (moleculeCenterOfMassPositions ds) (moleculeVelocities ds)
            (moleculeForces ds) l.

(** Static members inherited from [AbstractVerletAlgorithm]. *)
Definition PARTICLE_INTERACTION_DISTANCE_THRESH_SQRD : R := 6.25.
Definition MIN_DISTANCE_SQUARED : R := 0.90.

(** *** updateInteractionForces *)

(** The working values [dx], [dy], [distanceSqrd] of one pass through the
    inner loop. *)
Record Separation : Type := mkSeparation { dx : R; dy : R; distanceSqrd : R }.

Definition separation (xi yi : R) (pj : Vector2) : Separation :=
  let dx := xi - x pj in
  let dy := yi - y pj in
  mkSeparation dx dy (Rmax (dx * dx + dy * dy) MIN_DISTANCE_SQUARED).

(** [if ( distanceSqrd === 0 ) { dx = 1; dy = 1; distanceSqrd = 2; }] *)
Definition coincidentSpecialCase (s : Separation) : Separation :=
  if Req_dec_T (distanceSqrd s) 0 then mkSeparation 1 1 2 else s.

(** The pair [(forceX, forceY)] when the pair is close enough to interact,
    [None] when the guarded block is skipped. *)
Definition pairForce (epsilon : R) (s : Separation) : option (R * R) :=
  if Rlt_dec (distanceSqrd s) PARTICLE_INTERACTION_DISTANCE_THRESH_SQRD then
    let r2inv := 1 / distanceSqrd s in
    let r6inv := r2inv * r2inv * r2inv in
    let forceScalar := 48 * r2inv * r6inv * (r6inv - 0.5) * epsilon in
    Some (dx s * forceScalar, dy s * forceScalar)
  else None.

(** The body of the inner loop for the pair [(i, j)]; [xi], [yi] are the
    coordinates of molecule [i] cached by the outer loop. *)
Definition pairStep (epsilon xi yi : R) (i j : nat)
    (positions next : list Vector2) : option (list Vector2) :=
  pj ← positions !! j;
  match pairForce epsilon (coincidentSpecialCase (separation xi yi pj)) with
  | None => Some next
  | Some (forceX, forceY) =>
      fi ← next !! i;
      let next1 := <[i := addXY fi forceX forceY]> next in
      fj ← next1 !! j;
      Some (<[j := subtractXY fj forceX forceY]> next1)
  end.

(** [for ( let j = ...; j < numberOfAtoms; j++ )], with [k] passes left. *)
Fixpoint innerLoop (epsilon xi yi : R) (i j k : nat)
    (positions next : list Vector2) : option (list Vector2) :=
  match k with
  | O => Some next
  | S k' =>
      next' ← pairStep epsilon xi yi i j positions next;
      innerLoop epsilon xi yi i (S j) k' positions next'
  end.

(** [for ( let i = ...; i < numberOfAtoms; i++ )], with [k] passes left. *)
Fixpoint outerLoop (epsilon : R) (n i k : nat)
    (positions next : list Vector2) : option (list Vector2) :=
  match k with
  | O => Some next
  | S k' =>
      pi ← positions !! i;
      next' ← innerLoop epsilon (x pi) (y pi) i (S i) (n - S i) positions next;
      outerLoop epsilon n (S i) k' positions next'
  end.

Definition updateInteractionForces (epsilon : R) (ds : DataSet) : option DataSet :=
  let n := numberOfMolecules ds in
  next' ← outerLoop epsilon n 0 n (moleculeCenterOfMassPositions ds)
                    (nextMoleculeForces ds);
  Some (set_nextMoleculeForces next' ds).

(** *** What a pass adds up *)

(** The pair [(forceX, forceY)] that the pass computes for molecules [i] and
    [j], as a vector; the zero vector when the guarded block is skipped for
    the pair. *)
Definition pairContribution (epsilon : R) (positions : list Vector2)
    (i j : nat) : Vector2 :=
  match positions !! i, positions !! j with
  | Some pi, Some pj =>
      match pairForce epsilon
              (coincidentSpecialCase (separation (x pi) (y pi) pj)) with
      | Some (forceX, forceY) => mkVector2 forceX forceY
      | None => mkVector2 0 0
      end
  | _, _ => mkVector2 0 0
  end.

(** [g from + g (from + 1) + ...], [count] terms. *)
Fixpoint rangeSum (g : nat -> R) (from count : nat) : R :=
  match count with
  | O => 0
  | S count' => g from + rangeSum g (S from) count'
  end.

(** For the coordinate [c] and [n] molecules: what the pairs [(a, j)] with
    [a < j] add to the accumulator of molecule [a], and what the pairs
    [(i, a)] with [i < a] subtract from it. *)
Definition addedTo (c : Vector2 -> R) (epsilon : R) (positions : list Vector2)
    (n a : nat) : R :=
  rangeSum (fun j => c (pairContribution epsilon positions a j)) (S a) (n - S a).

Definition subtractedFrom (c : Vector2 -> R) (epsilon : R)
    (positions : list Vector2) (a : nat) : R :=
  rangeSum (fun i => c (pairContribution epsilon positions i a)) 0 a.

(** *** updateVelocitiesAndRotationRates *)

(** What the velocity loop carries from one pass to the next. *)
Record VelocityPass : Type := mkVelocityPass {
  atomVelocities : list Vector2;
  atomForces : list Vector2;
  totalKineticEnergy : R
}.

(** [if ( velocityVector.magnitude > 10 ) { velocityVector.setMagnitude( 10 ); }] *)
Definition capVelocity (velocityVector : Vector2) : Vector2 :=
  if Rgt_dec (magnitude velocityVector) 10
  then setMagnitude velocityVector 10
  else velocityVector.

(** The body of the loop for atom [i]. *)
Definition velocityStep (timeStepHalf : R) (nextAtomForces : list Vector2)
    (i : nat) (st : VelocityPass) : option VelocityPass :=
  atomVelocity ← atomVelocities st !! i;
  moleculeForce ← atomForces st !! i;
  nextForce ← nextAtomForces !! i;
  let velocityVector :=
    capVelocity
      (mkVector2 (x atomVelocity + timeStepHalf * (x moleculeForce + x nextForce))
                 (y atomVelocity + timeStepHalf * (y moleculeForce + y nextForce))) in
  Some (mkVelocityPass
          (<[i := velocityVector]> (atomVelocities st))
          (<[i := mkVector2 (x nextForce) (y nextForce)]> (atomForces st))
          (totalKineticEnergy st
           + (x velocityVector * x velocityVector
              + y velocityVector * y velocityVector) / 2)).

(** [for ( let i = ...; i < numberOfAtoms; i++ )], with [k] passes left. *)
Fixpoint velocityLoop (timeStepHalf : R) (nextAtomForces : list Vector2)
    (i k : nat) (st : VelocityPass) : option VelocityPass :=
  match k with
  | O => Some st
  | S k' =>
      st' ← velocityStep timeStepHalf nextAtomForces i st;
      velocityLoop timeStepHalf nextAtomForces (S i) k' st'
  end.

(** The result is the data set with its velocities and forces rewritten,
    and the value left in [this.calculatedTemperature];
    [minModelTemperature] is read from the orchestrator. *)
Definition updateVelocitiesAndRotationRates (minModelTemperature : R)
    (ds : DataSet) (timeStep : R) : option (DataSet * R) :=
  let n := numberOfAtoms ds in
  st ← velocityLoop (timeStep / 2) (nextMoleculeForces ds) 0 n
                    (mkVelocityPass (moleculeVelocities ds) (moleculeForces ds) 0);
  let calculatedTemperature :=
    match n with
    | O => minModelTemperature
    | S _ => (2 / 3) * (totalKineticEnergy st / INR n)
    end in
  Some (mkDataSet (numberOfAtoms ds) (numberOfMolecules ds)
                  (moleculeCenterOfMassPositions ds)
                  (atomVelocities st) (atomForces st) (nextMoleculeForces ds),
        calculatedTemperature).

End Monatomic.

(** ** MultipleParticleModel, the orchestrator *)

Module MultipleParticleModel.

(** [SubstanceType = Enumeration.byKeys( [...] )] *)
Inductive SubstanceType : Type :=
  NEON | ARGON | DIATOMIC_OXYGEN | WATER | ADJUSTABLE_ATOM.

(** Constants of the module. *)
Definition PARTICLE_CONTAINER_WIDTH : R := 10000.
Definition PARTICLE_CONTAINER_INITIAL_HEIGHT : R := 10000.
Definition MAX_TEMPERATURE : R := 50.0.
Definition MIN_TEMPERATURE : R := 0.00001.
Definition MIN_ALLOWABLE_CONTAINER_HEIGHT : R := 1500.
Definition PARTICLE_SPEED_UP_FACTOR : R := 4.
Definition MAX_PARTICLE_MOTION_TIME_STEP : R := 0.025.
Definition MAX_CONTAINER_SHRINK_RATE : R := 1250.
Definition MAX_CONTAINER_EXPAND_RATE : R := 1500.
Definition POST_EXPLOSION_CONTAINER_EXPANSION_RATE : R := 9000.
Definition ADJUSTABLE_ATOM_TRIPLE_POINT_IN_KELVIN : R := 75.
Definition ADJUSTABLE_ATOM_CRITICAL_POINT_IN_KELVIN : R := 140.
Definition MOLECULE_INJECTION_HOLDOFF_TIME : R := 0.25.

(** The members of [SOMConstants] that the temperature conversion reads;
    the values are defined in another module and are a parameter of the
    conversion here. *)
Record SOMConstants : Type := mkSOMConstants {
  NEON_TRIPLE_POINT_IN_KELVIN : R;
  NEON_CRITICAL_POINT_IN_KELVIN : R;
  ARGON_TRIPLE_POINT_IN_KELVIN : R;
  ARGON_CRITICAL_POINT_IN_KELVIN : R;
  O2_TRIPLE_POINT_IN_KELVIN : R;
  O2_CRITICAL_POINT_IN_KELVIN : R;
  WATER_TRIPLE_POINT_IN_KELVIN : R;
  WATER_CRITICAL_POINT_IN_KELVIN : R;
  TRIPLE_POINT_MONATOMIC_MODEL_TEMPERATURE : R;
  CRITICAL_POINT_MONATOMIC_MODEL_TEMPERATURE : R;
  TRIPLE_POINT_DIATOMIC_MODEL_TEMPERATURE : R;
  CRITICAL_POINT_DIATOMIC_MODEL_TEMPERATURE : R;
  TRIPLE_POINT_WATER_MODEL_TEMPERATURE : R;
  CRITICAL_POINT_WATER_MODEL_TEMPERATURE : R
}.

(** A thermostat as the orchestrator sees it: the one field it assigns. *)
Record Thermostat : Type := mkThermostat { targetTemperature : R }.

(** The container: the two height properties and the attributes derived
    from them. *)
Record Container : Type := mkContainer {
  particleContainerHeight : R;
  targetContainerHeight : R;
  normalizedContainerWidth : R;
  normalizedContainerHeight : R;
  normalizedTotalContainerHeight : R;
  normalizedLidVelocityY : R;
  heightChangeThisStep : R
}.

(** The pump. *)
Record Injection : Type := mkInjection {
  numMoleculesAwaitingInjection : Z;
  moleculeInjectionHoldoffTimer : R;
  particleInjectedThisStep : bool
}.

(** Temperature set-point and the objects that mirror it. *)
Record Thermal : Type := mkThermal {
  temperatureSetPoint : R;
  minModelTemperature : R;
  isoKineticThermostat : option Thermostat;
  andersenThermostat : option Thermostat
}.

(** The model object.  [E] is the state owned by the strategy objects (the
    molecule data set, the force and motion calculator, the phase state
    changer); [particles] holds the positions of the particles the view
    monitors. *)
Record Model (E : Type) : Type := mkModel {
  container : Container;
  injection : Injection;
  thermal : Thermal;
  isExploded : bool;
  isPlaying : bool;
  substance : SubstanceType;
  particles : list Vector2;
  particleDiameter : R;
  residualTime : R;
  engine : E
}.
Arguments mkModel {E}.
Arguments container {E}.
Arguments injection {E}.
Arguments thermal {E}.
Arguments isExploded {E}.
Arguments isPlaying {E}.
Arguments substance {E}.
Arguments particles {E}.
Arguments particleDiameter {E}.
Arguments residualTime {E}.
Arguments engine {E}.

Section Methods.
Context {E : Type}.

Definition set_container (c : Container) (m : Model E) : Model E :=
  mkModel c (injection m) (thermal m) (isExploded m) (isPlaying m)
          (substance m) (particles m) (particleDiameter m) (residualTime m)
          (engine m).

Definition set_injection (j : Injection) (m : Model E) : Model E :=
  mkModel (container m) j (thermal m) (isExploded m) (isPlaying m)
          (substance m) (particles m) (particleDiameter m) (residualTime m)
          (engine m).

Definition set_thermal (t : Thermal) (m : Model E) : Model E :=
  mkModel (container m) (injection m) t (isExploded m) (isPlaying m)
          (substance m) (particles m) (particleDiameter m) (residualTime m)
          (engine m).

Definition set_isExploded (b : bool) (m : Model E) : Model E :=
  mkModel (container m) (injection m) (thermal m) b (isPlaying m)
          (substance m) (particles m) (particleDiameter m) (residualTime m)
          (engine m).

Definition set_residualTime (t : R) (m : Model E) : Model E :=
  mkModel (container m) (injection m) (thermal m) (isExploded m)
          (isPlaying m) (substance m) (particles m) (particleDiameter m) t
          (engine m).

(** *** setTemperature *)

Definition clampTemperature (newTemperature : R) : R :=
  if Rgt_dec newTemperature MAX_TEMPERATURE then MAX_TEMPERATURE
  else if Rlt_dec newTemperature MIN_TEMPERATURE then MIN_TEMPERATURE
  else newTemperature.

(** [if ( thermostat !== null ) { thermostat.targetTemperature = t; }] *)
Definition retarget (t : R) (thermostat : option Thermostat) : option Thermostat :=
  match thermostat with
  | Some _ => Some (mkThermostat t)
  | None => None
  end.

Definition setTemperature (newTemperature : R) (m : Model E) : Model E :=
  let th := thermal m in
  set_thermal
    (mkThermal (clampTemperature newTemperature)
               (minModelTemperature th)
               (retarget newTemperature (isoKineticThermostat th))
               (retarget newTemperature (andersenThermostat th)))
    m.

(** *** getTemperatureInKelvin *)

(** The four values the [switch] on the substance selects, in the order
    triple point in Kelvin, critical point in Kelvin, triple point in
    model units, critical point in model units.  The [default] branch
    throws; no value of the enumeration reaches it. *)
Definition conversionPoints (K : SOMConstants) (s : SubstanceType)
  : R * R * R * R :=
  match s with
  | NEON =>
      (NEON_TRIPLE_POINT_IN_KELVIN K, NEON_CRITICAL_POINT_IN_KELVIN K,
       TRIPLE_POINT_MONATOMIC_MODEL_TEMPERATURE K,
       CRITICAL_POINT_MONATOMIC_MODEL_TEMPERATURE K)
  | ARGON =>
      (ARGON_TRIPLE_POINT_IN_KELVIN K, ARGON_CRITICAL_POINT_IN_KELVIN K,
       TRIPLE_POINT_MONATOMIC_MODEL_TEMPERATURE K,
       CRITICAL_POINT_MONATOMIC_MODEL_TEMPERATURE K)
  | ADJUSTABLE_ATOM =>
      (ADJUSTABLE_ATOM_TRIPLE_POINT_IN_KELVIN,
       ADJUSTABLE_ATOM_CRITICAL_POINT_IN_KELVIN,
       TRIPLE_POINT_MONATOMIC_MODEL_TEMPERATURE K,
       CRITICAL_POINT_MONATOMIC_MODEL_TEMPERATURE K)
  | WATER =>
      (WATER_TRIPLE_POINT_IN_KELVIN K, WATER_CRITICAL_POINT_IN_KELVIN K,
       TRIPLE_POINT_WATER_MODEL_TEMPERATURE K,
       CRITICAL_POINT_WATER_MODEL_TEMPERATURE K)
  | DIATOMIC_OXYGEN =>
      (O2_TRIPLE_POINT_IN_KELVIN K, O2_CRITICAL_POINT_IN_KELVIN K,
       TRIPLE_POINT_DIATOMIC_MODEL_TEMPERATURE K,
       CRITICAL_POINT_DIATOMIC_MODEL_TEMPERATURE K)
  end.

(** The value the [switch] leaves in [triplePointInModelUnits]. *)
Definition triplePointInModelUnits (K : SOMConstants) (s : SubstanceType) : R :=
  snd (fst (conversionPoints K s)).

(** [None] is the JavaScript [null]. *)
Definition getTemperatureInKelvin (K : SOMConstants) (m : Model E) : option R :=
  if decide (length (particles m) = 0%nat) then None
  else
    let '(triplePointInKelvin, criticalPointInKelvin,
          triplePointInModelUnits, criticalPointInModelUnits) :=
      conversionPoints K (substance m) in
    let setPoint := temperatureSetPoint (thermal m) in
    Some
      (if Rle_dec setPoint (minModelTemperature (thermal m)) then 0
       else if Rlt_dec setPoint triplePointInModelUnits then
         let temperatureInKelvin :=
           setPoint * triplePointInKelvin / triplePointInModelUnits in
         if Rlt_dec temperatureInKelvin 0.5 then 0.5 else temperatureInKelvin
       else if Rlt_dec setPoint criticalPointInModelUnits then
         let slope := (criticalPointInKelvin - triplePointInKelvin)
                      / (criticalPointInModelUnits - triplePointInModelUnits) in
         let offset := triplePointInKelvin - slope * triplePointInModelUnits in
         setPoint * slope + offset
       else setPoint * criticalPointInKelvin / criticalPointInModelUnits).

(** *** setContainerExploded *)

Definition resetContainerSize (m : Model E) : Model E :=
  let c := container m in
  set_container
    (mkContainer PARTICLE_CONTAINER_INITIAL_HEIGHT
                 PARTICLE_CONTAINER_INITIAL_HEIGHT
                 (PARTICLE_CONTAINER_WIDTH / particleDiameter m)
                 (PARTICLE_CONTAINER_INITIAL_HEIGHT / particleDiameter m)
                 (PARTICLE_CONTAINER_INITIAL_HEIGHT / particleDiameter m)
                 (normalizedLidVelocityY c) (heightChangeThisStep c))
    m.

Definition setContainerExploded (exploded : bool) (m : Model E) : Model E :=
  if decide (isExploded m = exploded) then m
  else
    let m' := set_isExploded exploded m in
    if exploded then m' else resetContainerSize m'.

(** *** stepInternal and step *)

(** The objects [stepInternal] delegates to.  [updateForcesAndMotion] is
    the method of the force and motion calculator;
    [afterParticleEngine dt pressureBeforeAlgorithm] stands for what
    follows the particle engine loop: [syncParticlePositions],
    [runThermostat], the pressure update and the adjustment of the
    temperature set-point.  None of them assigns a container height: the
    only writers of [particleContainerHeightProperty] are [reset],
    [resetContainerSize] and the first block of [stepInternal]. *)
Class Strategies : Type := {
  getModelPressure : Model E -> R;
  injectMoleculeInternal : Model E -> Model E;
  updateForcesAndMotion : R -> Model E -> Model E;
  afterParticleEngine : R -> R -> Model E -> Model E;
  injectMoleculeInternal_container :
    forall m, container (injectMoleculeInternal m) = container m;
  updateForcesAndMotion_container :
    forall ts m, container (updateForcesAndMotion ts m) = container m;
  afterParticleEngine_container :
    forall dt p m, container (afterParticleEngine dt p m) = container m
}.

(** The first block: the lid follows its target at a bounded rate, or
    flies off once the container has exploded. *)
Definition adjustContainerHeight (dt : R) (m : Model E) : Model E :=
  let c := container m in
  let height := particleContainerHeight c in
  let target := targetContainerHeight c in
  if isExploded m then
    set_container
      (mkContainer
         (if Rlt_dec height (PARTICLE_CONTAINER_INITIAL_HEIGHT * 3)
          then height + POST_EXPLOSION_CONTAINER_EXPANSION_RATE * dt
          else height)
         target (normalizedContainerWidth c) (normalizedContainerHeight c)
         (normalizedTotalContainerHeight c) (normalizedLidVelocityY c)
         (POST_EXPLOSION_CONTAINER_EXPANSION_RATE * dt))
      m
  else if Req_dec_T target height then
    set_container
      (mkContainer height target (normalizedContainerWidth c)
                   (normalizedContainerHeight c)
                   (normalizedTotalContainerHeight c) 0 0)
      m
  else
    let change := target - height in
    let change' :=
      if Rgt_dec change 0
      then Rmin change (MAX_CONTAINER_EXPAND_RATE * dt)
      else Rmax change (- MAX_CONTAINER_SHRINK_RATE * dt) in
    let height' :=
      if Rgt_dec change 0
      then Rmin (height + change') PARTICLE_CONTAINER_INITIAL_HEIGHT
      else Rmax (height + change') MIN_ALLOWABLE_CONTAINER_HEIGHT in
    set_container
      (mkContainer height' target (normalizedContainerWidth c)
                   (height' / particleDiameter m)
                   (normalizedTotalContainerHeight c)
                   (change' / particleDiameter m / dt) change')
      m.

(** Number of particle engine steps, size of the time step, and the new
    residual time. *)
Definition planEngineSteps (dt residual : R) : nat * R * R :=
  let particleMotionAdvancementTime := dt * PARTICLE_SPEED_UP_FACTOR in
  let '(numParticleEngineSteps, particleMotionTimeStep, residual') :=
    if Rgt_dec particleMotionAdvancementTime MAX_PARTICLE_MOTION_TIME_STEP
    then
      let n := Z.to_nat (Int_part (particleMotionAdvancementTime
                                   / MAX_PARTICLE_MOTION_TIME_STEP)) in
      (n, MAX_PARTICLE_MOTION_TIME_STEP,
       particleMotionAdvancementTime - INR n * MAX_PARTICLE_MOTION_TIME_STEP)
    else (1%nat, particleMotionAdvancementTime, residual) in
  if Rgt_dec residual' particleMotionTimeStep
  then (S numParticleEngineSteps, particleMotionTimeStep,
        residual' - particleMotionTimeStep)
  else (numParticleEngineSteps, particleMotionTimeStep, residual').

(** The pump: at most one queued molecule enters per step. *)
Definition injectIfReady `{Strategies} (dt : R) (m : Model E) : Model E :=
  let j := injection m in
  if decide (0 < numMoleculesAwaitingInjection j)%Z then
    if Req_dec_T (moleculeInjectionHoldoffTimer j) 0 then
      let m' := injectMoleculeInternal m in
      let j' := injection m' in
      set_injection
        (mkInjection (numMoleculesAwaitingInjection j' - 1)%Z
                     MOLECULE_INJECTION_HOLDOFF_TIME
                     (particleInjectedThisStep j'))
        m'
    else if Rgt_dec (moleculeInjectionHoldoffTimer j) 0 then
      set_injection
        (mkInjection (numMoleculesAwaitingInjection j)
                     (Rmax (moleculeInjectionHoldoffTimer j - dt) 0)
                     (particleInjectedThisStep j))
        m
    else m
  else if Rgt_dec (moleculeInjectionHoldoffTimer j) 0 then
    set_injection
      (mkInjection (numMoleculesAwaitingInjection j)
                   (Rmax (moleculeInjectionHoldoffTimer j - dt) 0)
                   (particleInjectedThisStep j))
      m
  else m.

(** [for ( let i = 0; i < numParticleEngineSteps; i++ )] *)
Fixpoint runParticleEngine `{Strategies} (numParticleEngineSteps : nat)
    (particleMotionTimeStep : R) (m : Model E) : Model E :=
  match numParticleEngineSteps with
  | O => m
  | S k =>
      runParticleEngine k particleMotionTimeStep
                        (updateForcesAndMotion particleMotionTimeStep m)
  end.

Definition stepInternal `{Strategies} (dt : R) (m : Model E) : Model E :=
  let j := injection m in
  let m1 :=
    set_injection
      (mkInjection (numMoleculesAwaitingInjection j)
                   (moleculeInjectionHoldoffTimer j) false)
      m in
  let m2 := adjustContainerHeight dt m1 in
  let pressureBeforeAlgorithm := getModelPressure m2 in
  let '(numParticleEngineSteps, particleMotionTimeStep, residual') :=
    planEngineSteps dt (residualTime m2) in
  let m3 := set_residualTime residual' m2 in
  let m4 := injectIfReady dt m3 in
  let m5 := runParticleEngine numParticleEngineSteps particleMotionTimeStep m4 in
  afterParticleEngine dt pressureBeforeAlgorithm m5.

(** [step: function( dt )]: the main step function. *)
Definition step `{Strategies} (dt : R) (m : Model E) : Model E :=
  if isPlaying m then stepInternal dt m else m.

End Methods.
Arguments Strategies E : clear implicits.

End MultipleParticleModel.

(** ** DualAtomModel, the two-atom sandbox *)

Module DualAtomModel.

(** What [step] reads of the model, and the rest of it. *)
Record Model (A : Type) : Type := mkModel {
  isPlaying : bool;
  speedIsNormal : bool;
  atoms : A
}.
Arguments mkModel {A}.
Arguments isPlaying {A}.
Arguments speedIsNormal {A}.
Arguments atoms {A}.

(** [step: function( simulationTimeStep )]; [speedIsNormal] is the outcome
    of [this.speed === 'normal'], and [stepInternal] is the method of that
    name. *)
Definition step {A : Type} (stepInternal : R -> Model A -> Model A)
    (simulationTimeStep : R) (m : Model A) : Model A :=
  if Rgt_dec simulationTimeStep 1.0 then m
  else if isPlaying m then
    let adjustedTimeStep :=
      if speedIsNormal m then simulationTimeStep * 1.5
      else simulationTimeStep * 0.5 in
    stepInternal adjustedTimeStep m
  else m.

End DualAtomModel.

(** ** AbstractVerletAlgorithm: pressure bookkeeping *)

Module AbstractVerletAlgorithm.
Import MultipleParticleModel.

Definition PRESSURE_CALC_TIME_WINDOW : R := 12.
Definition EXPLOSION_PRESSURE : R := 41.
Definition EXPLOSION_TIME : R := 1.

(** The interface of [TimeSpanDataQueue] that [updatePressure] uses:
    [add( value, dt )], the field [total], and [clear()]. *)
Class TimeSpanDataQueue (Q : Type) : Type := {
  add : R -> R -> Q -> Q;
  total : Q -> R;
  clear : Q -> Q
}.

(** The fields of the algorithm object that [updatePressure] touches. *)
Record Algorithm (Q : Type) : Type := mkAlgorithm {
  pressureProperty : R;
  pressureAccumulatorQueue : Q;
  timeAboveExplosionPressure : R
}.
Arguments mkAlgorithm {Q}.
Arguments pressureProperty {Q}.
Arguments pressureAccumulatorQueue {Q}.
Arguments timeAboveExplosionPressure {Q}.

Section UpdatePressure.
Context {Q E : Type} `{TimeSpanDataQueue Q}.

(** Zero out the pressure value if the model is at absolute zero. *)
Definition effectivePressure (pressureThisStep : R) (m : Model E) : R :=
  if Rgt_dec pressureThisStep 0 then
    if Rle_dec (temperatureSetPoint (thermal m)) (minModelTemperature (thermal m))
    then 0 else pressureThisStep
  else pressureThisStep.

(** The queue after the latest value has been accumulated. *)
Definition accumulate (pressureThisStep dt : R) (a : Algorithm Q) (m : Model E) : Q :=
  add (effectivePressure pressureThisStep m) dt (pressureAccumulatorQueue a).

(** [newPressure], the pressure over the time window. *)
Definition newPressure (pressureThisStep dt : R) (a : Algorithm Q) (m : Model E) : R :=
  Rmax (total (accumulate pressureThisStep dt a m) / PRESSURE_CALC_TIME_WINDOW) 0.

Definition updatePressure (pressureThisStep dt : R)
    (s : Algorithm Q * Model E) : Algorithm Q * Model E :=
  let '(a, m) := s in
  if isExploded m then
    (mkAlgorithm 0 (clear (pressureAccumulatorQueue a))
                 (timeAboveExplosionPressure a), m)
  else
    let queue := accumulate pressureThisStep dt a m in
    let newPressure := newPressure pressureThisStep dt a m in
    if Rgt_dec newPressure EXPLOSION_PRESSURE then
      let timeAbove := timeAboveExplosionPressure a + dt in
      if Rgt_dec timeAbove EXPLOSION_TIME
      then (mkAlgorithm 0 queue timeAbove, setContainerExploded true m)
      else (mkAlgorithm newPressure queue timeAbove, m)
    else (mkAlgorithm newPressure queue 0, m).

(** Successive calls, one per pair [(pressureThisStep, dt)]. *)
Fixpoint updatePressureRun (calls : list (R * R))
    (s : Algorithm Q * Model E) : Algorithm Q * Model E :=
  match calls with
  | [] => s
  | (pressureThisStep, dt) :: rest =>
      updatePressureRun rest (updatePressure pressureThisStep dt s)
  end.

(** The pressure over the window is above the explosion threshold at
    every call of the run that finds the container intact. *)
Fixpoint staysAbove (calls : list (R * R)) (s : Algorithm Q * Model E) : Prop :=
  match calls with
  | [] => True
  | (pressureThisStep, dt) :: rest =>
      (isExploded (snd s) = false ->
       newPressure pressureThisStep dt (fst s) (snd s) > EXPLOSION_PRESSURE)
      /\ staysAbove rest (updatePressure pressureThisStep dt s)
  end.

(** Simulated time covered by a run. *)
Definition elapsed (calls : list (R * R)) : R :=
  foldr (fun c acc => snd c + acc) 0 calls.

End UpdatePressure.

(** Modelled from the spec: [TimeSpanDataQueue], the "fixed-duration moving
    time window" into which the pressure contributions are accumulated.
    Entries are kept newest first; adding an entry drops the oldest ones
    until the time they span fits the window again. *)
Fixpoint keepWithin (span : R) (entries : list (R * R)) : list (R * R) :=
  match entries with
  | [] => []
  | (value, dt) :: older =>
      if Rle_dec dt span then (value, dt) :: keepWithin (span - dt) older else []
  end.

#[export] Instance windowQueue : TimeSpanDataQueue (list (R * R)) := {
  add value dt entries := keepWithin PRESSURE_CALC_TIME_WINDOW ((value, dt) :: entries);
  total entries := foldr (fun e acc => fst e + acc) 0 entries;
  clear _ := []
}.

End AbstractVerletAlgorithm.

(** ** AndersenThermostat *)

Module AndersenThermostat.

(** The part of the data set the thermostat works on.  The thermostat keeps
    references to the two arrays of the data set, so there is one copy of
    each. *)
Record DataSet : Type := mkDataSet {
  moleculeMass : R;
  moleculeRotationalInertia : R;
  numberOfMolecules : nat;
  moleculeVelocities : list Vector2;
  moleculeRotationRates : list R
}.

(** [random] is the sequence of values [this.random.nextGaussian()] will
    return, and [drawn] the number of values taken from it so far. *)
Record Thermostat : Type := mkThermostat {
  moleculeDataSet : DataSet;
  targetTemperature : R;
  minModelTemperature : R;
  random : nat -> R;
  drawn : nat
}.

(** The values of [gammaX], [gammaY] and [temperature] once the test
    against the minimum temperature is done. *)
Record Damping : Type := mkDamping { gammaX : R; gammaY : R; temperature : R }.

Definition damping (targetTemperature minModelTemperature : R) : Damping :=
  if Rle_dec targetTemperature minModelTemperature
  then mkDamping 0.992 0.999 0
  else mkDamping 0.9999 0.9999 targetTemperature.

(** The body of the loop for molecule [i]; [c] counts the Gaussian values
    drawn so far.  A missing rotation rate would make the product NaN,
    which the idealisation has no value for, so it counts as a failure
    like a missing velocity. *)
Definition adjustMolecule (g : Damping) (velocityScalingFactor rotationScalingFactor : R)
    (random : nat -> R) (i c : nat) (velocities : list Vector2) (rates : list R)
  : option (list Vector2 * list R) :=
  v ← velocities !! i;
  w ← rates !! i;
  let xVel := x v * gammaX g + random c * velocityScalingFactor in
  let yVel := y v * gammaY g + random (S c) * velocityScalingFactor in
  Some (<[i := mkVector2 xVel yVel]> velocities,
        <[i := gammaX g * w + random (S (S c)) * rotationScalingFactor]> rates).

(** What the loop writes into the velocity of molecule [a], the [n]-th one
    it visits, when it found [v] there. *)
Definition damped (g : Damping) (velocityScalingFactor : R) (random : nat -> R)
    (c n : nat) (v : Vector2) : Vector2 :=
  mkVector2 (x v * gammaX g + random (c + 3 * n)%nat * velocityScalingFactor)
            (y v * gammaY g + random (S (c + 3 * n)) * velocityScalingFactor).

Fixpoint adjustLoop (g : Damping) (velocityScalingFactor rotationScalingFactor : R)
    (random : nat -> R) (i c k : nat) (velocities : list Vector2) (rates : list R)
  : option (list Vector2 * list R) :=
  match k with
  | O => Some (velocities, rates)
  | S k' =>
      '(velocities', rates') ←
        adjustMolecule g velocityScalingFactor rotationScalingFactor random i c
                       velocities rates;
      adjustLoop g velocityScalingFactor rotationScalingFactor random
                 (S i) (3 + c) k' velocities' rates'
  end.

Definition adjustTemperature (t : Thermostat) : option Thermostat :=
  let ds := moleculeDataSet t in
  let g := damping (targetTemperature t) (minModelTemperature t) in
  let massInverse := 1 / moleculeMass ds in
  let inertiaInverse := 1 / moleculeRotationalInertia ds in
  let velocityScalingFactor :=
    sqrt (temperature g * massInverse * (1 - gammaX g ^ 2)) in
  let rotationScalingFactor :=
    sqrt (temperature g * inertiaInverse * (1 - gammaX g ^ 2)) in
  '(velocities, rates) ←
    adjustLoop g velocityScalingFactor rotationScalingFactor (random t) 0
               (drawn t) (numberOfMolecules ds)
               (moleculeVelocities ds) (moleculeRotationRates ds);
  Some (mkThermostat
          (mkDataSet (moleculeMass ds) (moleculeRotationalInertia ds)
                     (numberOfMolecules ds) velocities rates)
          (targetTemperature t) (minModelTemperature t) (random t)
          (drawn t + 3 * numberOfMolecules ds)).

End AndersenThermostat.

(** ** DiatomicPhaseStateChanger *)

Module DiatomicPhaseStateChanger.

(** The values [setPhase] can be handed: the three phase constants of
    [AbstractPhaseStateChanger], and anything else. *)
Inductive PhaseID : Type := PHASE_SOLID | PHASE_LIQUID | PHASE_GAS | PHASE_UNLISTED.

(** The calls [setPhase] makes, for the record of an execution. *)
Inductive Call : Type :=
| CallSetPhaseSolid
| CallSetPhaseLiquid
| CallSetPhaseGas
| CallUpdateAtomPositions
| CallModelStep.

#[export] Instance Call_eq_dec : EqDecision Call.
Proof. solve_decision. Defined.

(** What [setPhase] calls.  The three placement methods set the
    temperature and write positions, velocities and angles into the data
    set; none of them steps the model.  [markAllSafe] is the assignment to
    [numberOfSafeMolecules]. *)
Class Collaborators (M : Type) : Type := {
  setPhaseSolid : M -> M;
  setPhaseLiquid : M -> M;
  setPhaseGas : M -> M;
  markAllSafe : M -> M;
  updateAtomPositions : M -> M;
  modelStep : M -> M
}.

Section SetPhase.
Context {M : Type} `{Collaborators M}.

(** A model state together with the calls made so far, oldest first. *)
Definition Run : Type := M * list Call.

Definition perform (c : Call) (f : M -> M) (r : Run) : Run :=
  (f (fst r), snd r ++ [c]).

(** What the [switch] does, and the value it leaves in
    [postChangeModelSteps]. *)
Definition placeMolecules (phaseID : PhaseID) (r : Run) : Run * nat :=
  match phaseID with
  | PHASE_SOLID => (perform CallSetPhaseSolid setPhaseSolid r, 0%nat)
  | PHASE_LIQUID => (perform CallSetPhaseLiquid setPhaseLiquid r, 200%nat)
  | PHASE_GAS => (perform CallSetPhaseGas setPhaseGas r, 0%nat)
  | PHASE_UNLISTED => (r, 0%nat)
  end.

(** [for ( var i = 0; i < postChangeModelSteps; i++ ) { this.model.step(); }] *)
Fixpoint settle (postChangeModelSteps : nat) (r : Run) : Run :=
  match postChangeModelSteps with
  | O => r
  | S k => settle k (perform CallModelStep modelStep r)
  end.

Definition setPhase (phaseID : PhaseID) (m : M) : Run :=
  let '(r, postChangeModelSteps) := placeMolecules phaseID (m, []) in
  let r := (markAllSafe (fst r), snd r) in
  let r := perform CallUpdateAtomPositions updateAtomPositions r in
  settle postChangeModelSteps r.

(** How often the model's step function was invoked in a run. *)
Definition stepCalls (r : Run) : nat :=
  length (filter (fun c => c = CallModelStep) (snd r)).

End SetPhase.

End DiatomicPhaseStateChanger.


(** ** MonatomicVerletAlgorithm: the rest of a time step *)

Module MonatomicStep.
Import Monatomic.

(** [for ( let i = ...; i < moleculeDataSet.getNumberOfMolecules(); i++ )
    { nextAtomForces[ i ].setXY( 0, accelerationDueToGravity ); }],
    with [k] passes left. *)
Fixpoint initializeLoop (accelerationDueToGravity : R) (i k : nat)
    (nextAtomForces : list Vector2) : option (list Vector2) :=
  match k with
  | O => Some nextAtomForces
  | S k' =>
      _ ← nextAtomForces !! i;
      initializeLoop accelerationDueToGravity (S i) k'
                     (<[i := mkVector2 0 accelerationDueToGravity]> nextAtomForces)
  end.

(** [initializeForces]; the gravitational acceleration is read from the
    orchestrator. *)
Definition initializeForces (accelerationDueToGravity : R) (ds : DataSet)
  : option DataSet :=
  next' ← initializeLoop accelerationDueToGravity 0 (numberOfMolecules ds)
                         (nextMoleculeForces ds);
  Some (set_nextMoleculeForces next' ds).

End MonatomicStep.

(** ** MultipleParticleModel: the controls *)

Module ModelControls.
Import MultipleParticleModel.

Definition MAX_MOLECULES_QUEUED_FOR_INJECTION : Z := 3.
Definition TEMPERATURE_CHANGE_RATE : R := 0.07.


(** The phase temperatures of [SOMConstants], and its largest epsilon. *)
Record PhaseConstants : Type := mkPhaseConstants {
  SOLID_TEMPERATURE : R;
  LIQUID_TEMPERATURE : R;
  GAS_TEMPERATURE : R;
  MAX_EPSILON : R
}.

Inductive PhaseStateEnum : Type := SOLID | LIQUID | GAS.

Section Controls.
Context {E : Type}.

(** [injectMolecule]: queue one more molecule for the pump. *)
Definition injectMolecule (m : Model E) : Model E :=
  let j := injection m in
  set_injection
    (mkInjection
       (Z.min (numMoleculesAwaitingInjection j + 1)
              MAX_MOLECULES_QUEUED_FOR_INJECTION)
       (moleculeInjectionHoldoffTimer j) (particleInjectedThisStep j))
    m.


(** [mapTemperatureToPhase] *)
Definition mapTemperatureToPhase (P : PhaseConstants) (m : Model E)
  : PhaseStateEnum :=
  let setPoint := temperatureSetPoint (thermal m) in
  if Rlt_dec setPoint
       (SOLID_TEMPERATURE P + (LIQUID_TEMPERATURE P - SOLID_TEMPERATURE P) / 2)
  then SOLID
  else if Rlt_dec setPoint
            (LIQUID_TEMPERATURE P + (GAS_TEMPERATURE P - LIQUID_TEMPERATURE P) / 2)
  then LIQUID
  else GAS.

End Controls.

(** [convertEpsilonToScaledEpsilon] and [convertScaledEpsilonToEpsilon] *)
Definition convertEpsilonToScaledEpsilon (P : PhaseConstants) (epsilon : R) : R :=
  epsilon / (MAX_EPSILON P / 2).

Definition convertScaledEpsilonToEpsilon (P : PhaseConstants) (scaledEpsilon : R) : R :=
  scaledEpsilon * MAX_EPSILON P / 2.

End ModelControls.

(** ** JavaScript comparisons and arrays with holes *)

(** The comparisons of two numbers, as truth values. *)
Definition Rleb (a b : R) : bool := if Rle_dec a b then true else false.
Definition Rltb (a b : R) : bool := if Rlt_dec a b then true else false.
Definition Rgeb (a b : R) : bool := if Rge_dec a b then true else false.
Definition Rgtb (a b : R) : bool := if Rgt_dec a b then true else false.

(** An array whose slots may hold [undefined], which is [None] here, as every
    slot of [new Array( size )] does.  Writing past the end lengthens the
    array. *)
Definition jsSet {A : Type} (i : nat) (v : A) (l : list (option A))
  : list (option A) :=
  if decide (i < length l)%nat then <[i := Some v]> l
  else l ++ replicate (i - length l) None ++ [Some v].

(** The truth value of [array[ i ]] for an array of booleans: a missing or
    undefined slot is falsy. *)
Definition jsTruthy (l : list (option bool)) (i : nat) : bool :=
  match l !! i with
  | Some (Some b) => b
  | _ => false
  end.

(** ** MovingAverage *)

Module MovingAverage.

Record t : Type := mk {
  size : nat;
  average : R;
  initialValue : R;
  array : list (option R);
  currentIndex : nat;
  total : R
}.

(** [for ( let i = ...; i < this.size; i++ ) { this.array[ i ] = this.initialValue; }],
    with [k] passes left. *)
Fixpoint fill (initialValue : R) (i k : nat) (array : list (option R))
  : list (option R) :=
  match k with
  | O => array
  | S k' => fill initialValue (S i) k' (jsSet i initialValue array)
  end.

(** [reset].  With a size of zero the average is 0 / 0, NaN in the source;
    the properties below are about positive sizes. *)
Definition reset (m : t) : t :=
  let total := initialValue m * INR (size m) in
  mk (size m) (total / INR (size m)) (initialValue m)
     (fill (initialValue m) 0 (size m) (array m)) 0 total.

(** The constructor: [new MovingAverage( size, { initialValue: ... } )]. *)
Definition create (size : nat) (initialValue : R) : t :=
  reset (mk size 0 initialValue (replicate size None) 0 0).

(** [addValue].  Reading a slot that holds [undefined], or taking the
    remainder by a size of zero, would turn the total into NaN, for which the
    idealisation has no value: the result is then [None]. *)
Definition addValue (newValue : R) (m : t) : option t :=
  replacedValue ← mjoin (array m !! currentIndex m);
  if decide (size m = 0%nat) then None
  else
    let total := (total m - replacedValue) + newValue in
    Some (mk (size m) (total / INR (size m)) (initialValue m)
             (jsSet (currentIndex m) newValue (array m))
             ((currentIndex m + 1) mod size m) total).

(** Successive calls of [addValue], first value first. *)
Fixpoint addValues (newValues : list R) (m : t) : option t :=
  match newValues with
  | [] => Some m
  | v :: rest => m' ← addValue v m; addValues rest m'
  end.

End MovingAverage.

(** Sum of a list of numbers. *)
Definition sumR (l : list R) : R := foldr Rplus 0 l.

(** The invariant of a moving average between calls. *)
Module MovingAverageState.
Import MovingAverage.

(** The values the average is taken over, oldest first: the circular buffer
    read from [currentIndex] on. *)
Definition window (m : t) : list (option R) :=
  drop (currentIndex m) (array m) ++ take (currentIndex m) (array m).

(** The state is in order, and [w] are the values in the window. *)
Definition holds (m : t) (w : list R) : Prop :=
  window m = Some <$> w
  /\ length (array m) = size m
  /\ (currentIndex m < size m)%nat
  /\ total m = sumR w
  /\ average m = total m / INR (size m).

End MovingAverageState.


(** ** AbstractVerletAlgorithm: moving the molecules *)

Module WallCollisions.
Import MultipleParticleModel AbstractVerletAlgorithm.

(** The arrays and attributes of the molecule data set that
    [updateMoleculePositions] works on. *)
Record MoleculeDataSet : Type := mkMoleculeDataSet {
  numberOfMolecules : nat;
  moleculeMass : R;
  moleculeRotationalInertia : R;
  moleculeCenterOfMassPositions : list Vector2;
  moleculeVelocities : list Vector2;
  moleculeForces : list Vector2;
  insideContainer : list (option bool);
  moleculeRotationAngles : list R;
  moleculeRotationRates : list R;
  moleculeTorques : list R
}.

(** The fields of the algorithm object that say where particles bounce, and
    the flag it raises when the lid changes a velocity. *)
Record Bouncer : Type := mkBouncer {
  sideBounceInset : R;
  bottomBounceInset : R;
  topBounceInset : R;
  lidChangedParticleVelocity : bool
}.

(** What one pass of the loop decides for a molecule: its new position and
    velocity, the truth value of its flag afterwards and whether the flag was
    assigned, what it adds to the accumulated pressure, and whether it makes
    the algorithm raise [lidChangedParticleVelocity]. *)
Record Moved : Type := mkMoved {
  newPosition : Vector2;
  newVelocity : Vector2;
  insideAfter : bool;
  insideWritten : bool;
  pressure : R;
  lidMoved : bool
}.

Section Moving.
Context {E : Type}.

Definition isNormalizedPositionInContainer (m : Model E) (xPos yPos : R) : bool :=
  Rgeb xPos 0 && Rleb xPos (normalizedContainerWidth (container m))
  && Rgeb yPos 0 && Rleb yPos (normalizedTotalContainerHeight (container m)).

(** The body of the loop up to [set new position], for a molecule with the
    given position, velocity and force whose flag [insideContainer[ i ]] has
    the truth value [inside]. *)
Definition moveMolecule (b : Bouncer) (m : Model E) (timeStep massInverse : R)
    (position velocity force : Vector2) (inside : bool) : Moved :=
  let timeStepSqrHalf := timeStep * timeStep * 0.5 in
  let pressureAccumulationMinHeight :=
    normalizedContainerHeight (container m) * 0.3 in
  let minX := sideBounceInset b in
  let minY := bottomBounceInset b in
  let maxX := normalizedContainerWidth (container m) - sideBounceInset b in
  let maxY := normalizedContainerHeight (container m) - topBounceInset b in
  let moleculeVelocityX := x velocity in
  let moleculeVelocityY := y velocity in
  let xPos := x position + timeStep * moleculeVelocityX
              + timeStepSqrHalf * x force * massInverse in
  let yPos := y position + timeStep * moleculeVelocityY
              + timeStepSqrHalf * y force * massInverse in
  let reentered := negb inside && isNormalizedPositionInContainer m xPos yPos in
  if inside || reentered then
    let '(xPos', velocityX', pressureX) :=
      if Rleb xPos minX && Rltb moleculeVelocityX 0 then
        (minX, - moleculeVelocityX,
         if Rgtb yPos pressureAccumulationMinHeight
         then - moleculeVelocityX else 0)
      else if Rgeb xPos maxX && Rgtb moleculeVelocityX 0 then
        (maxX, - moleculeVelocityX,
         if Rgtb yPos pressureAccumulationMinHeight
         then moleculeVelocityX else 0)
      else (xPos, moleculeVelocityX, 0) in
    if Rleb yPos minY && Rleb moleculeVelocityY 0 then
      mkMoved (mkVector2 xPos' minY) (mkVector2 velocityX' (- moleculeVelocityY))
              true reentered pressureX false
    else if Rgeb yPos maxY then
      if negb (isExploded m) then
        let lidVelocity := normalizedLidVelocityY (container m) in
        let velocityY' :=
          if Rgtb moleculeVelocityY 0
          then - moleculeVelocityY + lidVelocity * 0.3
          else if Rltb (Rabs moleculeVelocityY) (Rabs lidVelocity)
          then lidVelocity
          else moleculeVelocityY in
        mkMoved (mkVector2 xPos' maxY) (mkVector2 velocityX' velocityY')
                true reentered (pressureX + Rabs moleculeVelocityY)
                (if Req_dec_T lidVelocity 0 then false else true)
      else
        mkMoved (mkVector2 xPos' yPos) (mkVector2 velocityX' moleculeVelocityY)
                false true pressureX false
    else
      mkMoved (mkVector2 xPos' yPos) (mkVector2 velocityX' moleculeVelocityY)
              true reentered pressureX false
  else
    mkMoved (mkVector2 xPos yPos) velocity false false 0 false.

(** What the loop carries from one molecule to the next. *)
Record Pass : Type := mkPass {
  positions : list Vector2;
  velocities : list Vector2;
  insideFlags : list (option bool);
  rotationAngles : list R;
  accumulatedPressure : R;
  lidChanged : bool
}.

(** The body of the loop for molecule [i].  A missing position, velocity or
    force raises a TypeError; a missing rotation angle, rate or torque would
    make the new angle NaN, which is a failure here as well. *)
Definition moveStep (b : Bouncer) (m : Model E) (timeStep : R)
    (ds : MoleculeDataSet) (i : nat) (p : Pass) : option Pass :=
  velocity ← velocities p !! i;
  position ← positions p !! i;
  force ← moleculeForces ds !! i;
  angle ← rotationAngles p !! i;
  rate ← moleculeRotationRates ds !! i;
  torque ← moleculeTorques ds !! i;
  let r := moveMolecule b m timeStep (1 / moleculeMass ds)
                        position velocity force (jsTruthy (insideFlags p) i) in
  Some (mkPass
          (<[i := newPosition r]> (positions p))
          (<[i := newVelocity r]> (velocities p))
          (if insideWritten r then jsSet i (insideAfter r) (insideFlags p)
           else insideFlags p)
          (<[i := angle + (timeStep * rate
                           + timeStep * timeStep * 0.5 * torque
                             * (1 / moleculeRotationalInertia ds))]>
             (rotationAngles p))
          (accumulatedPressure p + pressure r)
          (lidChanged p || lidMoved r)).

(** [for ( let i = ...; i < numberOfMolecules; i++ )], with [k] passes left. *)
Fixpoint moveLoop (b : Bouncer) (m : Model E) (timeStep : R)
    (ds : MoleculeDataSet) (i k : nat) (p : Pass) : option Pass :=
  match k with
  | O => Some p
  | S k' => p' ← moveStep b m timeStep ds i p; moveLoop b m timeStep ds (S i) k' p'
  end.

(** The loop of [updateMoleculePositions] over the whole data set. *)
Definition moveMolecules (b : Bouncer) (m : Model E) (timeStep : R)
    (ds : MoleculeDataSet) : option Pass :=
  moveLoop b m timeStep ds 0 (numberOfMolecules ds)
           (mkPass (moleculeCenterOfMassPositions ds) (moleculeVelocities ds)
                   (insideContainer ds) (moleculeRotationAngles ds) 0
                   (lidChangedParticleVelocity b)).

(** [updateMoleculePositions]: the loop, then the position updater of the
    concrete algorithm, then the pressure bookkeeping. *)
Definition updateMoleculePositions {Q : Type} `{TimeSpanDataQueue Q}
    (updateAtomPositions : MoleculeDataSet -> MoleculeDataSet)
    (timeStep : R)
    (s : Bouncer * Algorithm Q * Model E * MoleculeDataSet)
  : option (Bouncer * Algorithm Q * Model E * MoleculeDataSet) :=
  let '(b, a, m, ds) := s in
  p ← moveMolecules b m timeStep ds;
  let ds' :=
    updateAtomPositions
      (mkMoleculeDataSet (numberOfMolecules ds) (moleculeMass ds)
         (moleculeRotationalInertia ds) (positions p) (velocities p)
         (moleculeForces ds) (insideFlags p) (rotationAngles p)
         (moleculeRotationRates ds) (moleculeTorques ds)) in
  let '(a', m') := updatePressure (accumulatedPressure p) timeStep (a, m) in
  Some (mkBouncer (sideBounceInset b) (bottomBounceInset b) (topBounceInset b)
                  (lidChanged p),
        a', m', ds').

End Moving.

End WallCollisions.

(** ** SigmaTable and InteractionStrengthTable *)

Module AtomTables.

(** [AtomType] *)
Inductive AtomType : Type := NEON | ARGON | OXYGEN | HYDROGEN | ADJUSTABLE.

#[export] Instance AtomType_eq_dec : EqDecision AtomType.
Proof. solve_decision. Defined.

(** The radii and limits the tables read from the atom classes and from the
    constants of the simulation. *)
Record TableConstants : Type := mkTableConstants {
  NeonAtom_RADIUS : R;
  ArgonAtom_RADIUS : R;
  OxygenAtom_RADIUS : R;
  DEFAULT_RADIUS : R;
  DEFAULT_INTERACTION_POTENTIAL : R;
  MIN_SIGMA : R;
  MAX_SIGMA : R;
  MIN_EPSILON : R;
  MAX_EPSILON : R
}.

(** What a table answers: the value returned, and whether the line
    [assert && assert( false, ... )] was on the way to it. *)
Record Answer : Type := mkAnswer { value : R; assertionReached : bool }.

Definition isPair (a b : AtomType) (atomType1 atomType2 : AtomType) : bool :=
  (bool_decide (atomType1 = a) && bool_decide (atomType2 = b))
  || (bool_decide (atomType1 = b) && bool_decide (atomType2 = a)).

(** [SigmaTable.getSigma] *)
Definition getSigma (C : TableConstants) (atomType1 atomType2 : AtomType) : Answer :=
  if bool_decide (atomType1 = atomType2) then
    match atomType1 with
    | NEON => mkAnswer 308 false
    | ARGON => mkAnswer 376 false
    | OXYGEN => mkAnswer 200 false
    | ADJUSTABLE => mkAnswer (DEFAULT_RADIUS C * 2) false
    | HYDROGEN => mkAnswer (MAX_EPSILON C / 2) true
    end
  else if isPair NEON ARGON atomType1 atomType2 then mkAnswer 343 false
  else if isPair NEON OXYGEN atomType1 atomType2
  then mkAnswer (NeonAtom_RADIUS C + OxygenAtom_RADIUS C) false
  else if isPair ARGON OXYGEN atomType1 atomType2
  then mkAnswer (ArgonAtom_RADIUS C + OxygenAtom_RADIUS C) false
  else if bool_decide (atomType1 = ADJUSTABLE) || bool_decide (atomType2 = ADJUSTABLE)
  then mkAnswer (DEFAULT_RADIUS C * 2) false
  else mkAnswer ((MAX_SIGMA C - MIN_SIGMA C) / 2) true.

(** [InteractionStrengthTable.getInteractionPotential] *)
Definition getInteractionPotential (C : TableConstants)
    (atomType1 atomType2 : AtomType) : Answer :=
  if bool_decide (atomType1 = atomType2) then
    match atomType1 with
    | NEON => mkAnswer 35.8 false
    | ARGON => mkAnswer 111.84 false
    | OXYGEN => mkAnswer 59500 false
    | ADJUSTABLE => mkAnswer (DEFAULT_INTERACTION_POTENTIAL C) false
    | HYDROGEN => mkAnswer (MAX_EPSILON C / 2) true
    end
  else if isPair NEON ARGON atomType1 atomType2 then mkAnswer 59.5 false
  else if isPair NEON OXYGEN atomType1 atomType2 then mkAnswer 51 false
  else if isPair ARGON OXYGEN atomType1 atomType2 then mkAnswer 85 false
  else if bool_decide (atomType1 = ADJUSTABLE) || bool_decide (atomType2 = ADJUSTABLE)
  then mkAnswer ((MAX_EPSILON C - MIN_EPSILON C) / 2) false
  else mkAnswer ((MAX_EPSILON C - MIN_EPSILON C) / 2) true.

End AtomTables.

(** ** DualAtomModel: the sub-steps of a frame *)

Module DualAtomStepping.

Definition MAX_TIME_STEP : R := 0.005.

(** How often the body of [for ( var i = 0; i < bound; i++ )] runs when the
    bound is any number: once for every natural number below it. *)
Definition passesBelow (bound : R) : nat := Z.to_nat (- Int_part (- bound)).

(** The part of the model [stepInternal] works on: the time not yet applied,
    and the atoms with their forces and bonding state. *)
Record Internals (B : Type) : Type := mkInternals {
  residualTime : R;
  pair : B
}.
Arguments mkInternals {B}.
Arguments residualTime {B}.
Arguments pair {B}.

(** The bound of the loop, the time step of each pass, and the new residual
    time. *)
Definition planIterations (dt residual : R) : R * R * R :=
  let '(numInternalModelIterations, modelTimeStep, residual') :=
    if Rgt_dec dt MAX_TIME_STEP then
      let n := dt / MAX_TIME_STEP in
      (n, MAX_TIME_STEP, residual + (dt - n * MAX_TIME_STEP))
    else (1, dt, residual) in
  if Rgt_dec residual' modelTimeStep
  then (numInternalModelIterations + 1, modelTimeStep, residual' - modelTimeStep)
  else (numInternalModelIterations, modelTimeStep, residual').

(** [stepInternal]; [iteration modelTimeStep] is the body of its loop:
    [updateForces], [updateAtomMotion] unless the atoms are bonded, and
    [updateBondingState]. *)
Definition stepInternal {B : Type} (iteration : R -> B -> B) (dt : R)
    (m : DualAtomModel.Model (Internals B)) : DualAtomModel.Model (Internals B) :=
  let '(numInternalModelIterations, modelTimeStep, residual') :=
    planIterations dt (residualTime (DualAtomModel.atoms m)) in
  DualAtomModel.mkModel
    (DualAtomModel.isPlaying m) (DualAtomModel.speedIsNormal m)
    (mkInternals residual'
       (Nat.iter (passesBelow numInternalModelIterations)
                 (iteration modelTimeStep)
                 (pair (DualAtomModel.atoms m)))).

End DualAtomStepping.

(** ** MultipleParticleModel: heating and cooling *)

Module TemperatureControl.
Import MultipleParticleModel ModelControls.

Definition APPROACHING_ABSOLUTE_ZERO_TEMPERATURE (P : PhaseConstants) : R :=
  SOLID_TEMPERATURE P * 0.85.

(** [Math.pow( base, 1.35 )]: NaN, which is [None] here, for a negative
    base, and 0 for 0. *)
Definition pow_1_35 (base : R) : option R :=
  if Rlt_dec base 0 then None
  else if Req_dec_T base 0 then Some 0
  else Some (Rpower base 1.35).

(** The body of the loop of [dampUpwardMotion] for one velocity. *)
Definition dampMolecule (dt : R) (v : Vector2) : Vector2 :=
  if Rgt_dec (y v) 0 then mkVector2 (x v) (y v * (1 - dt * 0.9)) else v.

(** [for ( let i = ...; i < getNumberOfMolecules(); i++ )], with [k] passes
    left. *)
Fixpoint dampLoop (dt : R) (i k : nat) (moleculeVelocities : list Vector2)
  : option (list Vector2) :=
  match k with
  | O => Some moleculeVelocities
  | S k' =>
      v ← moleculeVelocities !! i;
      dampLoop dt (S i) k' (<[i := dampMolecule dt v]> moleculeVelocities)
  end.

(** [dampUpwardMotion], on the number of molecules and the velocities of the
    molecule data set. *)
Definition dampUpwardMotion (dt : R) (numberOfMolecules : nat)
    (moleculeVelocities : list Vector2) : option (list Vector2) :=
  dampLoop dt 0 numberOfMolecules moleculeVelocities.

Section SetPoint.
Context {E : Type}.

(** [this.getTemperatureInKelvin() === 0]; [null] is not 0. *)
Definition kelvinIsZero (K : SOMConstants) (m : Model E) : bool :=
  match getTemperatureInKelvin K m with
  | Some kelvin => if Req_dec_T kelvin 0 then true else false
  | None => false
  end.

(** The block [Adjust the temperature set point if needed] that ends
    [stepInternal], for the value [heatingCoolingAmount] of
    [heatingCoolingAmountProperty].  The call of [dampUpwardMotion] in it
    works on the molecule data set and leaves the set-point alone.  The two
    assignments of [targetTemperature] throw when a thermostat is [null]. *)
Definition adjustTemperatureSetPoint (P : PhaseConstants) (K : SOMConstants)
    (heatingCoolingAmount dt : R) (m : Model E) : option (Model E) :=
  let currentTemperature := temperatureSetPoint (thermal m) in
  if Req_dec_T heatingCoolingAmount 0 then Some m
  else
    newTemperature ←
      (if Rltb currentTemperature (APPROACHING_ABSOLUTE_ZERO_TEMPERATURE P)
          && Rltb heatingCoolingAmount 0
       then
         adjustmentFactor ←
           pow_1_35 (currentTemperature / APPROACHING_ABSOLUTE_ZERO_TEMPERATURE P);
         Some (currentTemperature
               + heatingCoolingAmount * TEMPERATURE_CHANGE_RATE * dt
                 * adjustmentFactor)
       else
         let temperatureChange :=
           heatingCoolingAmount * TEMPERATURE_CHANGE_RATE * dt in
         Some (Rmin (currentTemperature + temperatureChange) MAX_TEMPERATURE));
    let newTemperature' :=
      if Rleb heatingCoolingAmount 0 && kelvinIsZero K m
         && Rgtb newTemperature MIN_TEMPERATURE
      then MIN_TEMPERATURE else newTemperature in
    _ ← isoKineticThermostat (thermal m);
    _ ← andersenThermostat (thermal m);
    Some (set_thermal
            (mkThermal newTemperature' (minModelTemperature (thermal m))
                       (Some (mkThermostat newTemperature'))
                       (Some (mkThermostat newTemperature')))
            m).

End SetPoint.

End TemperatureControl.

(** ** The velocity update and the moving average over binary64

    The same code with every number a binary64 float and every operation
    rounded to nearest, ties to even, as JavaScript does it.  The operations
    are the kernel's, so a run of the code on given numbers is a
    computation. *)

Module Binary64.
Import PrimFloat.
Local Open Scope float_scope.

(** DOT/Vector2 *)
Record Vector2 : Type := mkVector2 { x : float; y : float }.

Definition magnitude (v : Vector2) : float := sqrt (x v * x v + y v * y v).

Definition multiplyScalar (v : Vector2) (s : float) : Vector2 :=
  mkVector2 (x v * s) (y v * s).

Definition setMagnitude (v : Vector2) (m : float) : Vector2 :=
  multiplyScalar v (m / magnitude v).

(** The rational number that a finite float stands for, to measure a result
    without rounding again; 0 for an infinity or NaN. *)
Definition exact (f : float) : QArith_base.Q :=
  match FloatOps.Prim2SF f with
  | SpecFloat.S754_finite s m e =>
      QArith_base.Qmult
        (QArith_base.inject_Z (if s then Z.neg m else Z.pos m))
        (QArith_base.Qpower (QArith_base.inject_Z 2) e)
  | _ => QArith_base.inject_Z 0
  end.

Definition exactMagnitudeSquared (v : Vector2) : QArith_base.Q :=
  QArith_base.Qplus (QArith_base.Qmult (exact (x v)) (exact (x v)))
                    (QArith_base.Qmult (exact (y v)) (exact (y v))).

(** The float that holds the count [n] (exact up to 2^53). *)
Fixpoint ofNat (n : nat) : float :=
  match n with
  | O => 0
  | S n' => ofNat n' + 1
  end.

(** *** MonatomicVerletAlgorithm.updateVelocitiesAndRotationRates *)

Record DataSet : Type := mkDataSet {
  numberOfAtoms : nat;
  moleculeVelocities : list Vector2;
  moleculeForces : list Vector2;
  nextMoleculeForces : list Vector2
}.

Record VelocityPass : Type := mkVelocityPass {
  atomVelocities : list Vector2;
  atomForces : list Vector2;
  totalKineticEnergy : float
}.

(** [if ( velocityVector.magnitude > 10 ) { velocityVector.setMagnitude( 10 ); }] *)
Definition capVelocity (velocityVector : Vector2) : Vector2 :=
  if ltb 10 (magnitude velocityVector)
  then setMagnitude velocityVector 10
  else velocityVector.

Definition velocityStep (timeStepHalf : float) (nextAtomForces : list Vector2)
    (i : nat) (st : VelocityPass) : option VelocityPass :=
  atomVelocity ← atomVelocities st !! i;
  moleculeForce ← atomForces st !! i;
  nextForce ← nextAtomForces !! i;
  let velocityVector :=
    capVelocity
      (mkVector2 (x atomVelocity + timeStepHalf * (x moleculeForce + x nextForce))
                 (y atomVelocity + timeStepHalf * (y moleculeForce + y nextForce))) in
  Some (mkVelocityPass
          (<[i := velocityVector]> (atomVelocities st))
          (<[i := mkVector2 (x nextForce) (y nextForce)]> (atomForces st))
          (totalKineticEnergy st
           + (x velocityVector * x velocityVector
              + y velocityVector * y velocityVector) / 2)).

Fixpoint velocityLoop (timeStepHalf : float) (nextAtomForces : list Vector2)
    (i k : nat) (st : VelocityPass) : option VelocityPass :=
  match k with
  | O => Some st
  | S k' =>
      st' ← velocityStep timeStepHalf nextAtomForces i st;
      velocityLoop timeStepHalf nextAtomForces (S i) k' st'
  end.

Definition updateVelocitiesAndRotationRates (minModelTemperature : float)
    (ds : DataSet) (timeStep : float) : option (DataSet * float) :=
  let n := numberOfAtoms ds in
  st ← velocityLoop (timeStep / 2) (nextMoleculeForces ds) 0 n
                    (mkVelocityPass (moleculeVelocities ds) (moleculeForces ds) 0);
  let calculatedTemperature :=
    match n with
    | O => minModelTemperature
    | S _ => (2 / 3) * (totalKineticEnergy st / ofNat n)
    end in
  Some (mkDataSet (numberOfAtoms ds) (atomVelocities st) (atomForces st)
                  (nextMoleculeForces ds),
        calculatedTemperature).

(** *** MovingAverage *)

Module MovingAverage.

Record t : Type := mk {
  size : nat;
  average : float;
  initialValue : float;
  array : list (option float);
  currentIndex : nat;
  total : float
}.

Fixpoint fill (initialValue : float) (i k : nat) (array : list (option float))
  : list (option float) :=
  match k with
  | O => array
  | S k' => fill initialValue (S i) k' (jsSet i initialValue array)
  end.

Definition reset (m : t) : t :=
  let total := initialValue m * ofNat (size m) in
  mk (size m) (total / ofNat (size m)) (initialValue m)
     (fill (initialValue m) 0 (size m) (array m)) 0 total.

Definition create (size : nat) (initialValue : float) : t :=
  reset (mk size 0 initialValue (replicate size None) 0 0).

(** As in the exact embedding, reading a slot that holds [undefined] or
    taking the remainder by a size of zero gives [None]. *)
Definition addValue (newValue : float) (m : t) : option t :=
  replacedValue ← mjoin (array m !! currentIndex m);
  if decide (size m = 0%nat) then None
  else
    let total := (total m - replacedValue) + newValue in
    Some (mk (size m) (total / ofNat (size m)) (initialValue m)
             (jsSet (currentIndex m) newValue (array m))
             ((currentIndex m + 1) mod size m)%nat total).

Fixpoint addValues (newValues : list float) (m : t) : option t :=
  match newValues with
  | [] => Some m
  | v :: rest => m' ← addValue v m; addValues rest m'
  end.

End MovingAverage.

(** One atom with velocity (2, 10) and no force on it. *)
Definition hasty : DataSet :=
  mkDataSet 1 [mkVector2 2 10] [mkVector2 0 0] [mkVector2 0 0].

End Binary64.

(** ** Sample inputs *)

Module Samples.

(** Two atoms ten units apart, and two atoms 1.5 units apart. *)
Definition farPair : Monatomic.DataSet :=
  Monatomic.mkDataSet 2 2
    [mkVector2 0 0; mkVector2 10 0]
    [mkVector2 0 0; mkVector2 0 0]
    [mkVector2 0 0; mkVector2 0 0]
    [mkVector2 0 (-0.045); mkVector2 0 (-0.045)].

Definition closePair : Monatomic.DataSet :=
  Monatomic.mkDataSet 2 2
    [mkVector2 0 0; mkVector2 1.5 0]
    [mkVector2 0 0; mkVector2 0 0]
    [mkVector2 0 0; mkVector2 0 0]
    [mkVector2 0 (-0.045); mkVector2 0 (-0.045)].

(** One atom moving at speed 50. *)
Definition runaway : Monatomic.DataSet :=
  Monatomic.mkDataSet 1 1
    [mkVector2 5 5] [mkVector2 30 40] [mkVector2 0 0] [mkVector2 0 0].

(** A container that is intact, warm, and has seen no pressure yet. *)
Definition intactModel : MultipleParticleModel.Model unit :=
  MultipleParticleModel.mkModel
    (MultipleParticleModel.mkContainer 10000 10000 10000 10000 10000 0 0)
    (MultipleParticleModel.mkInjection 0 0 false)
    (MultipleParticleModel.mkThermal 1 0.01 None None)
    false true MultipleParticleModel.NEON [mkVector2 0 0] 1 0 tt.

Definition quietAlgorithm : AbstractVerletAlgorithm.Algorithm (list (R * R)) :=
  AbstractVerletAlgorithm.mkAlgorithm 0 [] 0.

(** The lid of a playing, intact model has been pushed down to half height. *)
Definition loweredLid : MultipleParticleModel.Model unit :=
  MultipleParticleModel.mkModel
    (MultipleParticleModel.mkContainer 10000 5000 10000 10000 10000 0 0)
    (MultipleParticleModel.mkInjection 0 0 false)
    (MultipleParticleModel.mkThermal 1 0.01 None None)
    false true MultipleParticleModel.NEON [mkVector2 0 0] 1 0 tt.


(** A model with both thermostats in place, and values for [SOMConstants]. *)
Definition thermostatted : MultipleParticleModel.Model unit :=
  MultipleParticleModel.mkModel
    (MultipleParticleModel.mkContainer 10000 10000 10000 10000 10000 0 0)
    (MultipleParticleModel.mkInjection 0 0 false)
    (MultipleParticleModel.mkThermal 0.15 0.005
       (Some (MultipleParticleModel.mkThermostat 0.15))
       (Some (MultipleParticleModel.mkThermostat 0.15)))
    false true MultipleParticleModel.NEON [mkVector2 0 0] 1 0 tt.

Definition someConstants : MultipleParticleModel.SOMConstants :=
  MultipleParticleModel.mkSOMConstants 23 44 75 151 54 155 273 647
    0.26 0.8 0.25 0.8 0.26 0.8.

(** The same model, cooled to the floor of the set-point range. *)
Definition frozen : MultipleParticleModel.Model unit :=
  MultipleParticleModel.set_thermal
    (MultipleParticleModel.mkThermal 0.00001 0.005 None None) thermostatted.

(** An Andersen thermostat on a single molecule, with a silent random
    source, at a comfortable target and at absolute zero. *)
Definition slowMolecule : AndersenThermostat.DataSet :=
  AndersenThermostat.mkDataSet 1 1 1 [mkVector2 2 (-3)] [0].

Definition warmThermostat : AndersenThermostat.Thermostat :=
  AndersenThermostat.mkThermostat slowMolecule 0.15 0.005 (fun _ => 0) 0.

Definition coldThermostat : AndersenThermostat.Thermostat :=
  AndersenThermostat.mkThermostat slowMolecule 0.005 0.005 (fun _ => 0) 0.


(** A two-atom model that is playing at normal speed, with no time left
    over; its atoms are stood for by a counter. *)
Definition restingPair : DualAtomModel.Model (DualAtomStepping.Internals nat) :=
  DualAtomModel.mkModel true true (DualAtomStepping.mkInternals 0 0%nat).

(** Values for the phase temperatures and the largest epsilon. *)
Definition somePhases : ModelControls.PhaseConstants :=
  ModelControls.mkPhaseConstants 0.15 0.34 1 450.

(** The thermostatted model with its set-point on the triple point. *)
Definition atTriplePoint : MultipleParticleModel.Model unit :=
  MultipleParticleModel.set_thermal
    (MultipleParticleModel.mkThermal 0.26 0.005 None None) thermostatted.

(** An algorithm that bounces molecules 1.5 units from the walls, and one
    molecule in the lower left corner of the container, heading for it. *)
Definition bouncer : WallCollisions.Bouncer :=
  WallCollisions.mkBouncer 1.5 1.5 1.5 false.

Definition cornered : WallCollisions.MoleculeDataSet :=
  WallCollisions.mkMoleculeDataSet 1 1 1
    [mkVector2 1.5 1.5] [mkVector2 (-3) (-4)] [mkVector2 0 0]
    [Some true] [0] [0] [0].

End Samples.

(** * Properties *)

(** ** Sums over an array of vectors *)

Lemma sumX_insert (l : list Vector2) (i : nat) (u v : Vector2) :
  l !! i = Some u -> sumX (<[i := v]> l) = sumX l - x u + x v.
Proof.
  revert i; induction l as [|w l IH]; intros [|i] Hi; simplify_eq/=.
  - lra.
  - rewrite (IH i Hi). lra.
Qed.

Lemma sumY_insert (l : list Vector2) (i : nat) (u v : Vector2) :
  l !! i = Some u -> sumY (<[i := v]> l) = sumY l - y u + y v.
Proof.
  revert i; induction l as [|w l IH]; intros [|i] Hi; simplify_eq/=.
  - lra.
  - rewrite (IH i Hi). lra.
Qed.

(** ** MonatomicVerletAlgorithm.updateInteractionForces *)

Module MonatomicForces.
Import Monatomic.

Lemma distanceSqrd_floor (xi yi : R) (pj : Vector2) :
  MIN_DISTANCE_SQUARED <= distanceSqrd (separation xi yi pj).
Proof. unfold separation; simpl. apply Rmax_r. Qed.

Lemma distanceSqrd_nonzero (xi yi : R) (pj : Vector2) :
  distanceSqrd (separation xi yi pj) <> 0.
Proof.
  pose proof (distanceSqrd_floor xi yi pj) as Hfloor.
  unfold MIN_DISTANCE_SQUARED in Hfloor. lra.
Qed.

Lemma coincidentSpecialCase_idle (xi yi : R) (pj : Vector2) :
  coincidentSpecialCase (separation xi yi pj) = separation xi yi pj.
Proof.
  unfold coincidentSpecialCase.
  destruct (Req_dec_T _ 0) as [Hzero|_]; [|reflexivity].
  now apply distanceSqrd_nonzero in Hzero.
Qed.

(** C9: the squared distance is floored at [MIN_DISTANCE_SQUARED] = 0.90
    before it is tested against zero, so the test [distanceSqrd === 0] is
    false for every pair of positions, and the special case for coincident
    particles, which would set [dx = 1], [dy = 1], [distanceSqrd = 2], never
    replaces the working values. *)
Theorem zero_distance_branch_unreachable (xi yi : R) (pj : Vector2) :
  0.90 <= distanceSqrd (separation xi yi pj)
  /\ distanceSqrd (separation xi yi pj) <> 0
  /\ (exists Hne, Req_dec_T (distanceSqrd (separation xi yi pj)) 0 = right Hne)
  /\ coincidentSpecialCase (separation xi yi pj) = separation xi yi pj.
Proof.
  split; [apply distanceSqrd_floor|].
  split; [apply distanceSqrd_nonzero|].
  split; [|apply coincidentSpecialCase_idle].
  destruct (Req_dec_T _ 0) as [Hzero|Hne]; [|now exists Hne].
  exfalso. exact (distanceSqrd_nonzero xi yi pj Hzero).
Qed.

Lemma pairForce_far (epsilon xi yi : R) (pj : Vector2) :
  PARTICLE_INTERACTION_DISTANCE_THRESH_SQRD
    <= (xi - x pj) * (xi - x pj) + (yi - y pj) * (yi - y pj) ->
  pairForce epsilon (coincidentSpecialCase (separation xi yi pj)) = None.
Proof.
  intros Hfar.
  rewrite coincidentSpecialCase_idle.
  unfold pairForce, separation; simpl.
  pose proof (Rmax_l ((xi - x pj) * (xi - x pj) + (yi - y pj) * (yi - y pj))
                     MIN_DISTANCE_SQUARED).
  destruct (Rlt_dec _ _); [lra | reflexivity].
Qed.

Lemma pairStep_far (epsilon xi yi : R) (i j : nat)
    (positions next : list Vector2) (pj : Vector2) :
  positions !! j = Some pj ->
  PARTICLE_INTERACTION_DISTANCE_THRESH_SQRD
    <= (xi - x pj) * (xi - x pj) + (yi - y pj) * (yi - y pj) ->
  pairStep epsilon xi yi i j positions next = Some next.
Proof.
  intros Hj Hfar. unfold pairStep. rewrite Hj; simpl.
  now rewrite (pairForce_far epsilon xi yi pj Hfar).
Qed.

(** C5: when the squared distance between the centres of mass of molecules
    [i] and [j] is at least 6.25, no force is computed for the pair, and the
    pass of the inner loop for that pair returns the array of next-step
    forces as it found it: neither accumulator is changed on account of the
    pair. *)
Theorem far_pair_leaves_forces_alone (epsilon : R) (i j : nat)
    (positions next : list Vector2) (pi pj : Vector2) :
  positions !! i = Some pi ->
  positions !! j = Some pj ->
  6.25 <= (x pi - x pj) * (x pi - x pj) + (y pi - y pj) * (y pi - y pj) ->
  pairForce epsilon (coincidentSpecialCase (separation (x pi) (y pi) pj)) = None
  /\ pairStep epsilon (x pi) (y pi) i j positions next = Some next.
Proof.
  intros _ Hj Hfar. split.
  - now apply pairForce_far.
  - now apply (pairStep_far epsilon (x pi) (y pi) i j positions next pj).
Qed.

(** The whole pass over [Samples.farPair], two atoms ten units apart,
    changes nothing. *)
Lemma farPair_pass_is_idle (epsilon : R) :
  updateInteractionForces epsilon Samples.farPair = Some Samples.farPair.
Proof.
  unfold updateInteractionForces; simpl.
  rewrite (pairStep_far epsilon 0 0 0 1 _ _ (mkVector2 10 0));
    [reflexivity | reflexivity |].
  unfold PARTICLE_INTERACTION_DISTANCE_THRESH_SQRD; simpl. lra.
Qed.

Lemma far_pair_sample :
  pairForce 1 (coincidentSpecialCase (separation 0 0 (mkVector2 10 0))) = None
  /\ pairStep 1 0 0 0 1
       (moleculeCenterOfMassPositions Samples.farPair)
       (nextMoleculeForces Samples.farPair)
     = Some (nextMoleculeForces Samples.farPair).
Proof.
  apply (far_pair_leaves_forces_alone 1 0 1
           (moleculeCenterOfMassPositions Samples.farPair)
           (nextMoleculeForces Samples.farPair)
           (mkVector2 0 0) (mkVector2 10 0)).
  - reflexivity.
  - reflexivity.
  - simpl. lra.
Defined.

(** What one pass of the inner loop does to the two accumulators when the
    pair interacts: the force is added to molecule [i]'s and the same force
    is subtracted from molecule [j]'s. *)
Lemma pairStep_interacting (epsilon xi yi : R) (i j : nat)
    (positions next next' : list Vector2) (pj : Vector2) (forceX forceY : R) :
  i <> j ->
  positions !! j = Some pj ->
  pairForce epsilon (coincidentSpecialCase (separation xi yi pj))
    = Some (forceX, forceY) ->
  pairStep epsilon xi yi i j positions next = Some next' ->
  exists fi fj,
    next !! i = Some fi /\ next !! j = Some fj
    /\ next' !! i = Some (addXY fi forceX forceY)
    /\ next' !! j = Some (subtractXY fj forceX forceY)
    /\ forall k, k <> i -> k <> j -> next' !! k = next !! k.
Proof.
  intros Hij Hj Hforce. unfold pairStep. rewrite Hj; simpl. rewrite Hforce.
  destruct (next !! i) as [fi|] eqn:Hi; simpl; [|discriminate].
  rewrite list_lookup_insert_ne by exact Hij.
  destruct (next !! j) as [fj|] eqn:Hnj; simpl; [|discriminate].
  intros [= <-]. exists fi, fj.
  assert (i < length next)%nat by (apply lookup_lt_is_Some; eauto).
  assert (j < length next)%nat by (apply lookup_lt_is_Some; eauto).
  repeat split; try reflexivity.
  - rewrite list_lookup_insert_ne by congruence.
    apply list_lookup_insert_eq. lia.
  - apply list_lookup_insert_eq. rewrite length_insert. lia.
  - intros k Hki Hkj. rewrite !list_lookup_insert_ne by congruence. reflexivity.
Qed.

Lemma pairStep_sums (epsilon xi yi : R) (i j : nat)
    (positions next next' : list Vector2) :
  pairStep epsilon xi yi i j positions next = Some next' ->
  sumX next' = sumX next /\ sumY next' = sumY next.
Proof.
  unfold pairStep.
  destruct (positions !! j) as [pj|]; simpl; [|discriminate].
  destruct (pairForce _ _) as [[forceX forceY]|]; [|intros [= <-]; auto].
  destruct (next !! i) as [fi|] eqn:Hi; simpl; [|discriminate].
  destruct (<[i := addXY fi forceX forceY]> next !! j) as [fj|] eqn:Hnj;
    simpl; [|discriminate].
  intros [= <-].
  rewrite (sumX_insert _ _ _ _ Hnj), (sumY_insert _ _ _ _ Hnj).
  rewrite (sumX_insert _ _ _ _ Hi), (sumY_insert _ _ _ _ Hi).
  destruct (decide (i = j)) as [->|Hij].
  - rewrite list_lookup_insert_eq in Hnj
      by (apply lookup_lt_is_Some; eauto).
    injection Hnj as <-. simpl. split; lra.
  - rewrite list_lookup_insert_ne in Hnj by exact Hij.
    assert (Hx := sumX_insert next j fj (subtractXY fj forceX forceY) Hnj).
    simpl. split; lra.
Qed.

Lemma innerLoop_sums (epsilon xi yi : R) (i : nat) (positions : list Vector2)
    (k j : nat) (next next' : list Vector2) :
  innerLoop epsilon xi yi i j k positions next = Some next' ->
  sumX next' = sumX next /\ sumY next' = sumY next.
Proof.
  revert j next; induction k as [|k IH]; intros j next; simpl.
  - intros [= <-]; auto.
  - destruct (pairStep _ _ _ _ _ _ _) as [next1|] eqn:Hstep; simpl; [|discriminate].
    intros Hrest. apply pairStep_sums in Hstep as [Hx Hy].
    apply IH in Hrest as [-> ->]. auto.
Qed.

Lemma outerLoop_sums (epsilon : R) (n : nat) (positions : list Vector2)
    (k i : nat) (next next' : list Vector2) :
  outerLoop epsilon n i k positions next = Some next' ->
  sumX next' = sumX next /\ sumY next' = sumY next.
Proof.
  revert i next; induction k as [|k IH]; intros i next; simpl.
  - intros [= <-]; auto.
  - destruct (positions !! i) as [pi|]; simpl; [|discriminate].
    destruct (innerLoop _ _ _ _ _ _ _ _) as [next1|] eqn:Hinner; simpl;
      [|discriminate].
    intros Hrest. apply innerLoop_sums in Hinner as [Hx Hy].
    apply IH in Hrest as [-> ->]. auto.
Qed.

Lemma pairStep_total (epsilon xi yi : R) (i j : nat)
    (positions next : list Vector2) :
  (i < length next)%nat -> (j < length next)%nat -> (j < length positions)%nat ->
  exists next',
    pairStep epsilon xi yi i j positions next = Some next'
    /\ length next' = length next.
Proof.
  intros Hi Hj Hp. unfold pairStep.
  destruct (lookup_lt_is_Some_2 positions j Hp) as [pj ->]; simpl.
  destruct (pairForce _ _) as [[forceX forceY]|]; [|eauto].
  destruct (lookup_lt_is_Some_2 next i Hi) as [fi ->]; simpl.
  destruct (lookup_lt_is_Some_2 (<[i := addXY fi forceX forceY]> next) j)
    as [fj ->]; [rewrite length_insert; exact Hj|]; simpl.
  eexists; split; [reflexivity|]. now rewrite !length_insert.
Qed.

Lemma innerLoop_total (epsilon xi yi : R) (i : nat) (positions : list Vector2)
    (k j : nat) (next : list Vector2) :
  (i < length next)%nat ->
  (j + k <= length next)%nat -> (j + k <= length positions)%nat ->
  exists next',
    innerLoop epsilon xi yi i j k positions next = Some next'
    /\ length next' = length next.
Proof.
  revert j next; induction k as [|k IH]; intros j next Hi Hn Hp; simpl.
  - eauto.
  - destruct (pairStep_total epsilon xi yi i j positions next)
      as (next1 & -> & Hlen); try lia; simpl.
    destruct (IH (S j) next1) as (next' & -> & Hlen'); try lia.
    exists next'; split; [reflexivity | lia].
Qed.

Lemma outerLoop_total (epsilon : R) (n : nat) (positions : list Vector2)
    (k i : nat) (next : list Vector2) :
  (i + k <= n)%nat -> (n <= length next)%nat -> (n <= length positions)%nat ->
  exists next',
    outerLoop epsilon n i k positions next = Some next'
    /\ length next' = length next.
Proof.
  revert i next; induction k as [|k IH]; intros i next Hk Hn Hp; simpl.
  - eauto.
  - destruct (lookup_lt_is_Some_2 positions i) as [pi ->]; [lia|]; simpl.
    destruct (innerLoop_total epsilon (x pi) (y pi) i positions
                (n - S i) (S i) next) as (next1 & -> & Hlen); try lia; simpl.
    destruct (IH (S i) next1) as (next' & -> & Hlen'); try lia.
    exists next'; split; [reflexivity | lia].
Qed.

(** The pass runs to completion on every data set whose arrays have a slot
    for each molecule. *)
Lemma updateInteractionForces_total (epsilon : R) (ds : DataSet) :
  (numberOfMolecules ds <= length (moleculeCenterOfMassPositions ds))%nat ->
  (numberOfMolecules ds <= length (nextMoleculeForces ds))%nat ->
  exists ds', updateInteractionForces epsilon ds = Some ds'.
Proof.
  intros Hp Hn. unfold updateInteractionForces.
  destruct (outerLoop_total epsilon (numberOfMolecules ds)
              (moleculeCenterOfMassPositions ds) (numberOfMolecules ds) 0
              (nextMoleculeForces ds)) as (next' & -> & _); try lia.
  simpl; eauto.
Qed.

(** What one pass of the inner loop does to each accumulator. *)
Lemma pairStep_slots (epsilon : R) (positions : list Vector2) (pi : Vector2)
    (i j : nat) (next next1 : list Vector2) :
  positions !! i = Some pi -> i <> j ->
  pairStep epsilon (x pi) (y pi) i j positions next = Some next1 ->
  forall a f, next !! a = Some f ->
    exists f1,
      next1 !! a = Some f1
      /\ x f1 = x f
                + (if decide (a = i)
                   then x (pairContribution epsilon positions i j) else 0)
                - (if decide (a = j)
                   then x (pairContribution epsilon positions i j) else 0)
      /\ y f1 = y f
                + (if decide (a = i)
                   then y (pairContribution epsilon positions i j) else 0)
                - (if decide (a = j)
                   then y (pairContribution epsilon positions i j) else 0).
Proof.
  intros Hi Hij. unfold pairStep, pairContribution. rewrite Hi.
  destruct (positions !! j) as [pj|]; simpl; [|discriminate].
  destruct (pairForce _ _) as [[forceX forceY]|].
  - destruct (next !! i) as [fi|] eqn:Hfi; simpl; [|discriminate].
    rewrite list_lookup_insert_ne by exact Hij.
    destruct (next !! j) as [fj|] eqn:Hfj; simpl; [|discriminate].
    intros [= <-] a f Ha.
    assert (Hli : (i < length next)%nat) by (apply lookup_lt_is_Some; eauto).
    assert (Hlj : (j < length next)%nat) by (apply lookup_lt_is_Some; eauto).
    destruct (decide (a = i)) as [Hai|Hai]; destruct (decide (a = j)) as [Haj|Haj];
      try congruence; subst.
    + exists (addXY fi forceX forceY).
      rewrite list_lookup_insert_ne by congruence.
      rewrite list_lookup_insert_eq by lia.
      rewrite Hfi in Ha. injection Ha as <-.
      split; [reflexivity|]. simpl. split; lra.
    + exists (subtractXY fj forceX forceY).
      rewrite list_lookup_insert_eq by (rewrite length_insert; lia).
      rewrite Hfj in Ha. injection Ha as <-.
      split; [reflexivity|]. simpl. split; lra.
    + exists f. rewrite !list_lookup_insert_ne by congruence.
      split; [exact Ha|]. split; lra.
  - intros [= <-] a f Ha. exists f. split; [exact Ha|]. simpl.
    destruct (decide (a = i)); destruct (decide (a = j)); split; lra.
Qed.

(** After the inner loop for molecule [i] over [j, j + k): molecule [i] has
    gained every contribution of the range, and each molecule of the range has
    lost its own. *)
Lemma innerLoop_slots (epsilon : R) (positions : list Vector2) (pi : Vector2)
    (i k j : nat) (next next' : list Vector2) :
  positions !! i = Some pi -> (i < j)%nat ->
  innerLoop epsilon (x pi) (y pi) i j k positions next = Some next' ->
  forall a f, next !! a = Some f ->
    exists f',
      next' !! a = Some f'
      /\ x f' = x f
                + (if decide (a = i)
                   then rangeSum (fun t => x (pairContribution epsilon positions i t)) j k
                   else 0)
                - (if decide (j <= a < j + k)%nat
                   then x (pairContribution epsilon positions i a) else 0)
      /\ y f' = y f
                + (if decide (a = i)
                   then rangeSum (fun t => y (pairContribution epsilon positions i t)) j k
                   else 0)
                - (if decide (j <= a < j + k)%nat
                   then y (pairContribution epsilon positions i a) else 0).
Proof.
  intros Hi. revert j next. induction k as [|k IH]; intros j next Hij;
    cbn [innerLoop rangeSum].
  - intros [= <-] a f Ha. exists f. split; [exact Ha|].
    repeat case_decide; try lia; split; lra.
  - destruct (pairStep _ _ _ _ _ _ _) as [next1|] eqn:Hstep; simpl;
      [|discriminate].
    intros Hrest a f Ha.
    assert (Hne : i <> j) by lia.
    destruct (pairStep_slots _ _ _ _ _ _ _ Hi Hne Hstep a f Ha)
      as (f1 & Ha1 & Hx1 & Hy1).
    assert (Hlt : (i < S j)%nat) by lia.
    destruct (IH (S j) next1 Hlt Hrest a f1 Ha1) as (f' & Ha' & Hx' & Hy').
    exists f'. split; [exact Ha'|]. rewrite Hx', Hy', Hx1, Hy1.
    repeat case_decide; try lia; subst; split; lra.
Qed.

(** After the outer loop over the molecules [i, i + k) of [n]: each of them
    has gained what its own inner loop added, and every molecule below [n] has
    lost its contributions with the molecules of the range that come before
    it. *)
Lemma outerLoop_slots (epsilon : R) (n : nat) (positions : list Vector2)
    (k i : nat) (next next' : list Vector2) :
  (i + k <= n)%nat ->
  outerLoop epsilon n i k positions next = Some next' ->
  forall a f, next !! a = Some f ->
    exists f',
      next' !! a = Some f'
      /\ x f' = x f
                + (if decide (i <= a < i + k)%nat
                   then addedTo x epsilon positions n a else 0)
                - (if decide (a < n)%nat
                   then rangeSum (fun r => x (pairContribution epsilon positions r a))
                                 i (Nat.min k (a - i))
                   else 0)
      /\ y f' = y f
                + (if decide (i <= a < i + k)%nat
                   then addedTo y epsilon positions n a else 0)
                - (if decide (a < n)%nat
                   then rangeSum (fun r => y (pairContribution epsilon positions r a))
                                 i (Nat.min k (a - i))
                   else 0).
Proof.
  revert i next. induction k as [|k IH]; intros i next Hk Hloop a f Ha;
    cbn [outerLoop] in Hloop.
  - injection Hloop as <-. exists f. split; [exact Ha|].
    replace (Nat.min 0 (a - i)) with 0%nat by lia.
    repeat case_decide; try lia; cbn [rangeSum]; split; lra.
  - destruct (positions !! i) as [pi|] eqn:Hi; simpl in Hloop; [|discriminate].
    destruct (innerLoop _ _ _ _ _ _ _ _) as [next1|] eqn:Hinner; simpl in Hloop;
      [|discriminate].
    rename Hloop into Hrest.
    assert (Hlt : (i < S i)%nat) by lia.
    destruct (innerLoop_slots _ _ _ _ _ _ _ _ Hi Hlt Hinner a f Ha)
      as (f1 & Ha1 & Hx1 & Hy1).
    assert (Hk' : (S i + k <= n)%nat) by lia.
    destruct (IH (S i) next1 Hk' Hrest a f1 Ha1) as (f' & Ha' & Hx' & Hy').
    exists f'. split; [exact Ha'|]. rewrite Hx', Hy', Hx1, Hy1.
    unfold addedTo.
    destruct (decide (a <= i)%nat) as [Hle|Hgt].
    + replace (Nat.min (S k) (a - i)) with 0%nat by lia.
      replace (Nat.min k (a - S i)) with 0%nat by lia.
      repeat case_decide; try lia; subst; cbn [rangeSum]; split; lra.
    + replace (Nat.min (S k) (a - i)) with (S (Nat.min k (a - S i))) by lia.
      repeat case_decide; try lia; subst; cbn [rangeSum]; split; lra.
Qed.

(** C1: Newton's third law.  On a data set with a slot for every molecule
    the pass runs to completion and touches nothing but the next-step forces.
    The force of every pair [(i, j)], [i < j], is added to the accumulator of
    molecule [i] and the same force is subtracted from the accumulator of
    molecule [j]: after the pass the accumulator of molecule [a] holds what it
    held before, plus the forces of the pairs [(a, j)], minus the forces of
    the pairs [(i, a)]; slots past the last molecule are as they were.  So the
    contributions cancel: summed over all molecules, the next-step forces
    after the pass differ from those before it by exactly zero, in each
    coordinate. *)
Theorem pairwise_contributions_cancel (epsilon : R) (ds : DataSet) :
  (numberOfMolecules ds <= length (moleculeCenterOfMassPositions ds))%nat ->
  (numberOfMolecules ds <= length (nextMoleculeForces ds))%nat ->
  exists ds',
    updateInteractionForces epsilon ds = Some ds'
    /\ ds' = set_nextMoleculeForces (nextMoleculeForces ds') ds
    /\ (forall a, (a < numberOfMolecules ds)%nat ->
          exists f f',
            nextMoleculeForces ds !! a = Some f
            /\ nextMoleculeForces ds' !! a = Some f'
            /\ x f' = x f
                      + addedTo x epsilon (moleculeCenterOfMassPositions ds)
                                (numberOfMolecules ds) a
                      - subtractedFrom x epsilon
                                       (moleculeCenterOfMassPositions ds) a
            /\ y f' = y f
                      + addedTo y epsilon (moleculeCenterOfMassPositions ds)
                                (numberOfMolecules ds) a
                      - subtractedFrom y epsilon
                                       (moleculeCenterOfMassPositions ds) a)
    /\ (forall a, (numberOfMolecules ds <= a)%nat ->
          nextMoleculeForces ds' !! a = nextMoleculeForces ds !! a)
    /\ sumX (nextMoleculeForces ds') - sumX (nextMoleculeForces ds) = 0
    /\ sumY (nextMoleculeForces ds') - sumY (nextMoleculeForces ds) = 0.
Proof.
  intros Hp Hn. unfold updateInteractionForces.
  destruct (outerLoop_total epsilon (numberOfMolecules ds)
              (moleculeCenterOfMassPositions ds) (numberOfMolecules ds) 0
              (nextMoleculeForces ds)) as (next' & Hloop & Hlen); try lia.
  rewrite Hloop. cbn [mbind option_bind].
  eexists. split; [reflexivity|]. cbn [nextMoleculeForces set_nextMoleculeForces].
  split; [reflexivity|].
  assert (Hbound : (0 + numberOfMolecules ds <= numberOfMolecules ds)%nat) by lia.
  pose proof (outerLoop_slots _ _ _ _ _ _ _ Hbound Hloop) as Hslots.
  split; [|split].
  - intros a Ha.
    destruct (lookup_lt_is_Some_2 (nextMoleculeForces ds) a) as [f Hf]; [lia|].
    destruct (Hslots a f Hf) as (f' & Hf' & Hx & Hy).
    exists f, f'. split; [exact Hf|]. split; [exact Hf'|].
    rewrite Hx, Hy. unfold subtractedFrom.
    replace (Nat.min (numberOfMolecules ds) (a - 0)) with a by lia.
    repeat case_decide; try lia; split; lra.
  - intros a Ha. destruct (nextMoleculeForces ds !! a) as [f|] eqn:Hf.
    + destruct (Hslots a f Hf) as (f' & Hf' & Hx & Hy). rewrite Hf'.
      repeat case_decide; try lia.
      destruct f as [fx fy], f' as [fx' fy']; simpl in Hx, Hy.
      f_equal. f_equal; lra.
    + apply lookup_ge_None. rewrite Hlen. now apply lookup_ge_None.
  - apply outerLoop_sums in Hloop as [Hx Hy]. split; lra.
Qed.

(** The two atoms of [Samples.closePair] do interact. *)
Lemma closePair_interacts :
  exists forceX forceY,
    pairForce 1 (coincidentSpecialCase (separation 0 0 (mkVector2 1.5 0)))
      = Some (forceX, forceY)
    /\ forceX > 0.
Proof.
  rewrite coincidentSpecialCase_idle.
  unfold pairForce, separation; simpl.
  replace (Rmax ((0 - 1.5) * (0 - 1.5) + (0 - 0) * (0 - 0)) MIN_DISTANCE_SQUARED)
    with 2.25
    by (unfold MIN_DISTANCE_SQUARED, Rmax; destruct (Rle_dec _ _); lra).
  destruct (Rlt_dec _ _) as [_|Hn];
    [|unfold PARTICLE_INTERACTION_DISTANCE_THRESH_SQRD in Hn; lra].
  do 2 eexists; split; [reflexivity|].
  assert (H : 0 < 1 / 2.25 < 1 / 2) by (split; lra).
  set (r := 1 / 2.25) in *.
  assert (Hr2 : 0 < r * r < 1 / 4) by nra.
  assert (Hr3 : 0 < r * r * r < 1 / 2) by nra.
  set (r6 := r * r * r) in *.
  assert (Hq : 0 < r * r6) by (apply Rmult_lt_0_compat; lra).
  set (q := r * r6) in *.
  assert (Hs : q * (r6 - 0.5) < 0) by nra.
  replace (48 * r * r6 * (r6 - 0.5) * 1)
    with (48 * (q * (r6 - 0.5))) by (unfold q; ring).
  lra.
Qed.

Lemma pairwise_contributions_cancel_sample :
  exists ds' f0 f1,
    updateInteractionForces 1 Samples.closePair = Some ds'
    /\ nextMoleculeForces ds' !! 0%nat = Some f0
    /\ nextMoleculeForces ds' !! 1%nat = Some f1
    /\ 0 < x f0
    /\ x f1 = - x f0
    /\ sumX (nextMoleculeForces ds') - sumX (nextMoleculeForces Samples.closePair) = 0
    /\ sumY (nextMoleculeForces ds') - sumY (nextMoleculeForces Samples.closePair) = 0.
Proof.
  assert (Hp : (numberOfMolecules Samples.closePair
                <= length (moleculeCenterOfMassPositions Samples.closePair))%nat)
    by (simpl; lia).
  assert (Hn : (numberOfMolecules Samples.closePair
                <= length (nextMoleculeForces Samples.closePair))%nat)
    by (simpl; lia).
  destruct (pairwise_contributions_cancel 1 Samples.closePair Hp Hn)
    as (ds' & Hrun & _ & Hslots & _ & Hx & Hy).
  assert (H0 : (0 < numberOfMolecules Samples.closePair)%nat) by (simpl; lia).
  assert (H1 : (1 < numberOfMolecules Samples.closePair)%nat) by (simpl; lia).
  destruct (Hslots 0%nat H0) as (g0 & f0 & Hg0 & Hf0 & Hx0 & _).
  destruct (Hslots 1%nat H1) as (g1 & f1 & Hg1 & Hf1 & Hx1 & _).
  exists ds', f0, f1. split; [exact Hrun|].
  split; [exact Hf0|]. split; [exact Hf1|].
  injection Hg0 as <-. injection Hg1 as <-.
  assert (Hforce : exists forceX forceY,
            pairContribution 1 (moleculeCenterOfMassPositions Samples.closePair) 0 1
            = mkVector2 forceX forceY /\ forceX > 0).
  { destruct closePair_interacts as (forceX & forceY & Hforce & Hpos).
    exists forceX, forceY. split; [|exact Hpos].
    unfold pairContribution.
    change (moleculeCenterOfMassPositions Samples.closePair !! 0%nat)
      with (Some (mkVector2 0 0)).
    change (moleculeCenterOfMassPositions Samples.closePair !! 1%nat)
      with (Some (mkVector2 1.5 0)).
    cbn [x y]. rewrite Hforce. reflexivity. }
  destruct Hforce as (forceX & forceY & Hforce & Hpos).
  unfold addedTo, subtractedFrom in Hx0, Hx1.
  cbn [numberOfMolecules Samples.closePair Nat.sub rangeSum] in Hx0, Hx1.
  rewrite Hforce in Hx0, Hx1. cbn [x] in Hx0, Hx1.
  split; [lra|]. split; [lra|]. split; [exact Hx | exact Hy].
Defined.

End MonatomicForces.

(** ** MonatomicVerletAlgorithm.updateVelocitiesAndRotationRates *)

Module MonatomicVelocities.
Import Monatomic.

Lemma magnitude_nonneg (v : Vector2) : 0 <= magnitude v.
Proof. apply sqrt_pos. Qed.

Lemma magnitude_setMagnitude (v : Vector2) (m : R) :
  0 < magnitude v -> 0 <= m -> magnitude (setMagnitude v m) = m.
Proof.
  intros Hv Hm. unfold setMagnitude, multiplyScalar, magnitude in *; simpl.
  set (s := x v * x v + y v * y v) in *.
  set (k := m / sqrt s).
  assert (Hk : 0 <= k) by (apply Rmult_le_pos; [lra | left; now apply Rinv_0_lt_compat]).
  assert (Hs : 0 <= s) by (unfold s; nra).
  replace (x v * k * (x v * k) + y v * k * (y v * k)) with (s * (k * k))
    by (unfold s; ring).
  rewrite sqrt_mult_alt by exact Hs.
  rewrite sqrt_square by exact Hk.
  unfold k. field. lra.
Qed.

Lemma capVelocity_bounded (v : Vector2) : magnitude (capVelocity v) <= 10.
Proof.
  unfold capVelocity. destruct (Rgt_dec (magnitude v) 10) as [Hbig|Hsmall].
  - rewrite magnitude_setMagnitude; lra.
  - lra.
Qed.

Lemma velocityLoop_total (h : R) (next : list Vector2) (k i : nat)
    (st : VelocityPass) :
  (i + k <= length (atomVelocities st))%nat ->
  (i + k <= length (atomForces st))%nat ->
  (i + k <= length next)%nat ->
  exists st', velocityLoop h next i k st = Some st'.
Proof.
  revert i st; induction k as [|k IH]; intros i st Hv Hf Hn; simpl.
  - eauto.
  - unfold velocityStep.
    destruct (lookup_lt_is_Some_2 (atomVelocities st) i) as [a ->]; [lia|].
    destruct (lookup_lt_is_Some_2 (atomForces st) i) as [f ->]; [lia|].
    destruct (lookup_lt_is_Some_2 next i) as [nf ->]; [lia|]. simpl.
    apply IH; simpl; rewrite ?length_insert; lia.
Qed.

(** The update runs to completion on every data set whose arrays have a
    slot for each atom. *)
Lemma updateVelocitiesAndRotationRates_total (minModelTemperature : R)
    (ds : DataSet) (timeStep : R) :
  (numberOfAtoms ds <= length (moleculeVelocities ds))%nat ->
  (numberOfAtoms ds <= length (moleculeForces ds))%nat ->
  (numberOfAtoms ds <= length (nextMoleculeForces ds))%nat ->
  exists ds' calculatedTemperature,
    updateVelocitiesAndRotationRates minModelTemperature ds timeStep
    = Some (ds', calculatedTemperature).
Proof.
  intros Hv Hf Hn. unfold updateVelocitiesAndRotationRates.
  destruct (velocityLoop_total (timeStep / 2) (nextMoleculeForces ds)
              (numberOfAtoms ds) 0
              (mkVelocityPass (moleculeVelocities ds) (moleculeForces ds) 0))
    as [st ->]; simpl; eauto.
Qed.

(** What one pass of the loop writes for atom [i]. *)
Lemma velocityStep_slots (h : R) (next : list Vector2) (i : nat)
    (st st' : VelocityPass) :
  velocityStep h next i st = Some st' ->
  exists v f nf,
    atomVelocities st !! i = Some v
    /\ atomForces st !! i = Some f
    /\ next !! i = Some nf
    /\ atomVelocities st'
       = <[i := capVelocity (mkVector2 (x v + h * (x f + x nf))
                                       (y v + h * (y f + y nf)))]>
           (atomVelocities st)
    /\ atomForces st' = <[i := mkVector2 (x nf) (y nf)]> (atomForces st).
Proof.
  unfold velocityStep.
  destruct (atomVelocities st !! i) as [v|]; simpl; [|discriminate].
  destruct (atomForces st !! i) as [f|]; simpl; [|discriminate].
  destruct (next !! i) as [nf|]; simpl; [|discriminate].
  intros [= <-]; simpl. exists v, f, nf. auto.
Qed.

(** The loop writes, for every atom from [i] to [i + k - 1], the capped
    velocity-Verlet value computed from the velocity and the force the atom
    had on entry. *)
Lemma velocityLoop_slots (h : R) (next : list Vector2) (k i : nat)
    (st st' : VelocityPass) :
  velocityLoop h next i k st = Some st' ->
  (forall a, (a < i)%nat -> atomVelocities st' !! a = atomVelocities st !! a)
  /\ (forall a, (i <= a < i + k)%nat ->
        exists v f nf,
          atomVelocities st !! a = Some v
          /\ atomForces st !! a = Some f
          /\ next !! a = Some nf
          /\ atomVelocities st' !! a
             = Some (capVelocity (mkVector2 (x v + h * (x f + x nf))
                                            (y v + h * (y f + y nf))))).
Proof.
  revert i st; induction k as [|k IH]; intros i st; cbn [velocityLoop].
  - intros [= <-]. split; [reflexivity | intros; lia].
  - destruct (velocityStep h next i st) as [st1|] eqn:Hstep; simpl; [|discriminate].
    intros Hrest. destruct (IH _ _ Hrest) as [Hbelow Hrange].
    destruct (velocityStep_slots _ _ _ _ _ Hstep)
      as (v & f & nf & Hv & Hf & Hnf & Hvel & Hfor).
    assert (Hlen : (i < length (atomVelocities st))%nat)
      by (apply lookup_lt_is_Some; eauto).
    split.
    + intros a Ha. rewrite Hbelow by lia. rewrite Hvel.
      apply list_lookup_insert_ne; lia.
    + intros a Ha. destruct (decide (a = i)) as [->|Hne].
      * exists v, f, nf. split; [exact Hv|]. split; [exact Hf|].
        split; [exact Hnf|]. rewrite Hbelow by lia. rewrite Hvel.
        now apply list_lookup_insert_eq.
      * destruct (Hrange a) as (v' & f' & nf' & Hv' & Hf' & Hnf' & Hout); [lia|].
        rewrite Hvel in Hv'. rewrite Hfor in Hf'.
        rewrite list_lookup_insert_ne in Hv' by lia.
        rewrite list_lookup_insert_ne in Hf' by lia.
        exists v', f', nf'. auto.
Qed.

(** C6, as amended: over exact arithmetic.  On a monatomic data set (a
    molecule is an atom, [numberOfMolecules = numberOfAtoms]) with a slot for
    every atom, [updateVelocitiesAndRotationRates] runs to completion and
    leaves every molecule a velocity: the velocity-Verlet value itself when
    its magnitude is at most 10, and otherwise that value rescaled by
    [10 / magnitude], whose magnitude is exactly 10.  So every velocity has
    magnitude at most 10 when numbers are exact.  In binary64 the rescaled
    velocity can come out just above 10; see
    [Binary64Facts.velocity_cap_overshoots_in_binary64]. *)
Theorem velocities_capped_at_10 (minModelTemperature timeStep : R)
    (ds : DataSet) :
  numberOfMolecules ds = numberOfAtoms ds ->
  (numberOfAtoms ds <= length (moleculeVelocities ds))%nat ->
  (numberOfAtoms ds <= length (moleculeForces ds))%nat ->
  (numberOfAtoms ds <= length (nextMoleculeForces ds))%nat ->
  exists ds' calculatedTemperature,
    updateVelocitiesAndRotationRates minModelTemperature ds timeStep
    = Some (ds', calculatedTemperature)
    /\ forall i, (i < numberOfMolecules ds)%nat ->
         exists v f nf v',
           moleculeVelocities ds !! i = Some v
           /\ moleculeForces ds !! i = Some f
           /\ nextMoleculeForces ds !! i = Some nf
           /\ moleculeVelocities ds' !! i = Some v'
           /\ let verlet :=
                mkVector2 (x v + timeStep / 2 * (x f + x nf))
                          (y v + timeStep / 2 * (y f + y nf)) in
              magnitude v' <= 10
              /\ (magnitude verlet <= 10 -> v' = verlet)
              /\ (10 < magnitude verlet ->
                  v' = multiplyScalar verlet (10 / magnitude verlet)
                  /\ magnitude v' = 10).
Proof.
  intros Hmono Hv Hf Hn.
  destruct (updateVelocitiesAndRotationRates_total minModelTemperature ds
              timeStep Hv Hf Hn) as (ds' & temp & Hrun).
  exists ds', temp. split; [exact Hrun|].
  unfold updateVelocitiesAndRotationRates in Hrun.
  destruct (velocityLoop _ _ _ _ _) as [st|] eqn:Hloop; simpl in Hrun;
    [|discriminate].
  injection Hrun as <- _. cbn [moleculeVelocities].
  destruct (velocityLoop_slots _ _ _ _ _ _ Hloop) as [_ Hrange].
  intros i Hi.
  destruct (Hrange i) as (v & f & nf & Hvi & Hfi & Hnfi & Hout); [lia|].
  cbn [atomVelocities atomForces] in Hvi, Hfi.
  exists v, f, nf. eexists.
  split; [exact Hvi|]. split; [exact Hfi|]. split; [exact Hnfi|].
  split; [exact Hout|]. cbv zeta.
  split; [apply capVelocity_bounded|].
  unfold capVelocity. destruct (Rgt_dec _ 10) as [Hbig|Hsmall].
  - split; [intros; lra|]. intros _. split; [reflexivity|].
    apply magnitude_setMagnitude; lra.
  - split; [reflexivity | intros; lra].
Qed.

Lemma velocities_capped_at_10_sample :
  exists ds' calculatedTemperature v',
    updateVelocitiesAndRotationRates 0.01 Samples.runaway 0.005
    = Some (ds', calculatedTemperature)
    /\ moleculeVelocities ds' !! 0%nat = Some v'
    /\ magnitude v' <= 10.
Proof.
  assert (Hv : (numberOfAtoms Samples.runaway
                <= length (moleculeVelocities Samples.runaway))%nat)
    by (simpl; lia).
  assert (Hf : (numberOfAtoms Samples.runaway
                <= length (moleculeForces Samples.runaway))%nat)
    by (simpl; lia).
  assert (Hn : (numberOfAtoms Samples.runaway
                <= length (nextMoleculeForces Samples.runaway))%nat)
    by (simpl; lia).
  destruct (velocities_capped_at_10 0.01 0.005 Samples.runaway eq_refl Hv Hf Hn)
    as (ds' & temp & Hrun & Hall).
  assert (H0 : (0 < numberOfMolecules Samples.runaway)%nat) by (simpl; lia).
  destruct (Hall 0%nat H0) as (v & f & nf & v' & _ & _ & _ & Hv' & Hcap & _).
  exists ds', temp, v'. split; [exact Hrun|]. split; [exact Hv' | exact Hcap].
Defined.

(** On [Samples.runaway] the cap does bite: the speed of 50 becomes 10. *)
Lemma runaway_is_slowed :
  capVelocity (mkVector2 30 40) = mkVector2 6 8.
Proof.
  assert (Hm : magnitude (mkVector2 30 40) = 50).
  { unfold magnitude; simpl. replace (30 * 30 + 40 * 40) with (50 * 50) by lra.
    apply sqrt_square; lra. }
  unfold capVelocity. rewrite Hm.
  destruct (Rgt_dec 50 10); [|lra].
  unfold setMagnitude, multiplyScalar. rewrite Hm. simpl. f_equal; lra.
Qed.

End MonatomicVelocities.

(** ** AbstractVerletAlgorithm.updatePressure *)

Module PressureExplosion.
Import MultipleParticleModel AbstractVerletAlgorithm.

Section Timer.
Context {Q E : Type} `{TimeSpanDataQueue Q}.

Implicit Types (s : Algorithm Q * Model E) (calls : list (R * R)).

Lemma setContainerExploded_true (m : Model E) :
  isExploded (setContainerExploded true m) = true.
Proof.
  unfold setContainerExploded.
  destruct (decide (isExploded m = true)) as [He|Hne]; [exact He | reflexivity].
Qed.

(** Once the container has exploded, [updatePressure] leaves the model and
    the timer as they are. *)
Lemma updatePressure_exploded (p dt : R) s :
  isExploded (snd s) = true ->
  snd (updatePressure p dt s) = snd s
  /\ timeAboveExplosionPressure (fst (updatePressure p dt s))
     = timeAboveExplosionPressure (fst s).
Proof.
  destruct s as [a m]; simpl. intros Hm. rewrite Hm. simpl. auto.
Qed.

Lemma updatePressureRun_exploded calls s :
  isExploded (snd s) = true ->
  isExploded (snd (updatePressureRun calls s)) = true.
Proof.
  revert s; induction calls as [|[p dt] rest IH]; intros s Hs; simpl; [exact Hs|].
  apply IH. destruct (updatePressure_exploded p dt s Hs) as [-> _]. exact Hs.
Qed.

(** One call that finds the container intact and the pressure above the
    threshold: the timer advances by [dt], and the container explodes exactly
    when the timer passes [EXPLOSION_TIME]. *)
Lemma updatePressure_above (p dt : R) s :
  isExploded (snd s) = false ->
  newPressure p dt (fst s) (snd s) > EXPLOSION_PRESSURE ->
  timeAboveExplosionPressure (fst (updatePressure p dt s))
    = timeAboveExplosionPressure (fst s) + dt
  /\ isExploded (snd (updatePressure p dt s))
     = (if Rgt_dec (timeAboveExplosionPressure (fst s) + dt) EXPLOSION_TIME
        then true else false).
Proof.
  destruct s as [a m]; simpl. intros Hm Habove. rewrite Hm.
  destruct (Rgt_dec (newPressure p dt a m) EXPLOSION_PRESSURE); [|contradiction].
  destruct (Rgt_dec _ EXPLOSION_TIME); simpl.
  - split; [reflexivity | apply setContainerExploded_true].
  - split; [reflexivity | exact Hm].
Qed.

(** One call that finds the container intact and the pressure at or below
    the threshold: the timer goes back to zero and the container stays
    intact. *)
Lemma updatePressure_at_or_below (p dt : R) s :
  isExploded (snd s) = false ->
  newPressure p dt (fst s) (snd s) <= EXPLOSION_PRESSURE ->
  timeAboveExplosionPressure (fst (updatePressure p dt s)) = 0
  /\ isExploded (snd (updatePressure p dt s)) = false
  /\ pressureProperty (fst (updatePressure p dt s)) = newPressure p dt (fst s) (snd s).
Proof.
  destruct s as [a m]; simpl. intros Hm Hbelow. rewrite Hm.
  destruct (Rgt_dec (newPressure p dt a m) EXPLOSION_PRESSURE); [lra|].
  simpl. auto.
Qed.

Lemma sustained_pressure_explodes calls s :
  (isExploded (snd s) = false ->
   timeAboveExplosionPressure (fst s) <= EXPLOSION_TIME) ->
  staysAbove calls s ->
  timeAboveExplosionPressure (fst s) + elapsed calls > EXPLOSION_TIME ->
  isExploded (snd (updatePressureRun calls s)) = true.
Proof.
  revert s; induction calls as [|[p dt] rest IH]; intros s Hinv Hstay Hlong.
  - unfold elapsed in Hlong; simpl in *.
    destruct (isExploded (snd s)) eqn:Hs; [reflexivity|].
    specialize (Hinv eq_refl). lra.
  - destruct (isExploded (snd s)) eqn:Hs.
    + now apply updatePressureRun_exploded.
    + simpl in Hstay. destruct Hstay as [Habove Hrest].
      destruct (updatePressure_above p dt s Hs (Habove Hs)) as [Ht He].
      simpl. apply IH; [| exact Hrest |].
      * rewrite He, Ht. destruct (Rgt_dec _ EXPLOSION_TIME); [discriminate|].
        intros _. lra.
      * rewrite Ht. unfold elapsed in *; simpl in *. lra.
Qed.

Lemma brief_pressure_is_survived calls s :
  isExploded (snd s) = false ->
  Forall (fun c => 0 <= snd c) calls ->
  staysAbove calls s ->
  timeAboveExplosionPressure (fst s) + elapsed calls <= EXPLOSION_TIME ->
  isExploded (snd (updatePressureRun calls s)) = false
  /\ timeAboveExplosionPressure (fst (updatePressureRun calls s))
     = timeAboveExplosionPressure (fst s) + elapsed calls.
Proof.
  revert s; induction calls as [|[p dt] rest IH]; intros s Hs Hpos Hstay Hshort.
  - unfold elapsed; simpl. split; [exact Hs | lra].
  - simpl in Hstay. destruct Hstay as [Habove Hrest].
    apply Forall_cons in Hpos as [Hdt Hpos]. simpl in Hdt.
    assert (Hrestpos : 0 <= elapsed rest).
    { clear -Hpos. induction Hpos as [|c l Hc _ IHl]; unfold elapsed in *; simpl; lra. }
    destruct (updatePressure_above p dt s Hs (Habove Hs)) as [Ht He].
    assert (Hsum : elapsed ((p, dt) :: rest) = dt + elapsed rest) by reflexivity.
    destruct (Rgt_dec _ EXPLOSION_TIME) as [Hover|_] in He; [lra|].
    simpl. destruct (IH _ He Hpos Hrest) as [-> ->]; [rewrite Ht; lra|].
    split; [reflexivity | rewrite Ht; lra].
Qed.

(** C2: take a run of calls that starts with the container intact and the
    timer at zero, and in which the pressure over the time window is above 41
    at every call.  If the run covers more than 1 simulated second, the
    container has exploded by its end.  If it covers at most 1 second, the
    container is still intact at its end, and a call that then finds the
    pressure at 41 or below puts the timer back to zero and leaves the
    container intact. *)
Theorem explosion_needs_a_sustained_second calls s :
  isExploded (snd s) = false ->
  timeAboveExplosionPressure (fst s) = 0 ->
  staysAbove calls s ->
  (elapsed calls > 1 -> isExploded (snd (updatePressureRun calls s)) = true)
  /\ (Forall (fun c => 0 <= snd c) calls ->
      elapsed calls <= 1 ->
      isExploded (snd (updatePressureRun calls s)) = false
      /\ forall p dt,
           newPressure p dt (fst (updatePressureRun calls s))
                       (snd (updatePressureRun calls s)) <= 41 ->
           timeAboveExplosionPressure
             (fst (updatePressure p dt (updatePressureRun calls s))) = 0
           /\ isExploded
                (snd (updatePressure p dt (updatePressureRun calls s))) = false).
Proof.
  intros Hs Ht Hstay. split.
  - intros Hlong. apply sustained_pressure_explodes; [| exact Hstay |].
    + intros _. rewrite Ht. unfold EXPLOSION_TIME. lra.
    + rewrite Ht. unfold EXPLOSION_TIME. lra.
  - intros Hpos Hshort.
    destruct (brief_pressure_is_survived calls s Hs Hpos Hstay) as [Hintact _].
    { rewrite Ht. unfold EXPLOSION_TIME. lra. }
    split; [exact Hintact|].
    intros p dt Hbelow.
    destruct (updatePressure_at_or_below p dt _ Hintact Hbelow) as (? & ? & _).
    auto.
Qed.

End Timer.

End PressureExplosion.

Module PressureSample.
Import MultipleParticleModel AbstractVerletAlgorithm PressureExplosion.

Ltac pressure_constants :=
  unfold PRESSURE_CALC_TIME_WINDOW, EXPLOSION_PRESSURE, EXPLOSION_TIME, Rmax in *.

Ltac run_updatePressure :=
  unfold updatePressure, newPressure, accumulate, effectivePressure;
  Reval_with pressure_constants.

(** Six tenths of a second of heavy pounding on the walls of
    [Samples.intactModel], once and twice. *)
Lemma pounding_once :
  updatePressure 600 0.6 (Samples.quietAlgorithm, Samples.intactModel)
  = (mkAlgorithm 50 [(600, 0.6)] 0.6, Samples.intactModel).
Proof. unfold Samples.quietAlgorithm. run_updatePressure. repeat f_equal; lra. Qed.

Lemma pounding_twice :
  updatePressure 600 0.6 (mkAlgorithm 50 [(600, 0.6)] 0.6, Samples.intactModel)
  = (mkAlgorithm 0 [(600, 0.6); (600, 0.6)] 1.2,
     set_isExploded true Samples.intactModel).
Proof. run_updatePressure. repeat f_equal; lra. Qed.

Lemma pressure_once :
  newPressure 600 0.6 Samples.quietAlgorithm Samples.intactModel = 50.
Proof. unfold Samples.quietAlgorithm. run_updatePressure. lra. Qed.

Lemma pressure_twice :
  newPressure 600 0.6 (mkAlgorithm 50 [(600, 0.6)] 0.6) Samples.intactModel = 100.
Proof. run_updatePressure. lra. Qed.

(** Twelve quiet seconds push the pounding out of the time window. *)
Lemma pressure_after_pause :
  newPressure 0 12 (mkAlgorithm 50 [(600, 0.6)] 0.6) Samples.intactModel = 0.
Proof. run_updatePressure. lra. Qed.

Lemma explosion_needs_a_sustained_second_sample :
  isExploded
    (snd (updatePressureRun [(600, 0.6); (600, 0.6)]
            (Samples.quietAlgorithm, Samples.intactModel))) = true
  /\ isExploded
       (snd (updatePressureRun [(600, 0.6)]
               (Samples.quietAlgorithm, Samples.intactModel))) = false
  /\ timeAboveExplosionPressure
       (fst (updatePressure 0 12
               (updatePressureRun [(600, 0.6)]
                  (Samples.quietAlgorithm, Samples.intactModel)))) = 0.
Proof.
  split; [|split].
  - apply (explosion_needs_a_sustained_second
             [(600, 0.6); (600, 0.6)]
             (Samples.quietAlgorithm, Samples.intactModel)).
    + reflexivity.
    + reflexivity.
    + cbn [staysAbove fst snd]. rewrite pounding_once. cbn [fst snd].
      rewrite pressure_once, pressure_twice. unfold EXPLOSION_PRESSURE.
      repeat split; intros _; lra.
    + unfold elapsed; simpl. lra.
  - apply (explosion_needs_a_sustained_second
             [(600, 0.6)] (Samples.quietAlgorithm, Samples.intactModel)).
    + reflexivity.
    + reflexivity.
    + cbn [staysAbove fst snd]. rewrite pressure_once. unfold EXPLOSION_PRESSURE.
      repeat split; intros _; lra.
    + repeat constructor; simpl; lra.
    + unfold elapsed; simpl. lra.
  - apply (explosion_needs_a_sustained_second
             [(600, 0.6)] (Samples.quietAlgorithm, Samples.intactModel)).
    + reflexivity.
    + reflexivity.
    + cbn [staysAbove fst snd]. rewrite pressure_once. unfold EXPLOSION_PRESSURE.
      repeat split; intros _; lra.
    + repeat constructor; simpl; lra.
    + unfold elapsed; simpl. lra.
    + cbn [updatePressureRun]. rewrite pounding_once. cbn [fst snd].
      rewrite pressure_after_pause. lra.
Defined.

End PressureSample.

(** ** MultipleParticleModel: stepping *)

Module Stepping.
Import MultipleParticleModel.

Section AnyStrategies.
Context {E : Type} `{Strategies E}.

Lemma injectIfReady_container (dt : R) (m : Model E) :
  container (injectIfReady dt m) = container m.
Proof.
  unfold injectIfReady.
  repeat match goal with
         | |- context [decide ?P] => destruct (decide P)
         | |- context [Req_dec_T ?a ?b] => destruct (Req_dec_T a b)
         | |- context [Rgt_dec ?a ?b] => destruct (Rgt_dec a b)
         end; simpl; auto using injectMoleculeInternal_container.
Qed.

Lemma runParticleEngine_container (n : nat) (ts : R) (m : Model E) :
  container (runParticleEngine n ts m) = container m.
Proof.
  revert m; induction n as [|n IH]; intros m; simpl; [reflexivity|].
  rewrite IH. apply updateForcesAndMotion_container.
Qed.

(** The container [stepInternal] leaves behind is the one its first block
    computes. *)
Lemma stepInternal_container (dt : R) (m : Model E) :
  container (stepInternal dt m) = container (adjustContainerHeight dt m).
Proof.
  unfold stepInternal.
  destruct (planEngineSteps _ _) as [[n ts] residual'].
  rewrite afterParticleEngine_container, runParticleEngine_container,
    injectIfReady_container.
  simpl. unfold adjustContainerHeight; simpl.
  repeat match goal with
         | |- context [if ?b then _ else _] => destruct b
         end; reflexivity.
Qed.

End AnyStrategies.

(** C3, at [dt = 2]: a playing model whose lid is on its way down is not left
    alone by [step].  Whatever the strategy objects do, the container height
    goes from 10000 to 7500, the 1250 units per second that
    [MAX_CONTAINER_SHRINK_RATE] allows for two seconds. *)
Theorem step_runs_for_two_seconds (S : Strategies unit) :
  2 > 1
  /\ particleContainerHeight (container Samples.loweredLid) = 10000
  /\ particleContainerHeight (container (step 2 Samples.loweredLid)) = 7500
  /\ step 2 Samples.loweredLid <> Samples.loweredLid.
Proof.
  assert (Hafter :
            particleContainerHeight (container (step 2 Samples.loweredLid)) = 7500).
  { unfold step; simpl. rewrite stepInternal_container.
    unfold adjustContainerHeight; simpl.
    Reval_with ltac:(unfold MAX_CONTAINER_SHRINK_RATE,
                     MIN_ALLOWABLE_CONTAINER_HEIGHT, Rmax in * ).
    lra. }
  repeat split; [lra | exact Hafter |].
  intros Hsame. rewrite Hsame in Hafter. simpl in Hafter. lra.
Qed.

(** The sibling model does drop such a step: [DualAtomModel.step] returns the
    model as it is whenever the time step exceeds one second. *)
Lemma DualAtomModel_step_dropped {A : Type}
    (stepInternal : R -> DualAtomModel.Model A -> DualAtomModel.Model A)
    (simulationTimeStep : R) (m : DualAtomModel.Model A) :
  simulationTimeStep > 1 ->
  DualAtomModel.step stepInternal simulationTimeStep m = m.
Proof.
  intros Hlong. unfold DualAtomModel.step.
  destruct (Rgt_dec simulationTimeStep 1.0); [reflexivity | lra].
Qed.

End Stepping.

(** ** MultipleParticleModel: temperature *)

Module Temperature.
Import MultipleParticleModel.

Section AnyModel.
Context {E : Type}.

Lemma clampTemperature_range (t : R) :
  MIN_TEMPERATURE <= clampTemperature t <= MAX_TEMPERATURE.
Proof.
  unfold clampTemperature, MIN_TEMPERATURE, MAX_TEMPERATURE.
  destruct (Rgt_dec _ _); [lra|]. destruct (Rlt_dec _ _); lra.
Qed.

(** C8: [setTemperature] clamps the set-point into
    [[MIN_TEMPERATURE, MAX_TEMPERATURE]] = [[0.00001, 50]] (50 above the
    range, 0.00001 below it, the argument itself inside it), while each
    thermostat that exists is handed the argument as it came.  A thermostat
    target therefore lies outside the range whenever the argument does. *)
Theorem setTemperature_clamps_only_the_set_point (t : R) (m : Model E) :
  let m' := setTemperature t m in
  let setPoint := temperatureSetPoint (thermal m') in
  (0.00001 <= setPoint <= 50)
  /\ (t > 50 -> setPoint = 50)
  /\ (t < 0.00001 -> setPoint = 0.00001)
  /\ (0.00001 <= t <= 50 -> setPoint = t)
  /\ isoKineticThermostat (thermal m')
     = (fun _ => mkThermostat t) <$> isoKineticThermostat (thermal m)
  /\ andersenThermostat (thermal m')
     = (fun _ => mkThermostat t) <$> andersenThermostat (thermal m)
  /\ (forall th,
        (isoKineticThermostat (thermal m') = Some th
         \/ andersenThermostat (thermal m') = Some th) ->
        ~ (0.00001 <= t <= 50) ->
        ~ (0.00001 <= targetTemperature th <= 50)).
Proof.
  simpl. pose proof (clampTemperature_range t) as Hrange.
  unfold MIN_TEMPERATURE, MAX_TEMPERATURE in Hrange.
  assert (Hclamp : (t > 50 -> clampTemperature t = 50)
                   /\ (t < 0.00001 -> clampTemperature t = 0.00001)
                   /\ (0.00001 <= t <= 50 -> clampTemperature t = t)).
  { unfold clampTemperature, MIN_TEMPERATURE, MAX_TEMPERATURE.
    destruct (Rgt_dec _ _); [|destruct (Rlt_dec _ _)];
      (split; [|split]); intros; lra. }
  destruct Hclamp as (Hhigh & Hlow & Hmid).
  split; [lra|].
  split; [exact Hhigh|].
  split; [exact Hlow|].
  split; [exact Hmid|].
  split; [destruct (isoKineticThermostat (thermal m)); reflexivity|].
  split; [destruct (andersenThermostat (thermal m)); reflexivity|].
  intros th Hth Hout.
  assert (targetTemperature th = t) as ->; [|exact Hout].
  destruct Hth as [Hth|Hth]; simpl in Hth;
    [destruct (isoKineticThermostat (thermal m))
    |destruct (andersenThermostat (thermal m))];
    simpl in Hth; [injection Hth as <- | discriminate
                  | injection Hth as <- | discriminate]; reflexivity.
Qed.

Lemma getTemperatureInKelvin_null (K : SOMConstants) (m : Model E) :
  getTemperatureInKelvin K m = None <-> particles m = [].
Proof.
  unfold getTemperatureInKelvin.
  destruct (decide (length (particles m) = 0%nat)) as [Hlen|Hlen].
  - split; [intros _; now apply nil_length_inv | reflexivity].
  - destruct (conversionPoints K (substance m)) as [[[tk ck] tm] cm].
    split; [discriminate | intros Hnil; rewrite Hnil in Hlen; now destruct Hlen].
Qed.

(** C10: [getTemperatureInKelvin] returns [null] exactly when there are no
    particles.  With particles, a set-point at or below
    [minModelTemperature] gives exactly 0, and a set-point above it but below
    the triple point of the substance gives a value that is at least 0.5. *)
Theorem getTemperatureInKelvin_floor (K : SOMConstants) (m : Model E) :
  (getTemperatureInKelvin K m = None <-> particles m = [])
  /\ (particles m <> [] ->
      temperatureSetPoint (thermal m) <= minModelTemperature (thermal m) ->
      getTemperatureInKelvin K m = Some 0)
  /\ (particles m <> [] ->
      minModelTemperature (thermal m) < temperatureSetPoint (thermal m) ->
      temperatureSetPoint (thermal m) < triplePointInModelUnits K (substance m) ->
      exists kelvin,
        getTemperatureInKelvin K m = Some kelvin /\ 0.5 <= kelvin).
Proof.
  split; [apply getTemperatureInKelvin_null|].
  unfold getTemperatureInKelvin, triplePointInModelUnits.
  destruct (conversionPoints K (substance m)) as [[[tk ck] tm] cm]; simpl.
  split.
  - intros Hsome Hcold.
    destruct (decide _) as [Hlen|_]; [now apply nil_length_inv in Hlen|].
    destruct (Rle_dec _ _); [reflexivity | lra].
  - intros Hsome Hwarm Hsolid.
    destruct (decide _) as [Hlen|_]; [now apply nil_length_inv in Hlen|].
    destruct (Rle_dec _ _); [lra|].
    destruct (Rlt_dec _ tm); [|lra].
    destruct (Rlt_dec _ 0.5); eexists; (split; [reflexivity | lra]).
Qed.

End AnyModel.

Lemma setTemperature_sample :
  temperatureSetPoint (thermal (setTemperature 60 Samples.thermostatted)) = 50
  /\ temperatureSetPoint (thermal (setTemperature (-1) Samples.thermostatted))
     = 0.00001
  /\ temperatureSetPoint (thermal (setTemperature 0.34 Samples.thermostatted))
     = 0.34
  /\ ~ (0.00001 <= targetTemperature (mkThermostat 60) <= 50).
Proof.
  destruct (setTemperature_clamps_only_the_set_point 60 Samples.thermostatted)
    as (_ & Hhigh & _ & _ & Hiso & _ & Hout).
  destruct (setTemperature_clamps_only_the_set_point (-1) Samples.thermostatted)
    as (_ & _ & Hlow & _).
  destruct (setTemperature_clamps_only_the_set_point 0.34 Samples.thermostatted)
    as (_ & _ & _ & Hmid & _).
  split; [apply Hhigh; lra|].
  split; [apply Hlow; lra|].
  split; [apply Hmid; lra|].
  apply Hout; [left; exact Hiso | lra].
Defined.

(** On [Samples.thermostatted] a request for 60 leaves the set-point at 50
    and both thermostat targets at 60. *)
Lemma setTemperature_targets_escape :
  let m' := setTemperature 60 Samples.thermostatted in
  temperatureSetPoint (thermal m') = 50
  /\ isoKineticThermostat (thermal m') = Some (mkThermostat 60)
  /\ andersenThermostat (thermal m') = Some (mkThermostat 60).
Proof.
  simpl. repeat split. unfold clampTemperature, MAX_TEMPERATURE.
  destruct (Rgt_dec _ _); lra.
Qed.

Lemma getTemperatureInKelvin_sample :
  getTemperatureInKelvin Samples.someConstants Samples.frozen = Some 0
  /\ exists kelvin,
       getTemperatureInKelvin Samples.someConstants Samples.thermostatted
       = Some kelvin
       /\ 0.5 <= kelvin.
Proof.
  destruct (getTemperatureInKelvin_floor Samples.someConstants Samples.frozen)
    as (_ & Hzero & _).
  destruct (getTemperatureInKelvin_floor Samples.someConstants
              Samples.thermostatted) as (_ & _ & Hfloor).
  split.
  - apply Hzero; [discriminate | simpl; lra].
  - apply Hfloor; [discriminate | simpl; lra |].
    unfold triplePointInModelUnits; simpl; lra.
Defined.

End Temperature.

(** ** AndersenThermostat.adjustTemperature *)

Module AndersenDamping.
Import AndersenThermostat.

Lemma adjustLoop_velocities (g : Damping) (vs rs : R) (random : nat -> R)
    (k i c : nat) (velocities velocities' : list Vector2) (rates rates' : list R) :
  adjustLoop g vs rs random i c k velocities rates = Some (velocities', rates') ->
  (forall a, (a < i)%nat -> velocities' !! a = velocities !! a)
  /\ (forall a v, (i <= a < i + k)%nat -> velocities !! a = Some v ->
        velocities' !! a = Some (damped g vs random c (a - i) v)).
Proof.
  revert i c velocities rates; induction k as [|k IH];
    intros i c velocities rates; simpl.
  - intros [= <- <-]. split; [reflexivity | intros; lia].
  - unfold adjustMolecule.
    destruct (velocities !! i) as [vi|] eqn:Hvi; simpl; [|discriminate].
    destruct (rates !! i) as [wi|]; simpl; [|discriminate].
    intros Hrest. destruct (IH _ _ _ _ Hrest) as [Hbelow Hrange].
    assert (Hlen : (i < length velocities)%nat) by (apply lookup_lt_is_Some; eauto).
    split.
    + intros a Ha. rewrite Hbelow by lia. apply list_lookup_insert_ne; lia.
    + intros a v Ha Hv. destruct (decide (a = i)) as [->|Hne].
      * rewrite Hbelow by lia. rewrite list_lookup_insert_eq by exact Hlen.
        rewrite Hvi in Hv. injection Hv as <-.
        unfold damped. replace (i - i)%nat with 0%nat by lia.
        replace (c + 3 * 0)%nat with c by lia. reflexivity.
      * rewrite (Hrange a v); [| lia |].
        -- unfold damped.
           replace (S (S (S c)) + 3 * (a - S i))%nat
             with (c + 3 * (a - i))%nat by lia.
           reflexivity.
        -- rewrite list_lookup_insert_ne by lia. exact Hv.
Qed.

Lemma adjustLoop_total (g : Damping) (vs rs : R) (random : nat -> R)
    (k i c : nat) (velocities : list Vector2) (rates : list R) :
  (i + k <= length velocities)%nat -> (i + k <= length rates)%nat ->
  exists r, adjustLoop g vs rs random i c k velocities rates = Some r.
Proof.
  revert i c velocities rates; induction k as [|k IH];
    intros i c velocities rates Hv Hr; simpl.
  - eauto.
  - unfold adjustMolecule.
    destruct (lookup_lt_is_Some_2 velocities i) as [v ->]; [lia|].
    destruct (lookup_lt_is_Some_2 rates i) as [w ->]; [lia|]. simpl.
    apply IH; rewrite length_insert; lia.
Qed.

Lemma adjustTemperature_total (t : Thermostat) :
  (numberOfMolecules (moleculeDataSet t)
   <= length (moleculeVelocities (moleculeDataSet t)))%nat ->
  (numberOfMolecules (moleculeDataSet t)
   <= length (moleculeRotationRates (moleculeDataSet t)))%nat ->
  exists t', adjustTemperature t = Some t'.
Proof.
  intros Hv Hr. unfold adjustTemperature.
  edestruct adjustLoop_total as [[velocities rates] ->];
    [exact Hv | exact Hr |]. simpl. eauto.
Qed.

(** C4, as amended: on a data set with a slot for every molecule the call
    runs to completion, and it multiplies the velocity of each molecule by
    [gammaX] in X and by [gammaY] in Y before the random kick is added.  When
    the target temperature is above the minimum temperature both coefficients
    are 0.9999, and the two axes are damped alike.  When it is at or below the
    minimum temperature, [gammaX] is 0.992 and [gammaY] is 0.999: only then
    is the Y coefficient the one closer to 1, so that the damping along Y is
    the weaker of the two. *)
Theorem andersen_damping_coefficients (t : Thermostat) :
  (numberOfMolecules (moleculeDataSet t)
   <= length (moleculeVelocities (moleculeDataSet t)))%nat ->
  (numberOfMolecules (moleculeDataSet t)
   <= length (moleculeRotationRates (moleculeDataSet t)))%nat ->
  exists t',
    adjustTemperature t = Some t'
    /\ let g := damping (targetTemperature t) (minModelTemperature t) in
       let scale :=
         sqrt (temperature g * (1 / moleculeMass (moleculeDataSet t))
               * (1 - gammaX g ^ 2)) in
       (forall i, (i < numberOfMolecules (moleculeDataSet t))%nat ->
          exists v,
            moleculeVelocities (moleculeDataSet t) !! i = Some v
            /\ moleculeVelocities (moleculeDataSet t') !! i
               = Some (mkVector2
                         (x v * gammaX g + random t (drawn t + 3 * i)%nat * scale)
                         (y v * gammaY g
                          + random t (S (drawn t + 3 * i)) * scale)))
       /\ (targetTemperature t > minModelTemperature t ->
           gammaX g = 0.9999 /\ gammaY g = 0.9999)
       /\ (targetTemperature t <= minModelTemperature t ->
           gammaX g = 0.992 /\ gammaY g = 0.999
           /\ 1 - gammaY g < 1 - gammaX g).
Proof.
  intros Hv Hr.
  destruct (adjustTemperature_total t Hv Hr) as [t' Hrun].
  exists t'. split; [exact Hrun|]. intros g scale. split; [|split].
  - unfold adjustTemperature in Hrun.
    destruct (adjustLoop _ _ _ _ _ _ _ _ _) as [[velocities rates]|] eqn:Hloop;
      simpl in Hrun; [|discriminate].
    injection Hrun as <-. simpl.
    destruct (adjustLoop_velocities _ _ _ _ _ _ _ _ _ _ _ Hloop) as [_ Hrange].
    intros i Hi.
    destruct (lookup_lt_is_Some_2 (moleculeVelocities (moleculeDataSet t)) i)
      as [v Hvi]; [lia|].
    exists v. split; [exact Hvi|].
    rewrite (Hrange i v); [| lia | exact Hvi].
    unfold damped. replace (i - 0)%nat with i by lia. reflexivity.
  - intros Hwarm. unfold g, damping.
    destruct (Rle_dec _ _); [lra | simpl; auto].
  - intros Hcold. unfold g, damping.
    destruct (Rle_dec _ _); [simpl | lra].
    repeat split; lra.
Qed.

Lemma andersen_damping_coefficients_sample :
  exists t',
    adjustTemperature Samples.coldThermostat = Some t'
    /\ moleculeVelocities (moleculeDataSet t') !! 0%nat
       = Some (mkVector2 (2 * 0.992 + 0 * sqrt (0 * (1 / 1) * (1 - 0.992 ^ 2)))
                         (-3 * 0.999 + 0 * sqrt (0 * (1 / 1) * (1 - 0.992 ^ 2)))).
Proof.
  assert (Hv : (numberOfMolecules (moleculeDataSet Samples.coldThermostat)
                <= length (moleculeVelocities
                             (moleculeDataSet Samples.coldThermostat)))%nat)
    by (simpl; lia).
  assert (Hr : (numberOfMolecules (moleculeDataSet Samples.coldThermostat)
                <= length (moleculeRotationRates
                             (moleculeDataSet Samples.coldThermostat)))%nat)
    by (simpl; lia).
  destruct (andersen_damping_coefficients Samples.coldThermostat Hv Hr)
    as (t' & Hrun & Hvel & _ & Hcold).
  exists t'. split; [exact Hrun|].
  assert (H0 : (0 < numberOfMolecules (moleculeDataSet Samples.coldThermostat))%nat)
    by (simpl; lia).
  destruct (Hvel 0%nat H0) as (v & Hv0 & Hv0').
  injection Hv0 as <-. rewrite Hv0'.
  destruct Hcold as (HgX & HgY & _); [simpl; lra|].
  rewrite HgX, HgY. simpl.
  unfold damping; simpl. destruct (Rle_dec 0.005 0.005); [reflexivity | lra].
Defined.

(** C4 as first stated fails on a warm call: with the target temperature at
    0.15 above a minimum of 0.005 the call damps both axes by the same
    coefficient 0.9999, so the Y coefficient is not closer to 1 than the X
    coefficient, and neither is near 0.992. *)
Lemma warm_call_damps_both_axes_alike :
  exists t',
    adjustTemperature Samples.warmThermostat = Some t'
    /\ moleculeVelocities (moleculeDataSet t') !! 0%nat
       = Some (mkVector2 (2 * 0.9999 + 0 * sqrt (0.15 * (1 / 1) * (1 - 0.9999 ^ 2)))
                         (-3 * 0.9999 + 0 * sqrt (0.15 * (1 / 1) * (1 - 0.9999 ^ 2))))
    /\ gammaX (damping (targetTemperature Samples.warmThermostat)
                       (minModelTemperature Samples.warmThermostat))
       = gammaY (damping (targetTemperature Samples.warmThermostat)
                         (minModelTemperature Samples.warmThermostat))
    /\ ~ (1 - gammaY (damping (targetTemperature Samples.warmThermostat)
                              (minModelTemperature Samples.warmThermostat))
          < 1 - gammaX (damping (targetTemperature Samples.warmThermostat)
                                (minModelTemperature Samples.warmThermostat))).
Proof.
  assert (Hg : damping (targetTemperature Samples.warmThermostat)
                       (minModelTemperature Samples.warmThermostat)
               = mkDamping 0.9999 0.9999 0.15).
  { unfold damping; simpl. destruct (Rle_dec 0.15 0.005); [lra | reflexivity]. }
  destruct (adjustTemperature_total Samples.warmThermostat) as [t' Hrun];
    [simpl; lia | simpl; lia |].
  exists t'. split; [exact Hrun|]. rewrite Hg. cbn [gammaX gammaY].
  split; [|split; [reflexivity | lra]].
  unfold adjustTemperature in Hrun. rewrite Hg in Hrun.
  destruct (adjustLoop _ _ _ _ _ _ _ _ _) as [[velocities rates]|] eqn:Hloop;
    simpl in Hrun; [|discriminate].
  injection Hrun as <-. cbn [moleculeDataSet moleculeVelocities].
  destruct (adjustLoop_velocities _ _ _ _ _ _ _ _ _ _ _ Hloop) as [_ Hrange].
  rewrite (Hrange 0%nat (mkVector2 2 (-3))); [| simpl; lia | reflexivity].
  reflexivity.
Qed.

End AndersenDamping.

(** ** DiatomicPhaseStateChanger.setPhase *)

Module DiatomicSettling.
Import DiatomicPhaseStateChanger.

Section AnyModel.
Context {M : Type} `{Collaborators M}.

Lemma settle_log (k : nat) (r : Run) :
  snd (settle k r) = snd r ++ replicate k CallModelStep.
Proof.
  revert r; induction k as [|k IH]; intros r; simpl.
  - now rewrite app_nil_r.
  - rewrite IH. simpl. now rewrite <- app_assoc.
Qed.

Lemma settle_state (k : nat) (r : Run) :
  fst (settle k r) = Nat.iter k modelStep (fst r).
Proof.
  revert r; induction k as [|k IH]; intros r; [reflexivity|].
  cbn [settle]. rewrite IH. cbn [perform fst]. symmetry. apply Nat.iter_succ_r.
Qed.

Lemma filter_steps_replicate (k : nat) :
  filter (fun c => c = CallModelStep) (replicate k CallModelStep)
  = replicate k CallModelStep.
Proof.
  induction k as [|k IH]; [reflexivity|]. cbn [replicate].
  rewrite filter_cons_True by reflexivity. now rewrite IH.
Qed.

Lemma filter_steps_fresh (log : list Call) :
  CallModelStep ∉ log -> filter (fun c => c = CallModelStep) log = [].
Proof.
  induction log as [|c log IH]; intros Hfresh; [reflexivity|].
  rewrite filter_cons_False by (intros ->; apply Hfresh; left).
  apply IH. intros Hin. apply Hfresh. now right.
Qed.

Lemma stepCalls_app (log : list Call) (k : nat) (m : M) :
  CallModelStep ∉ log ->
  stepCalls (m, log ++ replicate k CallModelStep) = k.
Proof.
  intros Hfresh. unfold stepCalls; cbn [snd].
  rewrite filter_app, filter_steps_fresh, filter_steps_replicate by exact Hfresh.
  cbn [app]. apply length_replicate.
Qed.

(** The calls of one execution of [setPhase], in order. *)
Lemma setPhase_log (phaseID : PhaseID) (m : M) :
  snd (setPhase phaseID m)
  = match phaseID with
    | PHASE_SOLID => [CallSetPhaseSolid; CallUpdateAtomPositions]
    | PHASE_LIQUID =>
        [CallSetPhaseLiquid; CallUpdateAtomPositions]
        ++ replicate 200 CallModelStep
    | PHASE_GAS => [CallSetPhaseGas; CallUpdateAtomPositions]
    | PHASE_UNLISTED => [CallUpdateAtomPositions]
    end.
Proof.
  unfold setPhase. destruct phaseID; cbn [placeMolecules]; rewrite settle_log;
    cbn [perform fst snd app replicate]; reflexivity.
Qed.

(** C7: [setPhase] places the molecules first and then invokes the model's
    step function exactly 200 times for the liquid phase and not at all for
    the solid phase and the gas phase. *)
Theorem setPhase_settling_steps (m : M) :
  stepCalls (setPhase PHASE_LIQUID m) = 200%nat
  /\ stepCalls (setPhase PHASE_SOLID m) = 0%nat
  /\ stepCalls (setPhase PHASE_GAS m) = 0%nat
  /\ snd (setPhase PHASE_LIQUID m)
     = [CallSetPhaseLiquid; CallUpdateAtomPositions]
       ++ replicate 200 CallModelStep
  /\ fst (setPhase PHASE_LIQUID m)
     = Nat.iter 200 modelStep
         (updateAtomPositions (markAllSafe (setPhaseLiquid m)))
  /\ setPhase PHASE_SOLID m
     = (updateAtomPositions (markAllSafe (setPhaseSolid m)),
        [CallSetPhaseSolid; CallUpdateAtomPositions])
  /\ setPhase PHASE_GAS m
     = (updateAtomPositions (markAllSafe (setPhaseGas m)),
        [CallSetPhaseGas; CallUpdateAtomPositions]).
Proof.
  assert (Hliquid : snd (setPhase PHASE_LIQUID m)
                    = [CallSetPhaseLiquid; CallUpdateAtomPositions]
                      ++ replicate 200 CallModelStep)
    by apply (setPhase_log PHASE_LIQUID).
  split; [|split; [|split; [|split; [|split; [|split]]]]].
  - unfold stepCalls. rewrite Hliquid.
    apply (stepCalls_app [CallSetPhaseLiquid; CallUpdateAtomPositions] 200 m).
    intros Hin. repeat (apply elem_of_cons in Hin as [Hin|Hin]; [discriminate|]).
    now apply elem_of_nil in Hin.
  - reflexivity.
  - reflexivity.
  - exact Hliquid.
  - unfold setPhase. cbn [placeMolecules]. now rewrite settle_state.
  - reflexivity.
  - reflexivity.
Qed.

End AnyModel.

End DiatomicSettling.

(** ** MonatomicVerletAlgorithm: a whole time step *)

Module MonatomicStepFacts.
Import Monatomic MonatomicStep.

Lemma sumX_app (l k : list Vector2) : sumX (l ++ k) = sumX l + sumX k.
Proof. induction l as [|v l IH]; simpl; [lra | rewrite IH; lra]. Qed.

Lemma sumY_app (l k : list Vector2) : sumY (l ++ k) = sumY l + sumY k.
Proof. induction l as [|v l IH]; simpl; [lra | rewrite IH; lra]. Qed.

Lemma sumX_replicate (k : nat) (v : Vector2) : sumX (replicate k v) = INR k * x v.
Proof.
  induction k as [|k IH]; [simpl; lra|].
  cbn [replicate sumX foldr]. fold (sumX (replicate k v)). rewrite IH, S_INR. lra.
Qed.

Lemma sumY_replicate (k : nat) (v : Vector2) : sumY (replicate k v) = INR k * y v.
Proof.
  induction k as [|k IH]; [simpl; lra|].
  cbn [replicate sumY foldr]. fold (sumY (replicate k v)). rewrite IH, S_INR. lra.
Qed.

(** The loop of [initializeForces] overwrites the slots [i] to [i + k - 1]
    and nothing else; it fails exactly when one of them is missing. *)
Lemma initializeLoop_result (g : R) (k i : nat) (next next' : list Vector2) :
  initializeLoop g i k next = Some next' ->
  (i + k <= length next \/ k = 0)%nat
  /\ next' = take i next ++ replicate k (mkVector2 0 g) ++ drop (i + k) next.
Proof.
  revert i next; induction k as [|k IH]; intros i next; simpl.
  - intros [= <-]. split; [now right|].
    rewrite Nat.add_0_r. now rewrite take_drop.
  - destruct (next !! i) as [u|] eqn:Hi; simpl; [|discriminate].
    intros Hrest. apply IH in Hrest as [Hlen ->].
    assert (Hlt : (i < length next)%nat) by (apply lookup_lt_is_Some; eauto).
    rewrite length_insert in Hlen.
    split; [left; destruct Hlen; lia|].
    rewrite (take_S_r _ _ (mkVector2 0 g))
      by (apply list_lookup_insert_eq; exact Hlt).
    rewrite take_insert_ge by lia.
    rewrite drop_insert_lt by lia.
    rewrite <- app_assoc. simpl.
    now replace (i + S k)%nat with (S i + k)%nat by lia.
Qed.

Lemma initializeLoop_total (g : R) (k i : nat) (next : list Vector2) :
  (i + k <= length next)%nat -> is_Some (initializeLoop g i k next).
Proof.
  revert i next; induction k as [|k IH]; intros i next Hlen; simpl; [eauto|].
  destruct (lookup_lt_is_Some_2 next i) as [u ->]; [lia|]. simpl.
  apply IH. rewrite length_insert. lia.
Qed.

(** X1: [initializeForces] followed by [updateInteractionForces] leaves a
    net force that is gravity alone: the X components of the next-step forces
    of the molecules sum to zero and the Y components to the gravitational
    acceleration times the number of molecules (slots past the last molecule
    keep what they held). *)
Theorem net_force_is_gravity (g epsilon : R) (ds ds1 ds2 : DataSet) :
  initializeForces g ds = Some ds1 ->
  updateInteractionForces epsilon ds1 = Some ds2 ->
  sumX (nextMoleculeForces ds2)
    = sumX (drop (numberOfMolecules ds) (nextMoleculeForces ds))
  /\ sumY (nextMoleculeForces ds2)
     = INR (numberOfMolecules ds) * g
       + sumY (drop (numberOfMolecules ds) (nextMoleculeForces ds)).
Proof.
  unfold initializeForces, updateInteractionForces.
  destruct (initializeLoop _ _ _ _) as [next1|] eqn:Hinit; simpl; [|discriminate].
  intros [= <-]. simpl.
  destruct (outerLoop _ _ _ _ _ _) as [next2|] eqn:Hloop; simpl; [|discriminate].
  intros [= <-]. simpl.
  apply MonatomicForces.outerLoop_sums in Hloop as [-> ->].
  apply initializeLoop_result in Hinit as [_ ->]. simpl.
  rewrite sumX_app, sumY_app, sumX_replicate, sumY_replicate. simpl. lra.
Qed.

Lemma net_force_is_gravity_sample :
  exists ds2,
    initializeForces (-0.045) Samples.closePair = Some Samples.closePair
    /\ updateInteractionForces 1 Samples.closePair = Some ds2
    /\ sumX (nextMoleculeForces ds2) = 0
    /\ sumY (nextMoleculeForces ds2) = 2 * -0.045.
Proof.
  assert (H1 : initializeForces (-0.045) Samples.closePair
               = Some Samples.closePair) by reflexivity.
  destruct (MonatomicForces.updateInteractionForces_total 1 Samples.closePair)
    as [ds2 H2]; [simpl; lia | simpl; lia |].
  exists ds2. split; [exact H1|]. split; [exact H2|].
  destruct (net_force_is_gravity _ _ _ _ _ H1 H2) as [Hx Hy].
  simpl in Hx, Hy. split; lra.
Defined.

(** *** The size of a pairwise force *)

Lemma forceScalar_bounded (r epsilon : R) :
  0 < r <= 10 / 9 -> 0 <= epsilon ->
  Rabs (48 * r * (r * r * r) * (r * r * r - 0.5) * epsilon) <= 64 * epsilon.
Proof.
  intros [Hr0 Hr1] He.
  assert (Hr2 : 0 < r * r <= 100 / 81) by nra.
  set (c := r * r * r).
  assert (Hc : 0 < c <= 1000 / 729) by (unfold c; nra).
  set (q := r * c).
  assert (Hq : 0 < q <= 10000 / 6561) by (unfold q; nra).
  assert (Hhigh : q * (c - 0.5) <= 4 / 3).
  { destruct (Rle_dec c 0.5); [nra|].
    assert (q * (c - 0.5) <= 10000 / 6561 * (c - 0.5)) by nra. nra. }
  assert (Hlow : - (4 / 3) <= q * (c - 0.5)) by nra.
  replace (48 * r * c * (c - 0.5) * epsilon)
    with (48 * (q * (c - 0.5)) * epsilon) by (unfold q; ring).
  apply Rabs_le. split; nra.
Qed.

(** X2: the floor [MIN_DISTANCE_SQUARED] keeps the pairwise force finite
    however close two molecules get.  For a non-negative [epsilon], each
    component of the force computed for a pair is at most [160 * epsilon] in
    absolute value. *)
Theorem pair_force_is_bounded (epsilon xi yi : R) (pj : Vector2)
    (forceX forceY : R) :
  0 <= epsilon ->
  pairForce epsilon (coincidentSpecialCase (separation xi yi pj))
    = Some (forceX, forceY) ->
  Rabs forceX <= 160 * epsilon /\ Rabs forceY <= 160 * epsilon.
Proof.
  intros He. rewrite MonatomicForces.coincidentSpecialCase_idle.
  pose proof (MonatomicForces.distanceSqrd_floor xi yi pj) as Hfloor.
  unfold pairForce. destruct (Rlt_dec _ _) as [Hnear|]; [|discriminate].
  intros [= <- <-].
  unfold MIN_DISTANCE_SQUARED, PARTICLE_INTERACTION_DISTANCE_THRESH_SQRD in *.
  set (s := separation xi yi pj) in *.
  assert (Hsq : dx s * dx s + dy s * dy s <= distanceSqrd s)
    by (unfold s, separation; simpl; apply Rmax_l).
  set (d2 := distanceSqrd s) in *.
  assert (Hr : 0 < 1 / d2 <= 10 / 9).
  { split; [apply Rdiv_lt_0_compat; lra|].
    apply (Rmult_le_reg_r d2); [lra|]. field_simplify; lra. }
  pose proof (forceScalar_bounded (1 / d2) epsilon Hr He) as Hfs.
  set (fs := 48 * (1 / d2) * (1 / d2 * (1 / d2) * (1 / d2))
             * (1 / d2 * (1 / d2) * (1 / d2) - 0.5) * epsilon) in *.
  assert (Hdx : Rabs (dx s) <= 2.5) by (apply Rabs_le; split; nra).
  assert (Hdy : Rabs (dy s) <= 2.5) by (apply Rabs_le; split; nra).
  pose proof (Rabs_pos (dx s)). pose proof (Rabs_pos (dy s)).
  pose proof (Rabs_pos fs).
  change (Rabs (dx s * fs) <= 160 * epsilon /\ Rabs (dy s * fs) <= 160 * epsilon).
  rewrite (Rabs_mult (dx s)), (Rabs_mult (dy s)). split; nra.
Qed.

Lemma pair_force_is_bounded_sample :
  exists forceX forceY,
    pairForce 1 (coincidentSpecialCase (separation 0 0 (mkVector2 1.5 0)))
      = Some (forceX, forceY)
    /\ Rabs forceX <= 160 * 1 /\ Rabs forceY <= 160 * 1.
Proof.
  destruct MonatomicForces.closePair_interacts as (forceX & forceY & Hforce & _).
  exists forceX, forceY. split; [exact Hforce|].
  apply (pair_force_is_bounded 1 0 0 (mkVector2 1.5 0) forceX forceY);
    [lra | exact Hforce].
Defined.

(** *** The temperature and the forces after the velocity update *)

Lemma magnitude_squared (v : Vector2) :
  magnitude v <= 10 -> x v * x v + y v * y v <= 100.
Proof.
  unfold magnitude. intros Hm.
  destruct (Rle_dec (x v * x v + y v * y v) 100) as [|Hbig]; [assumption|].
  exfalso. apply Rnot_le_lt in Hbig.
  assert (Hlt : sqrt (10 * 10) < sqrt (x v * x v + y v * y v))
    by (apply sqrt_lt_1_alt; lra).
  rewrite sqrt_square in Hlt by lra. lra.
Qed.

Lemma velocityStep_energy (h : R) (next : list Vector2) (i : nat)
    (st st' : VelocityPass) :
  velocityStep h next i st = Some st' ->
  totalKineticEnergy st <= totalKineticEnergy st' <= totalKineticEnergy st + 50.
Proof.
  unfold velocityStep.
  destruct (atomVelocities st !! i) as [a|]; simpl; [|discriminate].
  destruct (atomForces st !! i) as [f|]; simpl; [|discriminate].
  destruct (next !! i) as [nf|]; simpl; [|discriminate].
  intros [= <-]; simpl.
  set (v := capVelocity _).
  pose proof (magnitude_squared v (MonatomicVelocities.capVelocity_bounded _)).
  nra.
Qed.

Lemma velocityLoop_energy (h : R) (next : list Vector2) (k i : nat)
    (st st' : VelocityPass) :
  velocityLoop h next i k st = Some st' ->
  totalKineticEnergy st <= totalKineticEnergy st'
    <= totalKineticEnergy st + 50 * INR k.
Proof.
  revert i st; induction k as [|k IH]; intros i st.
  - simpl. intros [= <-]. lra.
  - rewrite S_INR. cbn [velocityLoop].
    destruct (velocityStep h next i st) as [st1|] eqn:Hstep; simpl; [|discriminate].
    intros Hrest. apply IH in Hrest. apply velocityStep_energy in Hstep.
    lra.
Qed.

(** X3: over exact arithmetic, the temperature that
    [updateVelocitiesAndRotationRates] calculates lies between 0 and 100/3
    whenever there is an atom, a consequence of the cap on the speed; with no
    atom it is the minimum model temperature.  The upper bound is met exactly
    by atoms at the cap, so in binary64 rounding can carry the value past it;
    see [Binary64Facts.temperature_overshoots_in_binary64]. *)
Theorem calculated_temperature_range (minModelTemperature timeStep : R)
    (ds ds' : DataSet) (calculatedTemperature : R) :
  updateVelocitiesAndRotationRates minModelTemperature ds timeStep
    = Some (ds', calculatedTemperature) ->
  ((0 < numberOfAtoms ds)%nat -> 0 <= calculatedTemperature <= 100 / 3)
  /\ (numberOfAtoms ds = 0%nat -> calculatedTemperature = minModelTemperature).
Proof.
  unfold updateVelocitiesAndRotationRates.
  destruct (velocityLoop _ _ _ _ _) as [st|] eqn:Hloop; simpl; [|discriminate].
  intros [= _ <-]. apply velocityLoop_energy in Hloop. simpl in Hloop.
  destruct (numberOfAtoms ds) as [|n] eqn:Hn.
  - split; [lia | reflexivity].
  - split; [intros _ | discriminate].
    assert (Hpos : 0 < INR (S n)) by (apply lt_0_INR; lia).
    set (N := INR (S n)) in *. set (ke := totalKineticEnergy st) in *.
    assert (Hq : 0 <= ke / N <= 50).
    { split.
      - apply Rmult_le_pos; [lra | left; now apply Rinv_0_lt_compat].
      - apply (Rmult_le_reg_r N); [exact Hpos|]. field_simplify; lra. }
    lra.
Qed.

Lemma calculated_temperature_range_sample :
  exists ds' calculatedTemperature,
    updateVelocitiesAndRotationRates 0.01 Samples.runaway 0.005
    = Some (ds', calculatedTemperature)
    /\ 0 <= calculatedTemperature <= 100 / 3.
Proof.
  destruct (MonatomicVelocities.updateVelocitiesAndRotationRates_total
              0.01 Samples.runaway 0.005)
    as (ds' & temp & Hrun); [simpl; lia | simpl; lia | simpl; lia |].
  exists ds', temp. split; [exact Hrun|].
  apply (calculated_temperature_range 0.01 0.005 Samples.runaway ds' temp Hrun).
  simpl; lia.
Defined.

Lemma velocityStep_forces (h : R) (next : list Vector2) (i : nat)
    (st st' : VelocityPass) :
  velocityStep h next i st = Some st' ->
  exists nf,
    next !! i = Some nf
    /\ (i < length (atomForces st))%nat
    /\ atomForces st' = <[i := nf]> (atomForces st).
Proof.
  unfold velocityStep.
  destruct (atomVelocities st !! i) as [a|]; simpl; [|discriminate].
  destruct (atomForces st !! i) as [f|] eqn:Hf; simpl; [|discriminate].
  destruct (next !! i) as [nf|]; simpl; [|discriminate].
  intros [= <-]; simpl. exists nf. split; [reflexivity|].
  split; [apply lookup_lt_is_Some; eauto | now destruct nf].
Qed.

Lemma velocityLoop_forces (h : R) (next : list Vector2) (k i : nat)
    (st st' : VelocityPass) :
  velocityLoop h next i k st = Some st' ->
  (forall a, (a < i)%nat -> atomForces st' !! a = atomForces st !! a)
  /\ (forall a, (i + k <= a)%nat -> atomForces st' !! a = atomForces st !! a)
  /\ (forall a, (i <= a < i + k)%nat ->
        is_Some (next !! a) /\ atomForces st' !! a = next !! a).
Proof.
  revert i st; induction k as [|k IH]; intros i st; simpl.
  - intros [= <-]. repeat split; intros; (reflexivity || lia).
  - destruct (velocityStep h next i st) as [st1|] eqn:Hstep; simpl; [|discriminate].
    intros Hrest. destruct (IH _ _ Hrest) as (Hbelow & Habove & Hrange).
    destruct (velocityStep_forces _ _ _ _ _ Hstep) as (nf & Hnf & Hlen & Hst1).
    split; [|split].
    + intros a Ha. rewrite Hbelow by lia. rewrite Hst1.
      apply list_lookup_insert_ne; lia.
    + intros a Ha. rewrite Habove by lia. rewrite Hst1.
      apply list_lookup_insert_ne; lia.
    + intros a Ha. destruct (decide (a = i)) as [->|Hne].
      * rewrite Hbelow by lia. rewrite Hst1, Hnf.
        split; [eauto | now apply list_lookup_insert_eq].
      * apply Hrange. lia.
Qed.

(** X4: [updateVelocitiesAndRotationRates] turns the forces over for the
    next time step: afterwards the force of every atom is the next-step force
    that the passes before it computed, the next-step forces and the
    positions are as they were, and the slots of atoms that do not exist are
    untouched. *)
Theorem forces_are_turned_over (minModelTemperature timeStep : R)
    (ds ds' : DataSet) (calculatedTemperature : R) :
  updateVelocitiesAndRotationRates minModelTemperature ds timeStep
    = Some (ds', calculatedTemperature) ->
  (forall i, (i < numberOfAtoms ds)%nat ->
     is_Some (nextMoleculeForces ds !! i)
     /\ moleculeForces ds' !! i = nextMoleculeForces ds !! i)
  /\ (forall i, (numberOfAtoms ds <= i)%nat ->
        moleculeForces ds' !! i = moleculeForces ds !! i)
  /\ nextMoleculeForces ds' = nextMoleculeForces ds
  /\ moleculeCenterOfMassPositions ds' = moleculeCenterOfMassPositions ds.
Proof.
  unfold updateVelocitiesAndRotationRates.
  destruct (velocityLoop _ _ _ _ _) as [st|] eqn:Hloop; simpl; [|discriminate].
  intros [= <- _]; simpl.
  destruct (velocityLoop_forces _ _ _ _ _ _ Hloop) as (_ & Habove & Hrange).
  split; [|split; [|split]]; try reflexivity.
  - intros i Hi. apply Hrange. lia.
  - intros i Hi. apply Habove. simpl. lia.
Qed.

Lemma forces_are_turned_over_sample :
  exists ds' calculatedTemperature,
    updateVelocitiesAndRotationRates 0.01 Samples.runaway 0.005
    = Some (ds', calculatedTemperature)
    /\ moleculeForces ds' !! 0%nat = Some (mkVector2 0 0).
Proof.
  destruct (MonatomicVelocities.updateVelocitiesAndRotationRates_total
              0.01 Samples.runaway 0.005)
    as (ds' & temp & Hrun); [simpl; lia | simpl; lia | simpl; lia |].
  exists ds', temp. split; [exact Hrun|].
  destruct (forces_are_turned_over 0.01 0.005 Samples.runaway ds' temp Hrun)
    as (Hturn & _).
  destruct (Hturn 0%nat) as [_ ->]; [simpl; lia | reflexivity].
Defined.

End MonatomicStepFacts.

(** ** MultipleParticleModel: the container, the pump and the conversions *)

Module ModelFacts.
Import MultipleParticleModel ModelControls.



Section AnyStrategies.
Context {E : Type} `{Strategies E}.


(** X7: the pump never holds more than three molecules.  After one or more
    calls of [injectMolecule] the number of molecules awaiting injection is
    the old number plus the number of calls, cut off at 3. *)
Theorem pump_queue_is_capped (k : nat) (m : Model E) :
  numMoleculesAwaitingInjection (injection (Nat.iter (S k) injectMolecule m))
  = Z.min (numMoleculesAwaitingInjection (injection m) + Z.of_nat (S k)) 3
  /\ (numMoleculesAwaitingInjection (injection (Nat.iter (S k) injectMolecule m))
      <= 3)%Z.
Proof.
  assert (Heq : numMoleculesAwaitingInjection
                  (injection (Nat.iter (S k) injectMolecule m))
                = Z.min (numMoleculesAwaitingInjection (injection m)
                         + Z.of_nat (S k)) 3).
  { assert (Hone : forall m' : Model E,
              numMoleculesAwaitingInjection (injection (injectMolecule m'))
              = Z.min (numMoleculesAwaitingInjection (injection m') + 1) 3)
      by reflexivity.
    induction k as [|k IH].
    - change (Nat.iter 1 injectMolecule m) with (injectMolecule m).
      rewrite Hone. lia.
    - change (Nat.iter (S (S k)) injectMolecule m)
        with (injectMolecule (Nat.iter (S k) injectMolecule m)).
      rewrite Hone, IH. lia. }
  split; [exact Heq | rewrite Heq; lia].
Qed.

(** X9: the temperature a phase is set up with maps back to that phase.
    When the three phase temperatures are in order and within the range of
    the set-point, [mapTemperatureToPhase] after [setTemperature] of the
    solid, liquid or gas temperature answers solid, liquid or gas. *)
Theorem phase_temperature_round_trip (P : PhaseConstants) (m : Model E) :
  SOLID_TEMPERATURE P < LIQUID_TEMPERATURE P < GAS_TEMPERATURE P ->
  MIN_TEMPERATURE <= SOLID_TEMPERATURE P ->
  GAS_TEMPERATURE P <= MAX_TEMPERATURE ->
  mapTemperatureToPhase P (setTemperature (SOLID_TEMPERATURE P) m) = SOLID
  /\ mapTemperatureToPhase P (setTemperature (LIQUID_TEMPERATURE P) m) = LIQUID
  /\ mapTemperatureToPhase P (setTemperature (GAS_TEMPERATURE P) m) = GAS.
Proof.
  intros [Hsl Hlg] Hmin Hmax.
  assert (Hclamp : forall t, MIN_TEMPERATURE <= t <= MAX_TEMPERATURE ->
                             clampTemperature t = t).
  { intros t Ht. unfold clampTemperature.
    destruct (Rgt_dec _ _); [lra|]. destruct (Rlt_dec _ _); lra. }
  unfold mapTemperatureToPhase, setTemperature; simpl.
  rewrite !Hclamp by lra.
  repeat split;
    repeat match goal with
           | |- context [Rgt_dec ?a ?b] => destruct (Rgt_dec a b); try lra
           | |- context [Rlt_dec ?a ?b] => destruct (Rlt_dec a b); try lra
           end;
    reflexivity.
Qed.

(** X10: the conversion to Kelvin is calibrated at its two reference
    points.  With particles present, a set-point at the triple point in model
    units reads the triple point in Kelvin, and a set-point at the critical
    point in model units reads the critical point in Kelvin. *)
Theorem kelvin_reference_points (K : SOMConstants) (m : Model E)
    (tripleK criticalK tripleM criticalM : R) :
  particles m <> [] ->
  conversionPoints K (substance m) = (tripleK, criticalK, tripleM, criticalM) ->
  minModelTemperature (thermal m) < tripleM < criticalM ->
  0 < tripleM ->
  (temperatureSetPoint (thermal m) = tripleM ->
   getTemperatureInKelvin K m = Some tripleK)
  /\ (temperatureSetPoint (thermal m) = criticalM ->
      getTemperatureInKelvin K m = Some criticalK).
Proof.
  intros Hsome Hpoints [Hmin Hcrit] Hpos.
  unfold getTemperatureInKelvin. rewrite Hpoints.
  destruct (decide _) as [Hlen|_]; [now apply nil_length_inv in Hlen|].
  split; intros ->; f_equal.
  - destruct (Rle_dec _ _); [lra|]. destruct (Rlt_dec tripleM tripleM); [lra|].
    destruct (Rlt_dec tripleM criticalM); [lra | lra].
  - destruct (Rle_dec _ _); [lra|]. destruct (Rlt_dec criticalM tripleM); [lra|].
    destruct (Rlt_dec criticalM criticalM); [lra|]. field. lra.
Qed.

End AnyStrategies.



Lemma phase_temperature_round_trip_sample :
  mapTemperatureToPhase Samples.somePhases
    (setTemperature (LIQUID_TEMPERATURE Samples.somePhases) Samples.intactModel)
  = LIQUID.
Proof.
  assert (Horder : SOLID_TEMPERATURE Samples.somePhases
                   < LIQUID_TEMPERATURE Samples.somePhases
                   < GAS_TEMPERATURE Samples.somePhases) by (simpl; lra).
  assert (Hmin : MIN_TEMPERATURE <= SOLID_TEMPERATURE Samples.somePhases)
    by (unfold MIN_TEMPERATURE; simpl; lra).
  assert (Hmax : GAS_TEMPERATURE Samples.somePhases <= MAX_TEMPERATURE)
    by (unfold MAX_TEMPERATURE; simpl; lra).
  destruct (phase_temperature_round_trip Samples.somePhases Samples.intactModel
              Horder Hmin Hmax) as (_ & Hliquid & _).
  exact Hliquid.
Defined.

Lemma kelvin_reference_points_sample :
  getTemperatureInKelvin Samples.someConstants Samples.atTriplePoint = Some 23.
Proof.
  assert (Hsome : particles Samples.atTriplePoint <> []) by discriminate.
  assert (Horder : minModelTemperature (thermal Samples.atTriplePoint) < 0.26 < 0.8)
    by (simpl; lra).
  assert (Hpos : 0 < 0.26) by lra.
  destruct (kelvin_reference_points Samples.someConstants Samples.atTriplePoint
              23 44 0.26 0.8 Hsome eq_refl Horder Hpos) as [Htriple _].
  apply Htriple. reflexivity.
Defined.



(** X8: the two conversions of epsilon undo each other, in both orders,
    provided [MAX_EPSILON] is not zero. *)
Theorem epsilon_conversions_round_trip (P : PhaseConstants) (v : R) :
  MAX_EPSILON P <> 0 ->
  convertScaledEpsilonToEpsilon P (convertEpsilonToScaledEpsilon P v) = v
  /\ convertEpsilonToScaledEpsilon P (convertScaledEpsilonToEpsilon P v) = v.
Proof.
  intros Hmax.
  unfold convertScaledEpsilonToEpsilon, convertEpsilonToScaledEpsilon.
  split; field; exact Hmax.
Qed.

Lemma epsilon_conversions_round_trip_sample :
  convertScaledEpsilonToEpsilon Samples.somePhases
    (convertEpsilonToScaledEpsilon Samples.somePhases 120) = 120
  /\ convertEpsilonToScaledEpsilon Samples.somePhases
       (convertScaledEpsilonToEpsilon Samples.somePhases 120) = 120.
Proof.
  apply (epsilon_conversions_round_trip Samples.somePhases 120). simpl. lra.
Defined.

End ModelFacts.

(** ** AbstractVerletAlgorithm: what the pressure reading can be *)

Module PressureFacts.
Import MultipleParticleModel AbstractVerletAlgorithm.

Section AnyQueue.
Context {Q E : Type} `{TimeSpanDataQueue Q}.

Lemma newPressure_nonneg (p dt : R) (a : Algorithm Q) (m : Model E) :
  0 <= newPressure p dt a m.
Proof. unfold newPressure. apply Rmax_r. Qed.

(** X11: whatever the queue holds and whatever it is handed,
    [updatePressure] never publishes a negative pressure; once the container
    has exploded, before or in the call, the published pressure is 0; an
    exploded container stays exploded; and a container that is intact after
    the call has been above the explosion threshold for at most 1 second. *)
Theorem pressure_reading_invariant (pressureThisStep dt : R)
    (s : Algorithm Q * Model E) :
  let s' := updatePressure pressureThisStep dt s in
  0 <= pressureProperty (fst s')
  /\ (isExploded (snd s') = true -> pressureProperty (fst s') = 0)
  /\ (isExploded (snd s) = true -> isExploded (snd s') = true)
  /\ (isExploded (snd s') = false ->
      timeAboveExplosionPressure (fst s') <= 1
      /\ pressureProperty (fst s')
         = newPressure pressureThisStep dt (fst s) (snd s)).
Proof.
  destruct s as [a m]. cbn [fst snd]. unfold updatePressure.
  pose proof (newPressure_nonneg pressureThisStep dt a m) as Hpos.
  destruct (isExploded m) eqn:Hm.
  - cbn [fst snd pressureProperty]. rewrite Hm.
    repeat split; try lra; try reflexivity; discriminate.
  - destruct (Rgt_dec _ EXPLOSION_PRESSURE).
    + destruct (Rgt_dec _ EXPLOSION_TIME) as [|Hshort].
      * cbn [fst snd pressureProperty].
        rewrite PressureExplosion.setContainerExploded_true.
        repeat split; try lra; try reflexivity; discriminate.
      * cbn [fst snd pressureProperty timeAboveExplosionPressure]. rewrite Hm.
        unfold EXPLOSION_TIME in Hshort.
        repeat split; try lra; try reflexivity; discriminate.
    + cbn [fst snd pressureProperty timeAboveExplosionPressure]. rewrite Hm.
      repeat split; try lra; try reflexivity; discriminate.
Qed.

End AnyQueue.

End PressureFacts.

(** ** MovingAverage *)

Module MovingAverageFacts.
Import MovingAverage MovingAverageState.

Lemma sumR_app (l k : list R) : sumR (l ++ k) = sumR l + sumR k.
Proof. induction l as [|a l IH]; simpl; [lra | rewrite IH; lra]. Qed.

Lemma sumR_replicate (n : nat) (a : R) : sumR (replicate n a) = INR n * a.
Proof.
  induction n as [|n IH]; [simpl; lra|].
  cbn [replicate sumR foldr]. fold (sumR (replicate n a)). rewrite IH, S_INR. lra.
Qed.

Lemma fill_result (a : R) (k i : nat) (arr : list (option R)) :
  (i + k <= length arr)%nat ->
  fill a i k arr = take i arr ++ replicate k (Some a) ++ drop (i + k) arr.
Proof.
  revert i arr; induction k as [|k IH]; intros i arr Hlen; simpl.
  - rewrite Nat.add_0_r. now rewrite take_drop.
  - unfold jsSet. destruct (decide (i < length arr)%nat) as [Hi|]; [|lia].
    rewrite IH by (rewrite length_insert; lia).
    rewrite (take_S_r _ _ (Some a)) by (apply list_lookup_insert_eq; exact Hi).
    rewrite take_insert_ge by lia. rewrite drop_insert_lt by lia.
    rewrite <- app_assoc. simpl.
    now replace (i + S k)%nat with (S i + k)%nat by lia.
Qed.

Lemma create_holds (n : nat) (a : R) :
  (0 < n)%nat -> holds (create n a) (replicate n a).
Proof.
  intros Hn. unfold holds, window, create, reset; simpl.
  rewrite fill_result by (rewrite length_replicate; lia). simpl.
  rewrite (drop_ge (replicate n None)) by (rewrite length_replicate; lia).
  rewrite drop_0, take_0.
  rewrite !app_nil_r, fmap_replicate, length_replicate, sumR_replicate.
  repeat split; try reflexivity; try lia. lra.
Qed.

Lemma addValue_holds (v : R) (m : t) (w : list R) :
  holds m w ->
  exists m',
    addValue v m = Some m'
    /\ holds m' (tail w ++ [v])
    /\ size m' = size m /\ initialValue m' = initialValue m
    /\ w <> [].
Proof.
  intros (Hwin & Hlen & Hidx & Htot & Havg).
  unfold window in Hwin.
  assert (Hc : (currentIndex m < length (array m))%nat) by lia.
  destruct (lookup_lt_is_Some_2 _ _ Hc) as [slot Hslot].
  rewrite (drop_S _ _ _ Hslot) in Hwin.
  destruct w as [|a w']; [discriminate|].
  cbn [fmap list_fmap app] in Hwin. injection Hwin as -> Hrest.
  unfold addValue. rewrite Hslot. cbn [mjoin option_join mbind option_bind].
  destruct (decide (size m = 0%nat)) as [|_]; [lia|].
  eexists. split; [reflexivity|].
  split; [|repeat split; try reflexivity; discriminate].
  unfold holds, window; cbn [array currentIndex size total average tail].
  unfold jsSet. destruct (decide _) as [_|]; [|lia].
  assert (Harr' : <[currentIndex m := Some v]> (array m)
                  = take (currentIndex m) (array m) ++ Some v
                    :: drop (S (currentIndex m)) (array m))
    by (apply insert_take_drop; exact Hc).
  split; [|split; [|split; [|split]]].
  - destruct (decide (currentIndex m + 1 < size m)%nat) as [Hin|Hlast].
    + rewrite Nat.mod_small by exact Hin.
      replace (currentIndex m + 1)%nat with (S (currentIndex m)) by lia.
      rewrite drop_insert_lt by lia.
      rewrite (take_S_r _ _ (Some v))
        by (apply list_lookup_insert_eq; exact Hc).
      rewrite take_insert_ge by lia.
      rewrite app_assoc, Hrest, fmap_app. reflexivity.
    + replace (currentIndex m + 1)%nat with (size m) by lia.
      rewrite Nat.Div0.mod_same. rewrite drop_0, take_0, app_nil_r.
      rewrite Harr'.
      rewrite (drop_ge (array m) (S (currentIndex m))) in * by lia.
      simpl in Hrest. rewrite Hrest, fmap_app. reflexivity.
  - rewrite length_insert. exact Hlen.
  - apply Nat.mod_upper_bound. lia.
  - rewrite sumR_app, Htot. simpl. lra.
  - reflexivity.
Qed.

Lemma addValues_holds (vs : list R) (m : t) (w : list R) :
  holds m w ->
  exists m',
    addValues vs m = Some m'
    /\ holds m' (drop (length vs) (w ++ vs))
    /\ size m' = size m /\ initialValue m' = initialValue m.
Proof.
  revert m w; induction vs as [|v vs IH]; intros m w Hm.
  - exists m. rewrite app_nil_r. simpl. auto.
  - destruct (addValue_holds v m w Hm) as (m1 & Hadd & Hm1 & Hsize & Hinit & Hw).
    destruct (IH m1 _ Hm1) as (m' & Hrun & Hm' & Hsize' & Hinit').
    exists m'. cbn [addValues]. rewrite Hadd. cbn [mbind option_bind].
    split; [exact Hrun|]. split; [|split; congruence].
    destruct w as [|a w']; [contradiction|].
    cbn [tail] in Hm'. rewrite <- app_assoc in Hm'. exact Hm'.
Qed.

(** X12: a moving average of a positive size, fed any values, never fails
    and keeps exactly the last [size] of them in its buffer, oldest first from
    [currentIndex] on, with the initial value standing in for values it has
    not yet been given; its average is its running total over its size.  Over
    exact arithmetic the running total is the sum of the buffer, so that the
    average is the mean of those values.  In binary64 the running total,
    which is kept by subtracting and adding, can drift from the sum of the
    buffer; see [Binary64Facts.running_total_drifts_in_binary64]. *)
Theorem average_is_over_the_last_values (n : nat) (a : R) (vs : list R) :
  (0 < n)%nat ->
  exists m',
    addValues vs (create n a) = Some m'
    /\ window m' = Some <$> drop (length vs) (replicate n a ++ vs)
    /\ length (drop (length vs) (replicate n a ++ vs)) = n
    /\ average m' = total m' / INR n
    /\ total m' = sumR (drop (length vs) (replicate n a ++ vs))
    /\ average m' = sumR (drop (length vs) (replicate n a ++ vs)) / INR n.
Proof.
  intros Hn.
  destruct (addValues_holds vs _ _ (create_holds n a Hn))
    as (m' & Hrun & (Hwin & _ & _ & Htot & Havg) & Hsize & _).
  assert (Hsize' : size m' = n) by (rewrite Hsize; reflexivity).
  exists m'. split; [exact Hrun|]. split; [exact Hwin|]. split.
  { rewrite length_drop, length_app, length_replicate. lia. }
  rewrite Hsize' in Havg.
  split; [exact Havg|]. split; [exact Htot|].
  rewrite Havg, Htot. reflexivity.
Qed.

Lemma average_is_over_the_last_values_sample :
  exists m',
    addValues [3; 9; 6] (create 2 0) = Some m'
    /\ window m' = [Some 9; Some 6]
    /\ average m' = sumR [9; 6] / INR 2.
Proof.
  assert (Hn : (0 < 2)%nat) by lia.
  destruct (average_is_over_the_last_values 2 0 [3; 9; 6] Hn)
    as (m' & Hrun & Hwin & _ & _ & _ & Havg).
  exists m'. split; [exact Hrun|]. split; [exact Hwin | exact Havg].
Defined.

(** X13: [reset] wipes the history.  Whatever values a moving average has
    been fed since its construction, resetting it gives back the state it was
    constructed in. *)
Theorem reset_forgets (n : nat) (a : R) (vs : list R) (m' : t) :
  (0 < n)%nat ->
  addValues vs (create n a) = Some m' ->
  reset m' = create n a.
Proof.
  intros Hn Hrun.
  destruct (addValues_holds vs _ _ (create_holds n a Hn))
    as (m2 & Hrun2 & (_ & Hlen & _) & Hsize & Hinit).
  rewrite Hrun in Hrun2. injection Hrun2 as <-.
  unfold reset, create, reset. cbn [size initialValue array] in *.
  rewrite Hsize, Hinit. cbn [size initialValue].
  f_equal.
  rewrite !fill_result by (rewrite ?length_replicate; lia).
  cbn [take app Nat.add].
  rewrite !drop_ge by (rewrite ?length_replicate; lia). reflexivity.
Qed.

Lemma reset_forgets_sample :
  exists m',
    addValues [3; 9; 6] (create 2 0) = Some m' /\ reset m' = create 2 0.
Proof.
  destruct (addValues_holds [3; 9; 6] _ _ (create_holds 2 0 ltac:(lia)))
    as (m' & Hrun & _).
  exists m'. split; [exact Hrun|].
  exact (reset_forgets 2 0 [3; 9; 6] m' ltac:(lia) Hrun).
Defined.

End MovingAverageFacts.

(** ** AbstractVerletAlgorithm: collisions with the walls *)

Module WallFacts.
Import MultipleParticleModel AbstractVerletAlgorithm WallCollisions.

(** Case analysis on every comparison in the goal. *)
Ltac compare_all :=
  unfold Rleb, Rltb, Rgeb, Rgtb;
  repeat match goal with
         | |- context [Rle_dec ?a ?b] => destruct (Rle_dec a b)
         | |- context [Rlt_dec ?a ?b] => destruct (Rlt_dec a b)
         | |- context [Rge_dec ?a ?b] => destruct (Rge_dec a b)
         | |- context [Rgt_dec ?a ?b] => destruct (Rgt_dec a b)
         | |- context [Req_dec_T ?a ?b] => destruct (Req_dec_T a b)
         end;
  cbn [andb orb negb].

Section AnyModel.
Context {E : Type}.
Implicit Types (b : Bouncer) (m : Model E) (ds : MoleculeDataSet) (p : Pass).

(** The outcome of the test against the side walls: the horizontal velocity
    keeps its size, and the pressure added is not negative. *)
Lemma side_walls (xPos minX maxX vx yPos minHeight : R) :
  let t := if Rleb xPos minX && Rltb vx 0 then
             (minX, - vx, if Rgtb yPos minHeight then - vx else 0)
           else if Rgeb xPos maxX && Rgtb vx 0 then
             (maxX, - vx, if Rgtb yPos minHeight then vx else 0)
           else (xPos, vx, 0) in
  snd (fst t) * snd (fst t) = vx * vx /\ 0 <= snd t.
Proof. compare_all; simpl; split; lra. Qed.

(** Name the outcome of the side wall test, with what is known of it. *)
Ltac name_side_walls :=
  match goal with
  | |- context [match ?t with pair _ _ => _ end] =>
      match t with
      | if Rleb ?xPos ?minX && Rltb ?vx 0 then _
        else if Rgeb _ ?maxX && _ then (_, _, if Rgtb ?yPos ?h then _ else _)
        else _ =>
          let Hx := fresh "Hside" in
          pose proof (side_walls xPos minX maxX vx yPos h) as Hx;
          cbv zeta in Hx;
          let xPos' := fresh "xPos'" in
          let vx' := fresh "vx'" in
          let px := fresh "px" in
          destruct t as [[xPos' vx'] px];
          cbn [fst snd] in Hx
      end
  end.

Lemma moveMolecule_pressure b m ts mi pos vel force inside :
  0 <= pressure (moveMolecule b m ts mi pos vel force inside).
Proof.
  pose proof (Rabs_pos (y vel)).
  unfold moveMolecule.
  destruct (inside || _); [|simpl; lra].
  name_side_walls.
  destruct (isExploded m); compare_all; simpl; lra.
Qed.

Lemma moveMolecule_elastic b m ts mi pos vel force inside :
  normalizedLidVelocityY (container m) = 0 ->
  let v' := newVelocity (moveMolecule b m ts mi pos vel force inside) in
  x v' * x v' + y v' * y v' = x vel * x vel + y vel * y vel.
Proof.
  intros Hlid. unfold moveMolecule. rewrite Hlid.
  destruct (inside || _); [|simpl; lra].
  name_side_walls.
  destruct (isExploded m); compare_all; simpl; try lra.
  all: exfalso; rewrite Rabs_R0 in *; pose proof (Rabs_pos (y vel)); lra.
Qed.

Lemma moveMolecule_below_lid b m ts mi pos vel force inside :
  bottomBounceInset b
    <= normalizedContainerHeight (container m) - topBounceInset b ->
  insideAfter (moveMolecule b m ts mi pos vel force inside) = true ->
  y (newPosition (moveMolecule b m ts mi pos vel force inside))
    <= normalizedContainerHeight (container m) - topBounceInset b.
Proof.
  intros Hroom. unfold moveMolecule.
  destruct (inside || _); [|simpl; discriminate].
  name_side_walls.
  destruct (isExploded m); compare_all; simpl; intros; try lra; discriminate.
Qed.

Lemma moveMolecule_flag b m ts mi pos vel force inside :
  insideWritten (moveMolecule b m ts mi pos vel force inside) = false ->
  insideAfter (moveMolecule b m ts mi pos vel force inside) = inside.
Proof.
  unfold moveMolecule.
  destruct inside; cbn [negb orb andb].
  - name_side_walls.
    destruct (isExploded m); compare_all; simpl; intros; congruence.
  - destruct (isNormalizedPositionInContainer m _ _); [|reflexivity].
    name_side_walls.
    destruct (isExploded m); compare_all; simpl; intros; congruence.
Qed.

Lemma jsTruthy_jsSet (l : list (option bool)) (i a : nat) (v : bool) :
  jsTruthy (jsSet i v l) a = if decide (a = i) then v else jsTruthy l a.
Proof.
  unfold jsTruthy, jsSet.
  destruct (decide (i < length l)%nat) as [Hin|Hout].
  - destruct (decide (a = i)) as [->|Hne].
    + now rewrite list_lookup_insert_eq.
    + now rewrite list_lookup_insert_ne.
  - destruct (decide (a = i)) as [->|Hne].
    + rewrite lookup_app_r by lia.
      rewrite lookup_app_r by (rewrite length_replicate; lia).
      rewrite length_replicate.
      now replace (i - length l - (i - length l))%nat with 0%nat by lia.
    + destruct (decide (a < length l)%nat) as [Ha|Ha].
      * now rewrite lookup_app_l.
      * rewrite (lookup_ge_None_2 l a) by lia.
        rewrite lookup_app_r by lia.
        destruct (decide (a - length l < i - length l)%nat) as [Hb|Hb].
        -- rewrite lookup_app_l by (rewrite length_replicate; lia).
           now rewrite lookup_replicate_2.
        -- rewrite lookup_app_r by (rewrite length_replicate; lia).
           rewrite length_replicate.
           destruct (a - length l - (i - length l))%nat as [|n] eqn:Hn; [lia|].
           reflexivity.
Qed.

(** What the loop leaves in the slots of a molecule it has visited and of
    one it has not. *)
Lemma moveLoop_slots b m ts ds (k i : nat) p p' :
  moveLoop b m ts ds i k p = Some p' ->
  accumulatedPressure p <= accumulatedPressure p'
  /\ (forall a, (a < i)%nat ->
        positions p' !! a = positions p !! a
        /\ velocities p' !! a = velocities p !! a
        /\ jsTruthy (insideFlags p') a = jsTruthy (insideFlags p) a)
  /\ (forall a, (i <= a < i + k)%nat ->
        exists pos vel force,
          positions p !! a = Some pos
          /\ velocities p !! a = Some vel
          /\ moleculeForces ds !! a = Some force
          /\ let r := moveMolecule b m ts (1 / moleculeMass ds) pos vel force
                                   (jsTruthy (insideFlags p) a) in
             positions p' !! a = Some (newPosition r)
             /\ velocities p' !! a = Some (newVelocity r)
             /\ jsTruthy (insideFlags p') a = insideAfter r).
Proof.
  revert i p; induction k as [|k IH]; intros i p; simpl.
  - intros [= <-]. split; [lra|]. split; [auto | intros; lia].
  - unfold moveStep.
    destruct (velocities p !! i) as [vel|] eqn:Hvel; simpl; [|discriminate].
    destruct (positions p !! i) as [pos|] eqn:Hpos; simpl; [|discriminate].
    destruct (moleculeForces ds !! i) as [force|] eqn:Hforce; simpl; [|discriminate].
    destruct (rotationAngles p !! i) as [angle|]; simpl; [|discriminate].
    destruct (moleculeRotationRates ds !! i) as [rate|]; simpl; [|discriminate].
    destruct (moleculeTorques ds !! i) as [torque|]; simpl; [|discriminate].
    set (r := moveMolecule b m ts (1 / moleculeMass ds) pos vel force
                           (jsTruthy (insideFlags p) i)).
    intros Hrest. destruct (IH _ _ Hrest) as (Hacc & Hbelow & Hrange).
    cbn [accumulatedPressure positions velocities insideFlags] in *.
    assert (Hflag : forall a,
              jsTruthy (if insideWritten r
                        then jsSet i (insideAfter r) (insideFlags p)
                        else insideFlags p) a
              = if decide (a = i) then insideAfter r
                else jsTruthy (insideFlags p) a).
    { intros a. destruct (insideWritten r) eqn:Hw.
      - apply jsTruthy_jsSet.
      - destruct (decide (a = i)) as [->|]; [|reflexivity].
        symmetry. now apply moveMolecule_flag. }
    assert (Hlenp : (i < length (positions p))%nat)
      by (apply lookup_lt_is_Some; eauto).
    assert (Hlenv : (i < length (velocities p))%nat)
      by (apply lookup_lt_is_Some; eauto).
    split; [|split].
    + pose proof (moveMolecule_pressure b m ts (1 / moleculeMass ds)
                    pos vel force (jsTruthy (insideFlags p) i)).
      fold r in H. lra.
    + intros a Ha. destruct (Hbelow a) as (-> & -> & ->); [lia|].
      rewrite Hflag. destruct (decide (a = i)); [lia|].
      rewrite !list_lookup_insert_ne by lia. auto.
    + intros a Ha. destruct (decide (a = i)) as [->|Hne].
      * exists pos, vel, force.
        split; [exact Hpos|]. split; [exact Hvel|]. split; [exact Hforce|].
        cbv zeta. fold r.
        destruct (Hbelow i) as (-> & -> & ->); [lia|].
        rewrite Hflag. destruct (decide (i = i)); [|congruence].
        rewrite !list_lookup_insert_eq by assumption. auto.
      * destruct (Hrange a) as (pos' & vel' & force' & Hp & Hv & Hf & Hr); [lia|].
        rewrite list_lookup_insert_ne in Hp, Hv by lia.
        rewrite Hflag in Hr. destruct (decide (a = i)); [lia|].
        exists pos', vel', force'. auto.
Qed.

(** X14: the pressure that [updateMoleculePositions] accumulates over the
    molecules and hands to [updatePressure] is never negative, whatever the
    positions, velocities and forces are, so the assertion that opens
    [updatePressure] holds at this call. *)
Theorem accumulated_pressure_is_not_negative b m ts ds p :
  moveMolecules b m ts ds = Some p -> 0 <= accumulatedPressure p.
Proof.
  unfold moveMolecules. intros Hrun.
  apply moveLoop_slots in Hrun as [Hacc _]. exact Hacc.
Qed.

(** X15: while the lid is at rest the walls are perfectly elastic.  The
    position update may turn the velocity of a molecule around but never
    changes its speed. *)
Theorem walls_are_elastic b m ts ds p :
  normalizedLidVelocityY (container m) = 0 ->
  moveMolecules b m ts ds = Some p ->
  forall i, (i < numberOfMolecules ds)%nat ->
    exists v v',
      moleculeVelocities ds !! i = Some v
      /\ velocities p !! i = Some v'
      /\ x v' * x v' + y v' * y v' = x v * x v + y v * y v.
Proof.
  intros Hlid Hrun i Hi. unfold moveMolecules in Hrun.
  apply moveLoop_slots in Hrun as (_ & _ & Hrange).
  destruct (Hrange i) as (pos & vel & force & _ & Hv & _ & _ & Hv' & _); [lia|].
  cbn [velocities] in Hv. exists vel. eexists. split; [exact Hv|].
  split; [exact Hv'|]. now apply moveMolecule_elastic.
Qed.

(** X16: provided the floor inset is not above the lid inset, no molecule
    that is flagged as inside the container after the position update lies
    above the height at which the lid bounces it, whether the container has
    exploded or not. *)
Theorem inside_means_below_the_lid b m ts ds p :
  bottomBounceInset b
    <= normalizedContainerHeight (container m) - topBounceInset b ->
  moveMolecules b m ts ds = Some p ->
  forall i, (i < numberOfMolecules ds)%nat ->
    jsTruthy (insideFlags p) i = true ->
    exists pos',
      positions p !! i = Some pos'
      /\ y pos' <= normalizedContainerHeight (container m) - topBounceInset b.
Proof.
  intros Hroom Hrun i Hi Hinside. unfold moveMolecules in Hrun.
  apply moveLoop_slots in Hrun as (_ & _ & Hrange).
  destruct (Hrange i) as (pos & vel & force & _ & _ & _ & Hp' & _ & Hflag);
    [lia|].
  eexists. split; [exact Hp'|].
  apply moveMolecule_below_lid; [exact Hroom|]. now rewrite <- Hflag.
Qed.

End AnyModel.


Lemma accumulated_pressure_is_not_negative_sample :
  exists p,
    moveMolecules Samples.bouncer Samples.intactModel 0.005 Samples.cornered
    = Some p
    /\ 0 <= accumulatedPressure p.
Proof.
  eexists. split; [reflexivity|].
  apply (accumulated_pressure_is_not_negative
           Samples.bouncer Samples.intactModel 0.005 Samples.cornered).
  reflexivity.
Defined.

Lemma walls_are_elastic_sample :
  exists p v v',
    moveMolecules Samples.bouncer Samples.intactModel 0.005 Samples.cornered
    = Some p
    /\ moleculeVelocities Samples.cornered !! 0%nat = Some v
    /\ velocities p !! 0%nat = Some v'
    /\ x v' * x v' + y v' * y v' = x v * x v + y v * y v.
Proof.
  eexists.
  assert (Hfirst : (0 < numberOfMolecules Samples.cornered)%nat) by (simpl; lia).
  destruct (@walls_are_elastic unit Samples.bouncer Samples.intactModel 0.005
              Samples.cornered _ eq_refl eq_refl 0%nat Hfirst)
    as (v & v' & Hv & Hv' & Hspeed).
  exists v, v'. split; [reflexivity|]. split; [exact Hv|].
  split; [exact Hv' | exact Hspeed].
Defined.

Lemma inside_means_below_the_lid_sample :
  exists p pos',
    moveMolecules Samples.bouncer Samples.intactModel 0.005 Samples.cornered
    = Some p
    /\ positions p !! 0%nat = Some pos'
    /\ y pos' <= 10000 - 1.5.
Proof.
  eexists.
  assert (Hroom : bottomBounceInset Samples.bouncer
                  <= normalizedContainerHeight (container Samples.intactModel)
                     - topBounceInset Samples.bouncer) by (simpl; lra).
  assert (Hfirst : (0 < numberOfMolecules Samples.cornered)%nat) by (simpl; lia).
  destruct (@inside_means_below_the_lid unit Samples.bouncer Samples.intactModel
              0.005 Samples.cornered _ Hroom eq_refl 0%nat Hfirst)
    as (pos' & Hpos & Hbelow).
  - cbn. unfold moveMolecule. cbn. compare_all; reflexivity.
  - exists pos'. split; [reflexivity|]. split; [exact Hpos | exact Hbelow].
Defined.

End WallFacts.

(** ** AndersenThermostat at absolute zero *)

Module AndersenFreeze.
Import AndersenThermostat.




End AndersenFreeze.

(** ** SigmaTable and InteractionStrengthTable *)

Module AtomTableFacts.
Import AtomTables.

(** X18: both tables are symmetric in their two arguments, and both cover
    the same pairs: the fallback behind [assert( false, ... )] is reached
    exactly when hydrogen is paired with an atom that is not the adjustable
    one. *)
Theorem tables_are_symmetric (C : TableConstants) (a b : AtomType) :
  getSigma C a b = getSigma C b a
  /\ getInteractionPotential C a b = getInteractionPotential C b a
  /\ assertionReached (getSigma C a b)
     = assertionReached (getInteractionPotential C a b)
  /\ (assertionReached (getSigma C a b) = true <->
      (a = HYDROGEN \/ b = HYDROGEN) /\ a <> ADJUSTABLE /\ b <> ADJUSTABLE).
Proof.
  split; [destruct a, b; reflexivity|].
  split; [destruct a, b; reflexivity|].
  split; [destruct a, b; reflexivity|].
  destruct a, b; lazy; split;
    solve [ discriminate
          | intros [[?|?] [? ?]]; congruence
          | intros _; split; [(left; reflexivity) || (right; reflexivity)
                             | split; discriminate] ].
Qed.

End AtomTableFacts.

(** ** DualAtomModel: the sub-steps of a frame *)

Module DualAtomFacts.
Import DualAtomStepping.

Lemma passesBelow_le (bound : R) (n : nat) :
  bound <= INR n -> (passesBelow bound <= n)%nat.
Proof.
  intros Hle. unfold passesBelow.
  destruct (base_Int_part (- bound)) as [_ Hfrac].
  rewrite INR_IZR_INZ in Hle.
  assert (Hz : (- Z.of_nat n - 1 < Int_part (- bound))%Z).
  { apply lt_IZR. rewrite minus_IZR, opp_IZR. lra. }
  lia.
Qed.

Lemma passesBelow_1 : passesBelow 1 = 1%nat.
Proof.
  unfold passesBelow.
  rewrite <- (Int_part_spec (- (1)) (-1)%Z); [reflexivity|].
  simpl. split; lra.
Qed.

(** What [stepInternal] plans when no time is left over from before. *)
Lemma planIterations_fresh (dt : R) :
  0 <= dt ->
  planIterations dt 0
  = (if Rgt_dec dt MAX_TIME_STEP
     then (dt / MAX_TIME_STEP, MAX_TIME_STEP,
           0 + (dt - dt / MAX_TIME_STEP * MAX_TIME_STEP))
     else (1, dt, 0))
  /\ 0 + (dt - dt / MAX_TIME_STEP * MAX_TIME_STEP) = 0.
Proof.
  intros Hdt.
  assert (Hzero : 0 + (dt - dt / MAX_TIME_STEP * MAX_TIME_STEP) = 0).
  { unfold MAX_TIME_STEP, Rdiv. rewrite Rmult_assoc, Rinv_l by lra. lra. }
  split; [|exact Hzero].
  unfold planIterations. destruct (Rgt_dec dt MAX_TIME_STEP) as [Hbig|Hsmall].
  - rewrite Hzero. unfold MAX_TIME_STEP.
    destruct (Rgt_dec 0 0.005); [lra | reflexivity].
  - destruct (Rgt_dec 0 dt); [lra | reflexivity].
Qed.

(** X19: one frame of the two-atom model never costs more than 300 passes
    of the loop of [stepInternal].  For a model with no time left over and a
    time step that is not negative, [step] applies the body of the loop some
    [k <= 300] times with one time step of at most [MAX_TIME_STEP] and
    leaves no time over (numbers idealised as reals). *)
Theorem frame_takes_at_most_300_passes {B : Type} (iteration : R -> B -> B)
    (simulationTimeStep : R) (m : DualAtomModel.Model (Internals B)) :
  0 <= simulationTimeStep ->
  residualTime (DualAtomModel.atoms m) = 0 ->
  exists (k : nat) (modelTimeStep : R),
    (k <= 300)%nat
    /\ 0 <= modelTimeStep <= MAX_TIME_STEP
    /\ DualAtomModel.atoms
         (DualAtomModel.step (stepInternal iteration) simulationTimeStep m)
       = mkInternals 0 (Nat.iter k (iteration modelTimeStep)
                                 (pair (DualAtomModel.atoms m))).
Proof.
  intros Hdt Hres.
  assert (Hidle : exists (k : nat) (modelTimeStep : R),
            (k <= 300)%nat
            /\ 0 <= modelTimeStep <= MAX_TIME_STEP
            /\ DualAtomModel.atoms m
               = mkInternals 0 (Nat.iter k (iteration modelTimeStep)
                                         (pair (DualAtomModel.atoms m)))).
  { exists 0%nat, 0. split; [lia|]. split; [unfold MAX_TIME_STEP; lra|].
    destruct m as [playing normal [residual atoms]]; simpl in *.
    now rewrite Hres. }
  unfold DualAtomModel.step.
  destruct (Rgt_dec simulationTimeStep 1.0) as [Hlong|Hshort]; [exact Hidle|].
  destruct (DualAtomModel.isPlaying m); [|exact Hidle].
  set (adjusted := if DualAtomModel.speedIsNormal m
                   then simulationTimeStep * 1.5 else simulationTimeStep * 0.5).
  assert (Hadj : 0 <= adjusted <= 1.5)
    by (unfold adjusted; destruct (DualAtomModel.speedIsNormal m); lra).
  unfold stepInternal. rewrite Hres.
  destruct (planIterations_fresh adjusted) as [-> Hzero]; [lra|].
  destruct (Rgt_dec adjusted MAX_TIME_STEP) as [Hbig|Hsmall].
  - exists (passesBelow (adjusted / MAX_TIME_STEP)), MAX_TIME_STEP.
    split; [|split; [unfold MAX_TIME_STEP; lra|]].
    + apply passesBelow_le. unfold MAX_TIME_STEP.
      apply (Rmult_le_reg_r 0.005); [lra|].
      unfold Rdiv. rewrite Rmult_assoc, Rinv_l by lra.
      replace (INR 300) with 300 by (rewrite INR_IZR_INZ; reflexivity). lra.
    + cbn [DualAtomModel.atoms pair residualTime]. now rewrite Hzero.
  - exists (passesBelow 1), adjusted.
    split; [rewrite passesBelow_1; lia|]. split; [lra|]. reflexivity.
Qed.

Lemma frame_takes_at_most_300_passes_sample :
  exists (k : nat) (modelTimeStep : R),
    (k <= 300)%nat
    /\ 0 <= modelTimeStep <= MAX_TIME_STEP
    /\ DualAtomModel.atoms
         (DualAtomModel.step (stepInternal (fun _ count => S count)) 0.016
                             Samples.restingPair)
       = mkInternals 0 (Nat.iter k (fun count => S count) 0%nat).
Proof.
  apply (frame_takes_at_most_300_passes (fun _ count => S count) 0.016
                                        Samples.restingPair).
  - lra.
  - reflexivity.
Defined.

End DualAtomFacts.

(** ** MultipleParticleModel: heating and cooling *)

Module TemperatureControlFacts.
Import MultipleParticleModel ModelControls TemperatureControl.

Lemma dampMolecule_slows (dt : R) (v : Vector2) :
  0 <= dt <= 10 / 9 ->
  x (dampMolecule dt v) = x v
  /\ (y v <= 0 -> y (dampMolecule dt v) = y v)
  /\ (0 < y v -> 0 <= y (dampMolecule dt v) <= y v).
Proof.
  intros Hdt. unfold dampMolecule.
  destruct (Rgt_dec (y v) 0) as [Hup|Hdown]; simpl.
  - split; [reflexivity|]. split; [lra|]. intros _.
    assert (0 <= 1 - dt * 0.9 <= 1) by lra. nra.
  - split; [reflexivity|]. split; [reflexivity | lra].
Qed.

Lemma dampLoop_slots (dt : R) (k i : nat) (vs vs' : list Vector2) :
  dampLoop dt i k vs = Some vs' ->
  (forall a, (a < i)%nat -> vs' !! a = vs !! a)
  /\ (forall a, (i <= a < i + k)%nat ->
        exists v, vs !! a = Some v /\ vs' !! a = Some (dampMolecule dt v)).
Proof.
  revert i vs; induction k as [|k IH]; intros i vs; simpl.
  - intros [= <-]. split; [reflexivity | intros; lia].
  - destruct (vs !! i) as [vi|] eqn:Hvi; simpl; [|discriminate].
    intros Hrest. destruct (IH _ _ Hrest) as [Hbelow Hrange].
    assert (Hlen : (i < length vs)%nat) by (apply lookup_lt_is_Some; eauto).
    split.
    + intros a Ha. rewrite Hbelow by lia. apply list_lookup_insert_ne; lia.
    + intros a Ha. destruct (decide (a = i)) as [->|Hne].
      * exists vi. split; [exact Hvi|].
        rewrite Hbelow by lia. now apply list_lookup_insert_eq.
      * destruct (Hrange a) as (v & Hv & Hv'); [lia|].
        rewrite list_lookup_insert_ne in Hv by lia. eauto.
Qed.

(** X20: for a time step between 0 and 10/9, [dampUpwardMotion] is a brake
    on upward motion only: the horizontal velocity of every molecule and the
    vertical velocity of a molecule that is not moving up are left as they
    are, and a molecule that is moving up is slowed down without ever being
    turned around. *)
Theorem upward_motion_is_only_slowed (dt : R) (n : nat) (vs vs' : list Vector2) :
  0 <= dt <= 10 / 9 ->
  dampUpwardMotion dt n vs = Some vs' ->
  forall i, (i < n)%nat ->
    exists v v',
      vs !! i = Some v /\ vs' !! i = Some v'
      /\ x v' = x v
      /\ (y v <= 0 -> y v' = y v)
      /\ (0 < y v -> 0 <= y v' <= y v).
Proof.
  intros Hdt Hrun i Hi. unfold dampUpwardMotion in Hrun.
  destruct (dampLoop_slots _ _ _ _ _ Hrun) as [_ Hrange].
  destruct (Hrange i) as (v & Hv & Hv'); [lia|].
  exists v, (dampMolecule dt v). split; [exact Hv|]. split; [exact Hv'|].
  now apply dampMolecule_slows.
Qed.

Lemma upward_motion_is_only_slowed_sample :
  exists vs' v',
    dampUpwardMotion 0.016 2 [mkVector2 1 2; mkVector2 3 (-4)] = Some vs'
    /\ vs' !! 0%nat = Some v'
    /\ 0 <= y v' <= 2.
Proof.
  eexists.
  assert (Hdt : 0 <= 0.016 <= 10 / 9) by lra.
  assert (Hfirst : (0 < 2)%nat) by lia.
  destruct (upward_motion_is_only_slowed 0.016 2
              [mkVector2 1 2; mkVector2 3 (-4)] _ Hdt eq_refl 0%nat Hfirst)
    as (v & v' & Hv & Hv' & _ & _ & Hup).
  injection Hv as <-.
  exists v'. split; [reflexivity|]. split; [exact Hv'|].
  apply Hup. simpl. lra.
Defined.

Section AnyModel.
Context {E : Type}.

(** X21: heating and cooling keep the set-point in order.  With both
    thermostats in place, a set-point in [[0, MAX_TEMPERATURE]], a solid
    temperature above 0 and a time step that is not negative, the block that
    adjusts the set-point in [stepInternal] succeeds; the new set-point is at
    most [MAX_TEMPERATURE]; heating never lowers it and cooling never raises
    it; and both thermostats are handed the new set-point itself. *)
Theorem set_point_adjustment (P : PhaseConstants) (K : SOMConstants)
    (heatingCoolingAmount dt : R) (m : Model E) :
  0 < SOLID_TEMPERATURE P ->
  0 <= dt ->
  0 <= temperatureSetPoint (thermal m) <= MAX_TEMPERATURE ->
  heatingCoolingAmount <> 0 ->
  isoKineticThermostat (thermal m) <> None ->
  andersenThermostat (thermal m) <> None ->
  exists m',
    adjustTemperatureSetPoint P K heatingCoolingAmount dt m = Some m'
    /\ temperatureSetPoint (thermal m') <= MAX_TEMPERATURE
    /\ (0 < heatingCoolingAmount ->
        temperatureSetPoint (thermal m) <= temperatureSetPoint (thermal m'))
    /\ (heatingCoolingAmount < 0 ->
        temperatureSetPoint (thermal m') <= temperatureSetPoint (thermal m))
    /\ isoKineticThermostat (thermal m')
       = Some (mkThermostat (temperatureSetPoint (thermal m')))
    /\ andersenThermostat (thermal m')
       = Some (mkThermostat (temperatureSetPoint (thermal m'))).
Proof.
  intros Hsolid Hdt Hcur Hh Hiso Hand.
  unfold adjustTemperatureSetPoint.
  destruct (Req_dec_T heatingCoolingAmount 0) as [|_]; [contradiction|].
  destruct (isoKineticThermostat (thermal m)) as [iso|]; [|contradiction].
  destruct (andersenThermostat (thermal m)) as [andersen|]; [|contradiction].
  set (cur := temperatureSetPoint (thermal m)) in *.
  unfold MAX_TEMPERATURE, MIN_TEMPERATURE, TEMPERATURE_CHANGE_RATE in *.
  assert (Happroaching : 0 < APPROACHING_ABSOLUTE_ZERO_TEMPERATURE P)
    by (unfold APPROACHING_ABSOLUTE_ZERO_TEMPERATURE; lra).
  assert (Hnew : exists newTemperature,
            (if Rltb cur (APPROACHING_ABSOLUTE_ZERO_TEMPERATURE P)
                && Rltb heatingCoolingAmount 0
             then
               adjustmentFactor ←
                 pow_1_35 (cur / APPROACHING_ABSOLUTE_ZERO_TEMPERATURE P);
               Some (cur + heatingCoolingAmount * 0.07 * dt * adjustmentFactor)
             else Some (Rmin (cur + heatingCoolingAmount * 0.07 * dt) 50.0))
            = Some newTemperature
            /\ newTemperature <= 50
            /\ (0 < heatingCoolingAmount -> cur <= newTemperature)
            /\ (heatingCoolingAmount < 0 -> newTemperature <= cur)).
  { unfold Rltb.
    destruct (Rlt_dec cur _) as [Hnear|Hfar];
      destruct (Rlt_dec heatingCoolingAmount 0) as [Hcool|Hheat];
      cbn [andb].
    - assert (Hbase : 0 <= cur / APPROACHING_ABSOLUTE_ZERO_TEMPERATURE P)
        by (apply Rmult_le_pos; [lra | left; now apply Rinv_0_lt_compat]).
      assert (Hpow : exists f,
                pow_1_35 (cur / APPROACHING_ABSOLUTE_ZERO_TEMPERATURE P) = Some f
                /\ 0 <= f).
      { unfold pow_1_35. destruct (Rlt_dec _ 0); [lra|].
        destruct (Req_dec_T _ 0); [exists 0; split; [reflexivity | lra]|].
        eexists. split; [reflexivity|]. unfold Rpower. left. apply exp_pos. }
      destruct Hpow as (f & -> & Hf). cbn [mbind option_bind].
      eexists. split; [reflexivity|].
      assert (0 <= dt * f) by (apply Rmult_le_pos; lra).
      repeat split; intros; nra.
    - eexists. split; [reflexivity|]. unfold Rmin.
      assert (0 <= heatingCoolingAmount * dt) by (apply Rmult_le_pos; lra).
      destruct (Rle_dec _ _); repeat split; intros; lra.
    - eexists. split; [reflexivity|]. unfold Rmin.
      assert (0 <= - heatingCoolingAmount * dt) by (apply Rmult_le_pos; lra).
      destruct (Rle_dec _ _); repeat split; intros; lra.
    - eexists. split; [reflexivity|]. unfold Rmin.
      assert (0 <= heatingCoolingAmount * dt) by (apply Rmult_le_pos; lra).
      destruct (Rle_dec _ _); repeat split; intros; lra. }
  destruct Hnew as (newTemperature & -> & Hmax & Hheat & Hcool).
  cbn [mbind option_bind].
  eexists. split; [reflexivity|].
  cbn [thermal set_thermal temperatureSetPoint isoKineticThermostat
       andersenThermostat].
  split; [|split; [|split; [|split; reflexivity]]].
  - destruct (Rleb _ _ && _ && _); lra.
  - intros Hpos. unfold Rleb. destruct (Rle_dec heatingCoolingAmount 0); [lra|].
    cbn [andb]. now apply Hheat.
  - intros Hneg. specialize (Hcool Hneg). unfold Rgtb.
    destruct (Rgt_dec newTemperature 0.00001);
      destruct (Rleb _ _ && _); cbn [andb]; lra.
Qed.

End AnyModel.

Lemma set_point_adjustment_sample :
  exists m',
    adjustTemperatureSetPoint Samples.somePhases Samples.someConstants 1 0.016
                              Samples.thermostatted = Some m'
    /\ 0.15 <= temperatureSetPoint (thermal m') <= 50.
Proof.
  assert (Hsolid : 0 < SOLID_TEMPERATURE Samples.somePhases) by (simpl; lra).
  assert (Hdt : 0 <= 0.016) by lra.
  assert (Hcur : 0 <= temperatureSetPoint (thermal Samples.thermostatted)
                 <= MAX_TEMPERATURE) by (unfold MAX_TEMPERATURE; simpl; lra).
  assert (Hh : 1 <> 0) by lra.
  destruct (set_point_adjustment Samples.somePhases Samples.someConstants
              1 0.016 Samples.thermostatted Hsolid Hdt Hcur Hh)
    as (m' & Hrun & Hmax & Hheat & _); [discriminate | discriminate |].
  exists m'. split; [exact Hrun|]. split.
  - apply Hheat. lra.
  - unfold MAX_TEMPERATURE in Hmax. lra.
Defined.

End TemperatureControlFacts.

(** ** What rounding does to the cap and to the running total *)

Module Binary64Facts.
Import PrimFloat Binary64.
Local Open Scope float_scope.

(** C6 as first stated fails in binary64.  One atom with velocity (2, 10)
    and no force on it: the velocity-Verlet value is (2, 10), of magnitude
    above 10, so it is rescaled; the velocity that is stored has a magnitude
    above 10, both as the code would compute it and measured exactly. *)
Lemma velocity_cap_overshoots_in_binary64 :
  exists ds' calculatedTemperature v,
    updateVelocitiesAndRotationRates 0.5 hasty 0.0078125
    = Some (ds', calculatedTemperature)
    /\ moleculeVelocities ds' !! 0%nat = Some v
    /\ ltb 10 (magnitude v) = true
    /\ QArith_base.Qlt (QArith_base.inject_Z 100) (exactMagnitudeSquared v).
Proof.
  do 3 eexists. split; [vm_compute; reflexivity|].
  split; [reflexivity|]. split; vm_compute; reflexivity.
Qed.

(** On the same input the calculated temperature comes out above 100/3,
    against the quotient as binary64 rounds it and against the rational
    number itself. *)
Lemma temperature_overshoots_in_binary64 :
  exists ds' calculatedTemperature,
    updateVelocitiesAndRotationRates 0.5 hasty 0.0078125
    = Some (ds', calculatedTemperature)
    /\ ltb (100 / 3) calculatedTemperature = true
    /\ QArith_base.Qlt (QArith_base.Qmake 100 3) (exact calculatedTemperature).
Proof.
  do 2 eexists. split; [vm_compute; reflexivity|].
  split; vm_compute; reflexivity.
Qed.

(** A moving average of size 2 that is given 1e16, 1, 0, 0 holds 0 and 0 in
    its buffer, and reports an average of -0.5: adding 1 to a total of 1e16
    is lost to rounding, and taking the 1 out again is not. *)
Lemma running_total_drifts_in_binary64 :
  exists m',
    MovingAverage.addValues [1e16; 1; 0; 0] (MovingAverage.create 2 0) = Some m'
    /\ MovingAverage.array m' = [Some 0; Some 0]
    /\ MovingAverage.total m' = -1
    /\ MovingAverage.average m' = -0.5.
Proof.
  eexists. split; [vm_compute; reflexivity|]. repeat split.
Qed.

End Binary64Facts.
